(** * Technical analysis and post-earnings alignment: a shallow embedding

    The functions of [analysis/technical_analysis.py] and the alignment walk
    of [data/stock_fetcher.py] (calculate_post_earnings_movement) as Rocq
    functions, and the properties of the specification settled on them.

    Conventions of the embedding.
    - A numpy float64 is a [float64]: an exact rational, an infinity or NaN.
      Rounding, overflow and the sign of zero are outside the model (the zero
      of [Q] stands for +0.0).  Rounding to nearest keeps the order of two
      values but not their distinctness, so where a computed level is
      compared with the bounds it is interpolated between, the bounds are
      included.
    - A Python exception is [None] in the [option] type; a [try ... except
      Exception: return None] therefore maps the failure of its body to the
      [None] the function returns.
    - A DataFrame is a list of typed rows together with the list of the
      column names it carries; reading a column that is not carried raises
      KeyError, and a frame without a row or without a column is empty.
    - Assigning to a key of a dictionary, or to a column of a frame, that is
      there already replaces its value and adds nothing.
    - [datetime.now()] reads a clock: the n-th reading of the run is
      [clock n], and the number of readings made so far is threaded as state.
    - Calls to [logger] write to a log and return nothing; they are not
      modelled. *)

From Stdlib Require Import Ascii String ZArith QArith List Bool Sorted Lia Lqa.
Import ListNotations.

Local Open Scope Z_scope.

(** ** Numbers *)

Module Float.

Inductive float64 : Type :=
| Fin (q : Q)
| PInf
| NInf
| NaN.

Definition isnan (x : float64) : bool :=
  match x with NaN => true | _ => false end.

Definition notna (x : float64) : bool := negb (isnan x).

Definition is_finite (x : float64) : Prop :=
  match x with Fin _ => True | _ => False end.

(** [np.isfinite]. *)
Definition finiteb (x : float64) : bool :=
  match x with Fin _ => true | _ => false end.

(** Sign of a finite value, as a comparison with zero. *)
Definition sgn (q : Q) : comparison := (q ?= 0)%Q.

Definition fneg (x : float64) : float64 :=
  match x with
  | Fin q => Fin (- q)%Q
  | PInf => NInf
  | NInf => PInf
  | NaN => NaN
  end.

Definition fadd (x y : float64) : float64 :=
  match x, y with
  | NaN, _ | _, NaN => NaN
  | Fin a, Fin b => Fin (a + b)%Q
  | PInf, NInf | NInf, PInf => NaN
  | PInf, _ | _, PInf => PInf
  | NInf, _ | _, NInf => NInf
  end.

Definition fsub (x y : float64) : float64 := fadd x (fneg y).

(** An infinity scaled by a finite factor. *)
Definition scale_inf (positive : bool) (q : Q) : float64 :=
  match sgn q with
  | Eq => NaN
  | Gt => if positive then PInf else NInf
  | Lt => if positive then NInf else PInf
  end.

Definition fmul (x y : float64) : float64 :=
  match x, y with
  | NaN, _ | _, NaN => NaN
  | Fin a, Fin b => Fin (a * b)%Q
  | PInf, Fin b => scale_inf true b
  | NInf, Fin b => scale_inf false b
  | Fin a, PInf => scale_inf true a
  | Fin a, NInf => scale_inf false a
  | PInf, PInf | NInf, NInf => PInf
  | PInf, NInf | NInf, PInf => NInf
  end.

(** numpy division: a zero divisor raises nothing, it yields an infinity
    (or NaN for 0/0) and a RuntimeWarning. *)
Definition fdiv (x y : float64) : float64 :=
  match x, y with
  | NaN, _ | _, NaN => NaN
  | Fin a, Fin b =>
      match sgn b with
      | Eq => match sgn a with Eq => NaN | Gt => PInf | Lt => NInf end
      | _ => Fin (a / b)%Q
      end
  | Fin _, (PInf | NInf) => Fin 0
  | (PInf | NInf), (PInf | NInf) => NaN
  | PInf, Fin b => match sgn b with Lt => NInf | _ => PInf end
  | NInf, Fin b => match sgn b with Lt => PInf | _ => NInf end
  end.

(** [x < y]; every comparison with NaN is false. *)
Definition flt (x y : float64) : bool :=
  match x, y with
  | NaN, _ | _, NaN => false
  | Fin a, Fin b => match (a ?= b)%Q with Lt => true | _ => false end
  | NInf, NInf | PInf, _ | _, NInf => false
  | NInf, _ | _, PInf => true
  end.

Definition fgt (x y : float64) : bool := flt y x.

(** Propositional order on values, for statements. *)
Definition fle (x y : float64) : Prop :=
  match x, y with
  | NaN, _ | _, NaN => False
  | Fin a, Fin b => (a <= b)%Q
  | NInf, _ | _, PInf => True
  | _, _ => False
  end.

(** Equality of values up to the representation of the rational. *)
Definition feq (x y : float64) : Prop :=
  match x, y with
  | Fin a, Fin b => (a == b)%Q
  | PInf, PInf | NInf, NInf | NaN, NaN => True
  | _, _ => False
  end.

Definition of_Z (z : Z) : float64 := Fin (inject_Z z).

(** Python's [sum] over floats, starting from the integer 0. *)
Definition fsum (l : list float64) : float64 := fold_left fadd l (Fin 0).

(** [max] and [min] of a window that holds no NaN. *)
Definition fmax (x y : float64) : float64 := if flt x y then y else x.
Definition fmin (x y : float64) : float64 := if flt y x then y else x.

Definition max_of (l : list float64) : float64 :=
  match l with
  | [] => NaN
  | x :: r => fold_left fmax r x
  end.

Definition min_of (l : list float64) : float64 :=
  match l with
  | [] => NaN
  | x :: r => fold_left fmin r x
  end.

End Float.
Import Float.

(** ** pandas and Python primitives *)

Module Pandas.

(** [Series.mean()]: NaN cells are skipped; no cell left gives NaN. *)
Definition mean (l : list float64) : float64 :=
  let v := filter notna l in
  match v with
  | [] => NaN
  | _ => fdiv (fsum v) (of_Z (Z.of_nat (length v)))
  end.

(** Python indexing [l[i]]: a negative index counts from the end, an index
    out of range raises IndexError. *)
Definition iloc {A : Type} (i : Z) (l : list A) : option A :=
  let n := Z.of_nat (length l) in
  let j := if i <? 0 then i + n else i in
  if (j <? 0) || (n <=? j) then None else nth_error l (Z.to_nat j).

(** Python slicing [l[start:stop]] with integer bounds: negative bounds count
    from the end and both are clipped to the list. *)
Definition clip (n i : Z) : Z :=
  let j := if i <? 0 then i + n else i in
  Z.max 0 (Z.min n j).

Definition slice {A : Type} (start stop : Z) (l : list A) : list A :=
  let n := Z.of_nat (length l) in
  let a := clip n start in
  let b := clip n stop in
  firstn (Z.to_nat (b - a)) (skipn (Z.to_nat a) l).

(** [l[start:]]. *)
Definition slice_from {A : Type} (start : Z) (l : list A) : list A :=
  skipn (Z.to_nat (clip (Z.of_nat (length l)) start)) l.

(** [Series.rolling(window=w).agg()]: pandas turns the infinite cells of
    the column into NaN before it aggregates, and [min_periods] is left at
    its default, the window size, so the value at index [i] is NaN unless
    the [w] cells ending at [i] all exist and are finite numbers.  A
    negative window raises ValueError. *)
Definition window_at (w i : nat) (col : list float64) : list float64 :=
  firstn w (skipn (S i - w) col).

Definition rolling (agg : list float64 -> float64) (w : Z)
    (col : list float64) : option (list float64) :=
  if w <? 0 then None
  else
    let k := Z.to_nat w in
    Some (map (fun i =>
                 let win := window_at k i col in
                 if (S i <? k)%nat || negb (forallb finiteb win) then NaN
                 else agg win)
              (seq 0 (length col))).

(** [d[k] = v], on a dictionary or on the columns of a frame, for keys
    that are numbered: the value of a key that is there already is replaced
    where it stands, a new key comes last. *)
Fixpoint assign {V : Type} (k : Z) (v : V) (d : list (Z * V))
    : list (Z * V) :=
  match d with
  | [] => [(k, v)]
  | (k', v') :: r =>
      if k' =? k then (k, v) :: r else (k', v') :: assign k v r
  end.

(** [list.sort()]: a stable sort; [before y x] says that [y] must come
    before [x]. *)
Fixpoint insert_by (before : float64 -> float64 -> bool) (x : float64)
    (l : list float64) : list float64 :=
  match l with
  | [] => [x]
  | y :: r =>
      if before y x then y :: insert_by before x r else x :: y :: r
  end.

Definition sort_by (before : float64 -> float64 -> bool)
    (l : list float64) : list float64 :=
  fold_right (insert_by before) [] l.

(** [l.sort()] orders by [<], [l.sort(reverse=True)] by [>]. *)
Definition sort_asc : list float64 -> list float64 := sort_by flt.
Definition sort_desc : list float64 -> list float64 := sort_by fgt.

End Pandas.
Import Pandas.

(** ** Data frames *)

Module Frames.

(** A DataFrame: the names of the columns it carries and its rows.  The
    fields of a row that belong to a column the frame does not carry hold no
    information and are never read. *)
Record Frame (R : Type) : Type := mkFrame {
  columns : list string;
  rows : list R
}.
Arguments mkFrame {R} _ _.
Arguments columns {R} _.
Arguments rows {R} _.

(** [name in df.columns]. *)
Definition has_col {R : Type} (name : string) (df : Frame R) : bool :=
  existsb (String.eqb name) (columns df).

(** [df[name]] for the column stored in [field]; KeyError when absent. *)
Definition getitem {R : Type} (name : string) (field : R -> float64)
    (df : Frame R) : option (list float64) :=
  if has_col name df then Some (map field (rows df)) else None.

(** [df.empty]: true when one of the two axes has length 0, that is when
    the frame has no row or no column.  [len(df)] counts the rows. *)
Definition empty {R : Type} (df : Frame R) : bool :=
  match rows df with
  | [] => true
  | _ => match columns df with [] => true | _ => false end
  end.

Definition len {R : Type} (df : Frame R) : Z := Z.of_nat (length (rows df)).

(** [df.head(n)]. *)
Definition head {R : Type} (n : nat) (df : Frame R) : Frame R :=
  mkFrame (columns df) (firstn n (rows df)).

(** [df[mask]]: the rows that satisfy a boolean mask. *)
Definition select {R : Type} (mask : R -> bool) (df : Frame R) : Frame R :=
  mkFrame (columns df) (filter mask (rows df)).

(** One row of the price history. *)
Record PriceRow : Type := mkPrice {
  Date : Z;
  High : float64;
  Low : float64;
  Close : float64;
  Volume : float64
}.

(** One row of the earnings table; [announcement_date] counts days. *)
Record EarningsRow : Type := mkEarnings {
  announcement_date : Z;
  surprise_percent : float64;
  price_1d_change : float64;
  price_5d_change : float64
}.

End Frames.
Import Frames.

(** Failure propagation inside a [try] body. *)
Notation "'do' x <- e ; k" :=
  (match e with Some x => k | None => None end)
  (at level 10, x pattern, e at level 100, k at level 200,
   format "'[v' 'do'  x  <-  e ; '/' k ']'").

(** The clock behind [datetime.now()]: its n-th reading. *)
Definition Clock : Type := nat -> Z.

(** ** analysis/technical_analysis.py *)

Module TechnicalAnalysis.

(** The frame returned by calculate_moving_averages: the input and the
    [ma_<window>] columns added to its copy, keyed by [window], in the
    order of the columns of the frame. *)
Record MAFrame : Type := mkMA {
  base : Frame PriceRow;
  ma_columns : list (Z * list float64)
}.

Definition default_windows : list Z := [20; 50; 200].

(** The loop over [windows], from the columns added so far: each turn
    assigns [result_df['ma_<window>']], so a window that comes twice leaves
    one column.  Any exception abandons the copy. *)
Fixpoint moving_average_loop (df : Frame PriceRow) (windows : list Z)
    (added : list (Z * list float64)) : option (list (Z * list float64)) :=
  match windows with
  | [] => Some added
  | w :: ws =>
      do close <- getitem "Close" Close df;
      do col <- rolling mean w close;
      moving_average_loop df ws (assign w col added)
  end.

Definition add_moving_averages (df : Frame PriceRow) (windows : list Z)
    : option (list (Z * list float64)) :=
  moving_average_loop df windows [].

Definition calculate_moving_averages (df : Frame PriceRow) (windows : list Z)
    : MAFrame :=
  match add_moving_averages df windows with
  | Some cols => mkMA df cols
  | None => mkMA df []
  end.

(** [latest.get('ma_<w>')] on the last row of the frame: [None] when the
    column is missing. *)
Definition latest_get_ma (w : Z) (ma_df : MAFrame) : option float64 :=
  match find (fun c => fst c =? w) (ma_columns ma_df) with
  | Some (_, col) => iloc (-1) col
  | None => None
  end.

Record SupportResistance : Type := mkSR {
  sr_ticker : string;
  sr_date : Z;
  fifty_two_week_high : float64;
  fifty_two_week_low : float64;
  ma_20 : option float64;
  ma_50 : option float64;
  ma_200 : option float64;
  (** [resistance_1], [resistance_2], ... in this order *)
  resistance : list float64;
  (** [support_1], [support_2], ... in this order *)
  support : list float64
}.

(** [range(n)]. *)
Definition range (n : Z) : list Z := map Z.of_nat (seq 0 (Z.to_nat n)).

(** [(i + 1) / (num_levels + 1)], a true division of Python integers. *)
Definition level_fraction (i num_levels : Z) : float64 :=
  Fin (inject_Z (i + 1) / inject_Z (num_levels + 1))%Q.

Definition resistance_level (current_price high_52w : float64)
    (num_levels i : Z) : float64 :=
  fadd current_price
       (fmul (level_fraction i num_levels) (fsub high_52w current_price)).

Definition support_level (current_price low_52w : float64)
    (num_levels i : Z) : float64 :=
  fsub current_price
       (fmul (level_fraction i num_levels) (fsub current_price low_52w)).

(** Everything calculate_support_resistance computes before it builds the
    result dictionary: the part of the [try] body that can raise. *)
Definition support_resistance_levels (df : Frame PriceRow)
    (window num_levels : Z)
    : option (float64 * float64 * MAFrame * list float64 * list float64) :=
  do high <- getitem "High" High df;
  do rolling_high <- rolling max_of window high;
  do high_52w <- iloc (-1) rolling_high;
  do low <- getitem "Low" Low df;
  do rolling_low <- rolling min_of window low;
  do low_52w <- iloc (-1) rolling_low;
  let ma_df := calculate_moving_averages df default_windows in
  do latest <- iloc (-1) (rows (base ma_df));
  do current_price <-
     (if has_col "Close" (base ma_df) then Some (Close latest) else None);
  let resistances :=
    map (resistance_level current_price high_52w num_levels)
        (range num_levels) in
  let supports :=
    map (support_level current_price low_52w num_levels)
        (range num_levels) in
  Some (high_52w, low_52w, ma_df, sort_asc resistances, sort_desc supports).

Definition calculate_support_resistance (clock : Clock)
    (df : Frame PriceRow) (ticker : string) (window num_levels : Z)
    (s : nat) : option SupportResistance * nat :=
  match support_resistance_levels df window num_levels with
  | Some (high_52w, low_52w, ma_df, resistances, supports) =>
      (Some (mkSR ticker (clock s) high_52w low_52w
                  (latest_get_ma 20 ma_df)
                  (latest_get_ma 50 ma_df)
                  (latest_get_ma 200 ma_df)
                  resistances supports),
       S s)
  | None => (None, s)
  end.

(** *** calculate_trend_score *)

Record TrendScore : Type := mkTrend {
  ts_ticker : string;
  ts_date : Z;
  price_trend_score : float64;
  volume_trend_score : float64;
  earnings_trend_score : float64;
  combined_score : float64
}.

Definition periods : list (string * Z) :=
  [("1d", 1); ("1w", 5); ("1m", 20); ("3m", 60)]%string.

Definition weights : list (string * float64) :=
  [("1d", Fin (3 # 10)); ("1w", Fin (3 # 10));
   ("1m", Fin (2 # 10)); ("3m", Fin (2 # 10))]%string.

(** Reading a dictionary; KeyError when the key is missing. *)
Definition dict_get {V : Type} (d : list (string * V)) (k : string)
    : option V :=
  option_map snd (find (fun e => String.eqb (fst e) k) d).

(** The body of the loop over the periods: the return over [days] points. *)
Definition period_return (close : list float64) (latest_price : float64)
    (days : Z) : option float64 :=
  let n := Z.of_nat (length close) in
  if n >? days then
    do past_price <-
       (if days <? n then iloc (- days - 1) close else iloc 0 close);
    Some (fdiv (fsub latest_price past_price) past_price)
  else Some (Fin 0).

Fixpoint period_returns (close : list float64) (latest_price : float64)
    (ps : list (string * Z)) : option (list (string * float64)) :=
  match ps with
  | [] => Some []
  | (period, days) :: r =>
      do ret <- period_return close latest_price days;
      do rest <- period_returns close latest_price r;
      Some ((period, ret) :: rest)
  end.

(** [returns[period] * weights[period] for period in weights]. *)
Fixpoint weighted_returns (returns : list (string * float64))
    (ws : list (string * float64)) : option (list float64) :=
  match ws with
  | [] => Some []
  | (period, weight) :: r =>
      do ret <- dict_get returns period;
      do rest <- weighted_returns returns r;
      Some (fmul ret weight :: rest)
  end.

(** The volume score, and next to it the divisors its division was run
    with: none when the guard [baseline_volume > 0] sends the code to the
    else branch. *)
Definition volume_trend (recent_volume baseline_volume : float64)
    : float64 * list float64 :=
  if fgt baseline_volume (Fin 0) then
    (fmul (fsub (fdiv recent_volume baseline_volume) (Fin 1)) (Fin 100),
     [baseline_volume])
  else (Fin 0, []).

Definition recent_volume (volume : list float64) : float64 :=
  mean (slice_from (-5) volume).

Definition baseline_volume (volume : list float64) : float64 :=
  if Z.of_nat (length volume) >? 30 then mean (slice (-30) (-5) volume)
  else mean volume.

Definition earnings_trend (earnings_df : option (Frame EarningsRow))
    : float64 :=
  match earnings_df with
  | Some e =>
      if negb (empty e) && has_col "surprise_percent" e then
        let recent_surprises := head 3 e in
        if negb (empty recent_surprises) then
          mean (map surprise_percent (rows recent_surprises))
        else Fin 0
      else Fin 0
  | None => Fin 0
  end.

Definition combine (price volume earnings : float64) : float64 :=
  fadd (fadd (fmul (Fin (5 # 10)) price) (fmul (Fin (3 # 10)) volume))
       (fmul (Fin (2 # 10)) earnings).

(** The scores, with the divisors of the volume division. *)
Definition trend_scores (df : Frame PriceRow)
    (earnings_df : option (Frame EarningsRow))
    : option (float64 * float64 * float64 * float64 * list float64) :=
  do latest <- iloc (-1) (rows df);
  do close <- getitem "Close" Close df;
  let latest_price := Close latest in
  do returns <- period_returns close latest_price periods;
  do weighted <- weighted_returns returns weights;
  let price := fmul (fsum weighted) (Fin 100) in
  do volume <- getitem "Volume" Volume df;
  let (vol, divisors) :=
    volume_trend (recent_volume volume) (baseline_volume volume) in
  let earnings := earnings_trend earnings_df in
  Some (price, vol, earnings, combine price vol earnings, divisors).

Definition calculate_trend_score (clock : Clock)
    (historical_df : option (Frame PriceRow))
    (earnings_df : option (Frame EarningsRow)) (ticker : string)
    (s : nat) : option TrendScore * nat :=
  match historical_df with
  | None => (None, s)
  | Some df =>
      if empty df then (None, s)
      else
        match trend_scores df earnings_df with
        | Some (price, vol, earnings, combined, _) =>
            (Some (mkTrend ticker (clock s) price vol earnings combined),
             S s)
        | None => (None, s)
        end
  end.

(** The divisors calculate_trend_score runs its volume division with. *)
Definition volume_divisors (historical_df : option (Frame PriceRow))
    (earnings_df : option (Frame EarningsRow)) : list float64 :=
  match historical_df with
  | None => []
  | Some df =>
      if empty df then []
      else
        match trend_scores df earnings_df with
        | Some (_, _, _, _, divisors) => divisors
        | None => []
        end
  end.

(** *** analyze_price_action_after_earnings and analyze_stock *)

Record SurpriseStats : Type := mkStats {
  avg_1d_after_positive_surprise : option float64;
  avg_5d_after_positive_surprise : option float64;
  avg_1d_after_negative_surprise : option float64;
  avg_5d_after_negative_surprise : option float64;
  surprise_1d_correlation : option float64;
  surprise_5d_correlation : option float64
}.

(** The dictionary returned by analyze_price_action_after_earnings: the
    keys of [surprise_stats] are there only in the long form. *)
Record EarningsAnalysis : Type := mkEA {
  ea_ticker : string;
  avg_1d_change : float64;
  avg_5d_change : float64;
  surprise_stats : option SurpriseStats;
  earnings_count : Z
}.

Record AnalysisBundle : Type := mkBundle {
  ab_ticker : string;
  support_resistance : option SupportResistance;
  trend_scores_of : option TrendScore;
  earnings_analysis : option EarningsAnalysis
}.

Section Analysis.

(** [DataFrame.corr()] of two columns, read at [.iloc[0, 1]]: Pearson's
    coefficient takes a square root and is left to pandas. *)
Variable corr : list (float64 * float64) -> float64.

Definition mean_if_any (field : EarningsRow -> float64)
    (df : Frame EarningsRow) : option float64 :=
  if negb (empty df) then Some (mean (map field (rows df))) else None.

Definition corr_if_many (field : EarningsRow -> float64)
    (df : Frame EarningsRow) : option float64 :=
  if len df >? 1 then
    Some (corr (map (fun r => (surprise_percent r, field r)) (rows df)))
  else None.

Definition analyze_price_action_after_earnings
    (historical_df : option (Frame PriceRow))
    (earnings_df : option (Frame EarningsRow)) (ticker : string)
    : option EarningsAnalysis :=
  match earnings_df with
  | None => None
  | Some e =>
      if empty e then None
      else if has_col "price_1d_change" e && has_col "price_5d_change" e
      then
        let avg_1d := mean (map price_1d_change (rows e)) in
        let avg_5d := mean (map price_5d_change (rows e)) in
        if has_col "surprise_percent" e then
          let positive_surprises :=
            select (fun r => fgt (surprise_percent r) (Fin 0)) e in
          let negative_surprises :=
            select (fun r => flt (surprise_percent r) (Fin 0)) e in
          Some (mkEA ticker avg_1d avg_5d
                  (Some (mkStats
                           (mean_if_any price_1d_change positive_surprises)
                           (mean_if_any price_5d_change positive_surprises)
                           (mean_if_any price_1d_change negative_surprises)
                           (mean_if_any price_5d_change negative_surprises)
                           (corr_if_many price_1d_change e)
                           (corr_if_many price_5d_change e)))
                  (len e))
        else Some (mkEA ticker avg_1d avg_5d None (len e))
      else None
  end.

Definition analyze_stock (clock : Clock) (ticker : string)
    (historical_df : option (Frame PriceRow))
    (earnings_df : option (Frame EarningsRow)) (s : nat)
    : option AnalysisBundle * nat :=
  match historical_df with
  | None => (None, s)
  | Some df =>
      if empty df then (None, s)
      else
        let (sr, s1) := calculate_support_resistance clock df ticker 252 2 s in
        let (ts, s2) :=
          calculate_trend_score clock historical_df earnings_df ticker s1 in
        let ea :=
          match earnings_df with
          | Some e =>
              if negb (empty e) then
                analyze_price_action_after_earnings historical_df earnings_df
                  ticker
              else None
          | None => None
          end in
        (Some (mkBundle ticker sr ts ea), s2)
  end.

End Analysis.

End TechnicalAnalysis.

(** ** data/stock_fetcher.py: calculate_post_earnings_movement *)

Module StockFetcher.

(** [stock.history(start=..., end=...)]: the price history the provider
    returns for a range of days, indexed by [Date]. *)
Definition Provider : Type := Z -> Z -> Frame PriceRow.

(** [date in hist_data.index]. *)
Definition in_index (date : Z) (hist_data : Frame PriceRow) : bool :=
  existsb (fun r => Date r =? date) (rows hist_data).

(** [hist_data.loc[date, 'Close']]; KeyError when the date or the column is
    missing. *)
Definition loc_close (date : Z) (hist_data : Frame PriceRow)
    : option float64 :=
  if has_col "Close" hist_data then
    option_map Close (find (fun r => Date r =? date) (rows hist_data))
  else None.

(** The first [while] loop, from [closest_date] on.  [None] only when the
    fuel runs out before the loop ends. *)
Fixpoint closest_walk (fuel : nat) (hist_data : Frame PriceRow)
    (announcement_date closest_date : Z) : option Z :=
  if negb (in_index closest_date hist_data)
     && (closest_date <=? announcement_date + 3)
  then
    match fuel with
    | O => None
    | S fuel' =>
        closest_walk fuel' hist_data announcement_date (closest_date + 1)
    end
  else Some closest_date.

Definition find_closest (hist_data : Frame PriceRow)
    (announcement_date : Z) : option Z :=
  closest_walk 4 hist_data announcement_date announcement_date.

(** The second [while] loop; it returns the final [future_date] and
    [days_added].  [None] only when the fuel runs out. *)
Fixpoint future_walk (fuel : nat) (hist_data : Frame PriceRow)
    (announcement_date day future_date days_added : Z) : option (Z * Z) :=
  if (days_added <? day) && (future_date <? announcement_date + (day + 5))
  then
    match fuel with
    | O => None
    | S fuel' =>
        let future_date' := future_date + 1 in
        let days_added' :=
          if in_index future_date' hist_data then days_added + 1
          else days_added in
        future_walk fuel' hist_data announcement_date day future_date'
          days_added'
    end
  else Some (future_date, days_added).

Definition find_future (hist_data : Frame PriceRow)
    (announcement_date closest_date day : Z) : option (Z * Z) :=
  future_walk (Z.to_nat (announcement_date + (day + 5) - closest_date))
    hist_data announcement_date day closest_date 0.

Definition percent_change (hist_data : Frame PriceRow)
    (closest_date future_date : Z) : option float64 :=
  do future_close <- loc_close future_date hist_data;
  do anchor_close <- loc_close closest_date hist_data;
  Some (fmul (fdiv (fsub future_close anchor_close) anchor_close) (Fin 100)).

(** The loop over [days], from the [price_<day>d_change] entries the
    dictionary [price_changes] holds so far, keyed by [day]: each turn
    assigns a key of the dictionary, so a horizon that comes twice leaves
    one entry. *)
Fixpoint horizon_loop (hist_data : Frame PriceRow)
    (announcement_date closest_date : Z) (days : list Z)
    (price_changes : list (Z * float64)) : option (list (Z * float64)) :=
  match days with
  | [] => Some price_changes
  | day :: r =>
      do found <- find_future hist_data announcement_date closest_date day;
      let future_date := fst found in
      if in_index future_date hist_data then
        do change <- percent_change hist_data closest_date future_date;
        horizon_loop hist_data announcement_date closest_date r
          (assign day change price_changes)
      else
        horizon_loop hist_data announcement_date closest_date r price_changes
  end.

(** The [price_<day>d_change] entries of one event. *)
Definition horizon_changes (hist_data : Frame PriceRow)
    (announcement_date closest_date : Z) (days : list Z)
    : option (list (Z * float64)) :=
  horizon_loop hist_data announcement_date closest_date days [].

(** One dictionary of [results]. *)
Record PriceChanges : Type := mkChanges {
  pc_announcement_date : Z;
  changes : list (Z * float64)
}.

(** The body of the loop over the announcement dates: [None] when nothing
    is appended, by [continue] or by the inner [except]. *)
Definition event_changes (hist_data : Frame PriceRow) (days : list Z)
    (announcement_date : Z) : option PriceChanges :=
  do closest_date <- find_closest hist_data announcement_date;
  if negb (in_index closest_date hist_data) then None
  else
    do entries <-
       horizon_changes hist_data announcement_date closest_date days;
    Some (mkChanges announcement_date entries).

Definition list_min (x : Z) (l : list Z) : Z := fold_left Z.min l x.
Definition list_max (x : Z) (l : list Z) : Z := fold_left Z.max l x.

Definition calculate_post_earnings_movement (history : Provider)
    (announcement_dates : list Z) (days : list Z)
    : option (list PriceChanges) :=
  match days, announcement_dates with
  | d :: ds, a :: dates =>
      let max_days := list_max d ds in
      let start_date := list_min a dates - 1 in
      let end_date := list_max a dates + (max_days + 1) in
      let hist_data := history start_date end_date in
      if empty hist_data then None
      else
        let results :=
          flat_map (fun a' =>
                      match event_changes hist_data days a' with
                      | Some e => [e]
                      | None => []
                      end)
                   announcement_dates in
        match results with
        | [] => None
        | _ => Some results
        end
  | _, _ => None
  end.

(** A provider that serves a fixed series: the rows dated in
    [start, end). *)
Definition serve (series : list PriceRow) : Provider :=
  fun start_date end_date =>
    mkFrame ["Date"; "High"; "Low"; "Close"; "Volume"]%string
      (filter (fun r => (start_date <=? Date r) && (Date r <? end_date))
              series).

End StockFetcher.

(** ** data/stock_fetcher.py: the ticker lists and the earnings table *)

Module Tickers.

Import StockFetcher.

(** [pd.read_html(url)[0]['Symbol'].tolist()]: the Symbol column of the
    first table of a page, [None] when the page cannot be fetched or read.
    The cells are strings. *)
Definition Pages : Type := string -> option (list string).

(** [s.replace(old, new)] for one-character [old] and [new]. *)
Fixpoint replace (old new : Ascii.ascii) (s : string) : string :=
  match s with
  | EmptyString => EmptyString
  | String c r =>
      String (if Ascii.eqb c old then new else c) (replace old new r)
  end.

Definition sp500_url : string :=
  "https://en.wikipedia.org/wiki/List_of_S%26P_500_companies".

Definition get_sp500_tickers (read_html : Pages) : list string :=
  match read_html sp500_url with
  | Some tickers => map (replace "."%char "-"%char) tickers
  | None => []
  end.

(** [list(dict.fromkeys(l))]: the first occurrence of every element, in
    order. *)
Fixpoint fromkeys (l : list string) : list string :=
  match l with
  | [] => []
  | x :: r => x :: filter (fun y => negb (String.eqb x y)) (fromkeys r)
  end.

Definition trending_urls : list string :=
  ["https://finance.yahoo.com/most-active";
   "https://finance.yahoo.com/trending-tickers"]%string.

(** The loop over the urls; the first page that fails abandons the
    function. *)
Fixpoint extend_all (read_html : Pages) (urls : list string)
    : option (list string) :=
  match urls with
  | [] => Some []
  | url :: r =>
      do tickers <- read_html url;
      do rest <- extend_all read_html r;
      Some (tickers ++ rest)
  end.

Definition get_trending_tickers (read_html : Pages) (limit : Z)
    : list string :=
  match extend_all read_html trending_urls with
  | Some all_tickers => slice 0 limit (fromkeys all_tickers)
  | None => []
  end.

(** The names of the columns whose cells a typed earnings row holds as
    numbers. *)
Definition number_columns : list string :=
  ["surprise_percent"; "price_1d_change"; "price_5d_change"]%string.

(** A typed row gives the announcement date of an event and the cells of
    the three number columns.  It can stand for a row of the frame that
    get_earnings_data builds only when the announcement_date column of that
    frame is the former index and the number columns are data columns of
    the provider: no data column is called "index" or "announcement_date",
    and the index is not called like a number column. *)
Definition well_named (index_name : option string)
    (table : Frame EarningsRow) : bool :=
  negb (has_col "index" table)
  && negb (has_col "announcement_date" table)
  && match index_name with
     | Some name => negb (existsb (String.eqb name) number_columns)
     | None => true
     end.

(** [stock.earnings_dates]: a frame indexed by the announcement dates,
    given with the name of its index.  The index values are the
    [announcement_date] of the rows and [columns] lists the data columns.
    The type holds the tables that typed rows can stand for. *)
Record EarningsDates : Type := mkDates {
  index_name : option string;
  table : Frame EarningsRow;
  named : well_named index_name table = true
}.

(** The name [df.reset_index()] gives to the column made of the index: the
    name of the index; for an index without a name, "index", or "level_0"
    when a column is called "index" already. *)
Definition index_column (dates : EarningsDates) : string :=
  match index_name dates with
  | Some name => name
  | None =>
      if has_col "index" (table dates) then "level_0"%string
      else "index"%string
  end.

(** [df.reset_index()]: the index becomes the first column; ValueError
    when a column of that name exists already. *)
Definition reset_index (dates : EarningsDates)
    : option (Frame EarningsRow) :=
  if has_col (index_column dates) (table dates) then None
  else Some (mkFrame (index_column dates :: columns (table dates))
                     (rows (table dates))).

(** [df.rename(columns={'index': 'announcement_date'})]. *)
Definition rename_index (df : Frame EarningsRow) : Frame EarningsRow :=
  mkFrame (map (fun c => if String.eqb c "index" then "announcement_date"%string
                         else c) (columns df))
          (rows df).

(** [df['ticker'] = ticker]. *)
Definition add_ticker (df : Frame EarningsRow) : Frame EarningsRow :=
  if has_col "ticker" df then df
  else mkFrame (columns df ++ ["ticker"]%string) (rows df).

(** get_earnings_data.  [earnings_dates] is what the provider answers,
    [None] when it has nothing or fails.  The test [if price_changes:] is
    applied to a DataFrame whenever calculate_post_earnings_movement
    returns one: pandas raises ValueError there (the truth value of a
    DataFrame is ambiguous), and the function returns None; the merge that
    follows the test is never reached. *)
Definition get_earnings_data (history : Provider)
    (earnings_dates : option EarningsDates) : option (Frame EarningsRow) :=
  match earnings_dates with
  | None => None
  | Some dates =>
      if empty (table dates) then None
      else
        do indexed <- reset_index dates;
        let earnings_df := add_ticker (rename_index indexed) in
        if has_col "announcement_date" earnings_df then
          match
            calculate_post_earnings_movement history
              (map announcement_date (rows earnings_df)) [1; 5]
          with
          | Some _ => None
          | None => Some earnings_df
          end
        else None
  end.

End Tickers.

(** ** data_collector.py *)

Module DataCollector.

(** [range(start, stop, step)] for a positive step. *)
Definition range_step (start stop step : Z) : list Z :=
  map (fun k => start + step * Z.of_nat k)
      (seq 0 (Z.to_nat ((stop - start + step - 1) / step))).

Definition batch_size : Z := 10.

(** The [batch_tickers] of the successive turns of the loop of
    collect_data. *)
Definition batches (tickers : list string) : list (list string) :=
  map (fun i => slice i (i + batch_size) tickers)
      (range_step 0 (Z.of_nat (length tickers)) batch_size).

(** The batch number and the batch total written to the log at turn [i]:
    [i // batch_size + 1] and
    [(len(tickers) + batch_size - 1) // batch_size]. *)
Definition batch_number (i : Z) : Z := i / batch_size + 1.
Definition batch_total (tickers : list string) : Z :=
  (Z.of_nat (length tickers) + batch_size - 1) / batch_size.

(** [if limit and len(tickers) > limit: tickers = tickers[:limit]]; no
    limit is [None]. *)
Definition apply_limit (limit : option Z) (tickers : list string)
    : list string :=
  match limit with
  | Some n =>
      if negb (n =? 0) && (Z.of_nat (length tickers) >? n)
      then slice 0 n tickers
      else tickers
  | None => tickers
  end.

Section Collect.

(** The data fetched for a ticker, fetch_batch_tickers and
    process_ticker_data: the network and the database are not modelled. *)
Variable Data : Type.
Variable fetch_batch_tickers : list string -> list (string * Data).
Variable process_ticker_data : Data -> bool.
(** The truth value of a fetched record ([if data and ...]). *)
Variable truthy : Data -> bool.

(** The loop over [batch_results.items()]. *)
Definition count_batch (successful_count : Z)
    (batch_results : list (string * Data)) : Z :=
  fold_left
    (fun count entry =>
       if truthy (snd entry) && process_ticker_data (snd entry)
       then count + 1 else count)
    batch_results successful_count.

(** [successful_count] after the loop over the batches. *)
Definition count_successes (tickers : list string) : Z :=
  fold_left
    (fun successful_count batch_tickers =>
       count_batch successful_count (fetch_batch_tickers batch_tickers))
    (batches tickers) 0.

End Collect.

(** The test of scheduled_collection on [datetime.now()]: true when the
    collection is skipped. *)
Definition outside_market_hours (weekday hour minute : Z) : bool :=
  (weekday >=? 5) || (hour <? 9) || ((hour =? 9) && (minute <? 30))
  || (hour >=? 16).

Inductive Collection : Type :=
| CollectTrending (limit : Z)
| CollectSP500.

(** The calls of collect_data scheduled_collection makes, in order. *)
Definition scheduled_collection (market_hours_only : bool)
    (weekday hour minute current_count stock_count : Z)
    : list Collection :=
  if market_hours_only && outside_market_hours weekday hour minute then []
  else if current_count >=? stock_count then [CollectTrending 50]
  else [CollectSP500; CollectTrending 100].

End DataCollector.

Import TechnicalAnalysis StockFetcher Tickers DataCollector.

(** ** Notions used by the properties *)

Module Properties.

(** A result with its time stamp blanked. *)
Definition undated_sr (r : SupportResistance) : SupportResistance :=
  mkSR (sr_ticker r) 0 (fifty_two_week_high r) (fifty_two_week_low r)
       (ma_20 r) (ma_50 r) (ma_200 r) (resistance r) (support r).

Definition undated_ts (r : TrendScore) : TrendScore :=
  mkTrend (ts_ticker r) 0 (price_trend_score r) (volume_trend_score r)
          (earnings_trend_score r) (combined_score r).

Definition undated_bundle (b : AnalysisBundle) : AnalysisBundle :=
  mkBundle (ab_ticker b)
           (option_map undated_sr (support_resistance b))
           (option_map undated_ts (trend_scores_of b))
           (earnings_analysis b).

(** [m] is the greatest (least) value of [l]. *)
Definition is_maximum (m : float64) (l : list float64) : Prop :=
  In m l /\ Forall (fun x => fle x m) l.

Definition is_minimum (m : float64) (l : list float64) : Prop :=
  In m l /\ Forall (fun x => fle m x) l.

(** The last [n] elements of a list: the trailing window. *)
Definition trailing {A : Type} (n : nat) (l : list A) : list A :=
  skipn (length l - n) l.

(** A finite value strictly between two rationals. *)
Definition strictly_between (lo hi : Q) (x : float64) : Prop :=
  match x with
  | Fin q => (lo < q)%Q /\ (q < hi)%Q
  | _ => False
  end.

(** A finite value between two rationals, the bounds included. *)
Definition between (lo hi : Q) (x : float64) : Prop :=
  match x with
  | Fin q => (lo <= q)%Q /\ (q <= hi)%Q
  | _ => False
  end.

(** Ascending and descending order of a list of levels. *)
Definition ascending (l : list float64) : Prop :=
  forall i j x y, (i < j)%nat -> nth_error l i = Some x ->
                  nth_error l j = Some y -> fle x y.

Definition descending (l : list float64) : Prop :=
  forall i j x y, (i < j)%nat -> nth_error l i = Some x ->
                  nth_error l j = Some y -> fle y x.

(** The earnings events, most recent first: a stable sort by
    [announcement_date], descending. *)
Fixpoint insert_recent (e : EarningsRow) (l : list EarningsRow)
    : list EarningsRow :=
  match l with
  | [] => [e]
  | y :: r =>
      if announcement_date e <? announcement_date y
      then y :: insert_recent e r
      else e :: y :: r
  end.

Definition most_recent_first (l : list EarningsRow) : list EarningsRow :=
  fold_right insert_recent [] l.

(** The earnings score in the words of the specification: the mean of
    [surprise_percent] over the 3 most recent events. *)
Definition mean_of_three_most_recent (l : list EarningsRow) : float64 :=
  mean (map surprise_percent (firstn 3 (most_recent_first l))).

(** The events come most recent first. *)
Fixpoint recent_first (l : list EarningsRow) : Prop :=
  match l with
  | [] => True
  | e :: r =>
      Forall (fun y => announcement_date y <= announcement_date e) r
      /\ recent_first r
  end.

(** The baseline window of the volume score: the 25 points that lie 6 to
    30 back from the end, or the whole series when it has fewer than 31
    points. *)
Definition baseline_window (volume : list float64) : list float64 :=
  if (30 <? length volume)%nat
  then firstn 25 (skipn (length volume - 30) volume)
  else volume.

(** The number of trading days of the history strictly after [anchor] and
    no later than [date]. *)
Definition trading_days_between (hist_data : Frame PriceRow)
    (anchor date : Z) : nat :=
  length (filter (fun d => in_index d hist_data)
                 (map (fun k => anchor + 1 + Z.of_nat k)
                      (seq 0 (Z.to_nat (date - anchor))))).

(** The distinct elements of a list, in the order of their first
    occurrence. *)
Fixpoint distinct (l : list Z) : list Z :=
  match l with
  | [] => []
  | x :: r => x :: filter (fun y => negb (y =? x)) (distinct r)
  end.

(** The value [rolling(window).agg().iloc[-1]] has on a non-empty column:
    what fifty_two_week_high and fifty_two_week_low are read from. *)
Definition rolling_value (agg : list float64 -> float64) (w : Z)
    (col : list float64) : float64 :=
  if (length col <? Z.to_nat w)%nat
     || negb (forallb finiteb (window_at (Z.to_nat w) (length col - 1) col))
  then NaN
  else agg (window_at (Z.to_nat w) (length col - 1) col).

End Properties.
Import Properties.

(** ** Concrete inputs *)

Module Inputs.

Definition price_columns : list string :=
  ["Date"; "High"; "Low"; "Close"; "Volume"]%string.

Definition ticks : Clock := fun n => Z.of_nat n.

Definition no_corr : list (float64 * float64) -> float64 := fun _ => NaN.

(** One trading day: high 12, low 8, close 10, volume 5. *)
Definition one_day : Frame PriceRow :=
  mkFrame price_columns [mkPrice 0 (Fin 12) (Fin 8) (Fin 10) (Fin 5)].

(** Two trading days, the close rising from 10 to 11. *)
Definition two_days : Frame PriceRow :=
  mkFrame price_columns
    [mkPrice 0 (Fin 12) (Fin 8) (Fin 10) (Fin 5);
     mkPrice 1 (Fin 13) (Fin 9) (Fin 11) (Fin 7)].

(** A day that closes at its high. *)
Definition at_high : Frame PriceRow :=
  mkFrame price_columns [mkPrice 0 (Fin 10) (Fin 8) (Fin 10) (Fin 5)].

(** Two days without any volume. *)
Definition no_volume : Frame PriceRow :=
  mkFrame price_columns
    [mkPrice 0 (Fin 12) (Fin 8) (Fin 10) (Fin 0);
     mkPrice 1 (Fin 13) (Fin 9) (Fin 11) (Fin 0)].

Definition no_prices : Frame PriceRow := mkFrame price_columns [].

(** Four events supplied oldest first; only the oldest has a surprise. *)
Definition oldest_first : Frame EarningsRow :=
  mkFrame ["announcement_date"; "ticker"; "surprise_percent"]%string
    [mkEarnings 1 (Fin 9) NaN NaN; mkEarnings 2 (Fin 0) NaN NaN;
     mkEarnings 3 (Fin 0) NaN NaN; mkEarnings 4 (Fin 0) NaN NaN].

(** The same events supplied most recent first. *)
Definition newest_first : Frame EarningsRow :=
  mkFrame ["announcement_date"; "ticker"; "surprise_percent"]%string
    [mkEarnings 4 (Fin 0) NaN NaN; mkEarnings 3 (Fin 0) NaN NaN;
     mkEarnings 2 (Fin 0) NaN NaN; mkEarnings 1 (Fin 9) NaN NaN].

(** One event with its 1-day change, the 5-day column never created. *)
Definition only_1d : Frame EarningsRow :=
  mkFrame ["announcement_date"; "ticker"; "price_1d_change"]%string
    [mkEarnings 1 NaN (Fin 2) NaN].

(** Two events with both forward returns and no surprise column. *)
Definition no_surprise : Frame EarningsRow :=
  mkFrame ["announcement_date"; "ticker"; "price_1d_change";
           "price_5d_change"]%string
    [mkEarnings 1 NaN (Fin 2) (Fin 4); mkEarnings 9 NaN (Fin 4) (Fin 8)].

(** Three events with every column: one beat, one miss, one in line. *)
Definition mixed_surprises : Frame EarningsRow :=
  mkFrame ["announcement_date"; "ticker"; "surprise_percent";
           "price_1d_change"; "price_5d_change"]%string
    [mkEarnings 9 (Fin 5) (Fin 2) (Fin 4);
     mkEarnings 5 (Fin (-3)) (Fin (-1)) (Fin (-2));
     mkEarnings 1 (Fin 0) (Fin 7) (Fin 7)].

(** The provider's earnings table for announcements on days 0 and 100,
    under an index without a name. *)
Definition unaligned_dates : EarningsDates :=
  mkDates None
    (mkFrame ["EPS Estimate"; "Reported EPS"; "Surprise(%)"]%string
       [mkEarnings 0 NaN NaN NaN; mkEarnings 100 NaN NaN NaN])
    eq_refl.

(** Twenty trading days, the close rising by 1 a day from 1. *)
Definition twenty_days : Frame PriceRow :=
  mkFrame price_columns
    (map (fun k => mkPrice (Z.of_nat k)
                     (Fin (inject_Z (Z.of_nat k) + 2))
                     (Fin (inject_Z (Z.of_nat k)))
                     (Fin (inject_Z (Z.of_nat k) + 1))
                     (Fin 5))
         (seq 0 20)).

(** Six trading days that all close at 10. *)
Definition flat_week : Frame PriceRow :=
  mkFrame price_columns
    (map (fun d => mkPrice d (Fin 10) (Fin 10) (Fin 10) (Fin 5))
         [0; 1; 2; 3; 4; 7]).

(** Twelve tickers: one full batch and a batch of two. *)
Definition tickers_12 : list string :=
  ["A"; "B"; "C"; "D"; "E"; "F"; "G"; "H"; "I"; "J"; "K"; "L"]%string.

Definition day (date : Z) (close : Q) : PriceRow :=
  mkPrice date (Fin close) (Fin close) (Fin close) (Fin 1).

(** The first trading day comes four days after day 0. *)
Definition late_open : list PriceRow := [day 4 100; day 5 110].

(** Trading stops for nine days after day 0. *)
Definition halted : list PriceRow := [day 0 100; day 10 110].

End Inputs.
Import Inputs.

(** * Properties *)

(** ** Reading frames and lists *)

Lemma iloc_in_range {A : Type} (i : Z) (l : list A) :
  - Z.of_nat (length l) <= i < Z.of_nat (length l) ->
  exists x, iloc i l = Some x.
Proof.
  intros Hi. unfold iloc.
  set (n := Z.of_nat (length l)) in *.
  set (j := if i <? 0 then i + n else i).
  assert (Hj : 0 <= j < n) by (unfold j; destruct (Z.ltb_spec i 0); lia).
  destruct (Z.ltb_spec j 0); [lia |].
  destruct (Z.leb_spec n j); [lia |]. simpl.
  destruct (nth_error l (Z.to_nat j)) eqn:E; [eauto |].
  apply nth_error_None in E. unfold n in Hj. lia.
Qed.

Lemma iloc_last_nonempty {A : Type} (l : list A) :
  l <> [] -> exists x, iloc (-1) l = Some x.
Proof.
  intros Hl. apply iloc_in_range.
  destruct l; [congruence | simpl length; lia].
Qed.

Lemma getitem_has {R : Type} name (field : R -> float64) df :
  has_col name df = true -> getitem name field df = Some (map field (rows df)).
Proof. unfold getitem. intros ->. reflexivity. Qed.

Lemma has_col_columns {R : Type} name (df : Frame R) :
  has_col name df = true -> columns df <> [].
Proof. unfold has_col. destruct (columns df); [discriminate | congruence]. Qed.

Lemma empty_false {R : Type} name (df : Frame R) :
  rows df <> [] -> has_col name df = true -> empty df = false.
Proof.
  intros Hr Hc. apply has_col_columns in Hc. unfold empty.
  destruct (rows df); [congruence |]. destruct (columns df); congruence.
Qed.

Lemma empty_no_rows {R : Type} (df : Frame R) :
  rows df = [] -> empty df = true.
Proof. unfold empty. intros ->. reflexivity. Qed.

Lemma empty_columns {R : Type} (df : Frame R) :
  empty df = false -> columns df <> [].
Proof.
  unfold empty. destruct (rows df); [discriminate |].
  destruct (columns df); discriminate.
Qed.

Lemma empty_rows {R : Type} (df : Frame R) :
  empty df = false -> rows df <> [].
Proof. unfold empty. destruct (rows df); [discriminate | discriminate]. Qed.

(** ** The trend score *)

Lemma trend_scores_combined df e p v er c d :
  trend_scores df e = Some (p, v, er, c, d) -> c = combine p v er.
Proof.
  unfold trend_scores.
  destruct (iloc (-1) (rows df)); [| discriminate].
  destruct (getitem "Close" Close df); [| discriminate].
  destruct (period_returns _ _ _); [| discriminate].
  destruct (weighted_returns _ _); [| discriminate].
  destruct (getitem "Volume" Volume df); [| discriminate].
  destruct (volume_trend _ _) as [vol divisors].
  intros H. inversion H. reflexivity.
Qed.

Lemma calculate_trend_score_some clock h e t s r :
  fst (calculate_trend_score clock h e t s) = Some r ->
  exists df p v er c d,
    h = Some df /\ empty df = false /\
    trend_scores df e = Some (p, v, er, c, d) /\
    r = mkTrend t (clock s) p v er c.
Proof.
  unfold calculate_trend_score.
  destruct h as [df |]; [| discriminate].
  destruct (empty df) eqn:He; [discriminate |].
  destruct (trend_scores df e) as [[[[[p v] er] c] d] |] eqn:Ht;
    [| discriminate].
  simpl. intros H. inversion H.
  exists df, p, v, er, c, d. repeat split; reflexivity || assumption.
Qed.

Lemma period_return_total close latest days :
  0 <= days -> exists r, period_return close latest days = Some r.
Proof.
  intros Hd. unfold period_return.
  destruct (Z.gtb_spec (Z.of_nat (length close)) days) as [Hn | Hn];
    [| eauto].
  destruct (Z.ltb_spec days (Z.of_nat (length close))); [| lia].
  destruct (iloc_in_range (- days - 1) close) as [x ->]; [lia |].
  eauto.
Qed.

Lemma weighted_returns_total close latest :
  exists rs ws,
    period_returns close latest periods = Some rs /\
    weighted_returns rs weights = Some ws.
Proof.
  unfold periods. simpl.
  destruct (period_return_total close latest 1) as [r1 ->]; [lia |].
  destruct (period_return_total close latest 5) as [r2 ->]; [lia |].
  destruct (period_return_total close latest 20) as [r3 ->]; [lia |].
  destruct (period_return_total close latest 60) as [r4 ->]; [lia |].
  eexists. eexists. split; reflexivity.
Qed.

(** On a non-empty history with its Close and Volume columns the scores are
    always computed. *)
Lemma trend_scores_total df e :
  rows df <> [] ->
  has_col "Close" df = true -> has_col "Volume" df = true ->
  exists p c,
    trend_scores df e =
      Some (p,
            fst (volume_trend (recent_volume (map Volume (rows df)))
                              (baseline_volume (map Volume (rows df)))),
            earnings_trend e, c,
            snd (volume_trend (recent_volume (map Volume (rows df)))
                              (baseline_volume (map Volume (rows df))))).
Proof.
  intros Hne Hc Hv. unfold trend_scores.
  destruct (iloc_last_nonempty (rows df) Hne) as [latest ->].
  rewrite (getitem_has _ _ _ Hc), (getitem_has _ _ _ Hv).
  destruct (weighted_returns_total (map Close (rows df)) (Close latest))
    as (rs & ws & -> & ->).
  destruct (volume_trend _ _) as [vol divisors]. simpl. eauto.
Qed.

Lemma fgt_zero_false b : feq b (Fin 0) -> fgt b (Fin 0) = false.
Proof.
  destruct b as [q | | |]; simpl; try contradiction.
  intros Hq. unfold fgt, flt.
  destruct (Qcompare_spec 0 q) as [H | H | H]; try reflexivity.
  rewrite Hq in H. exfalso. apply (Qlt_irrefl 0). exact H.
Qed.

(** For more than 30 points the baseline window [iloc[-30:-5]] holds the 25
    points that lie 6 to 30 back from the end. *)
Lemma baseline_window_points {A : Type} (l : list A) :
  (30 < length l)%nat ->
  slice (-30) (-5) l = firstn 25 (skipn (length l - 30) l).
Proof.
  intros Hl.
  assert (Ha : Z.to_nat (clip (Z.of_nat (length l)) (-30))
               = (length l - 30)%nat)
    by (unfold clip; change (-30 <? 0) with true; cbv iota; lia).
  assert (Hb : Z.to_nat (clip (Z.of_nat (length l)) (-5)
                         - clip (Z.of_nat (length l)) (-30)) = 25%nat)
    by (unfold clip; change (-30 <? 0) with true; change (-5 <? 0) with true;
        cbv iota; lia).
  cbv beta delta [slice] zeta. rewrite Ha, Hb. reflexivity.
Qed.

Lemma baseline_volume_window volume :
  baseline_volume volume = mean (baseline_window volume).
Proof.
  unfold baseline_volume, baseline_window.
  destruct (Nat.ltb_spec 30 (length volume)) as [H | H].
  - destruct (Z.gtb_spec (Z.of_nat (length volume)) 30); [| lia].
    rewrite baseline_window_points by assumption. reflexivity.
  - destruct (Z.gtb_spec (Z.of_nat (length volume)) 30); [lia |].
    reflexivity.
Qed.

(** C10: on a non-empty price series whose volume baseline window (points
    6..30 back, or the whole series if it has fewer than 31 points) has a
    zero mean, calculate_trend_score returns volume_trend_score = 0 and
    runs its volume division on no divisor at all. *)
Theorem zero_baseline_volume_scores_zero clock df e t s :
  rows df <> [] ->
  has_col "Close" df = true -> has_col "Volume" df = true ->
  feq (mean (baseline_window (map Volume (rows df)))) (Fin 0) ->
  (exists r, fst (calculate_trend_score clock (Some df) e t s) = Some r /\
             volume_trend_score r = Fin 0) /\
  volume_divisors (Some df) e = [].
Proof.
  intros Hne Hc Hv Hz. rewrite <- baseline_volume_window in Hz.
  destruct (trend_scores_total df e Hne Hc Hv) as (p & c & Ht).
  unfold calculate_trend_score, volume_divisors.
  rewrite (empty_false _ df Hne Hc), Ht.
  unfold volume_trend. rewrite (fgt_zero_false _ Hz). simpl.
  split; [eexists; split; reflexivity | reflexivity].
Qed.

Lemma zero_baseline_volume_scores_zero_witness :
  (exists r,
     fst (calculate_trend_score ticks (Some no_volume) None "X"%string 0%nat)
     = Some r
     /\ volume_trend_score r = Fin 0) /\
  volume_divisors (Some no_volume) None = [].
Proof.
  apply (zero_baseline_volume_scores_zero ticks no_volume None "X"%string
           0%nat).
  - discriminate.
  - reflexivity.
  - reflexivity.
  - vm_compute. reflexivity.
Defined.

(** X13: Whatever the input, the volume division never runs on a zero
    divisor. *)
Lemma volume_divisors_nonzero h e :
  Forall (fun d => ~ feq d (Fin 0)) (volume_divisors h e).
Proof.
  unfold volume_divisors.
  destruct h as [df |]; [| constructor].
  destruct (empty df); [constructor |].
  unfold trend_scores.
  destruct (iloc (-1) (rows df)); [| constructor].
  destruct (getitem "Close" Close df); [| constructor].
  destruct (period_returns _ _ _); [| constructor].
  destruct (weighted_returns _ _); [| constructor].
  destruct (getitem "Volume" Volume df); [| constructor].
  unfold volume_trend.
  destruct (fgt (baseline_volume l2) (Fin 0)) eqn:G; simpl; [| constructor].
  constructor; [| constructor].
  intros Hz. rewrite (fgt_zero_false _ Hz) in G. discriminate.
Qed.


(** C6: whenever calculate_trend_score returns a result, its combined_score
    is 0.5 x price_trend_score + 0.3 x volume_trend_score + 0.2 x
    earnings_trend_score, for the three sub-scores of the same result. *)
Theorem combined_score_is_weighted_sum clock h e t s r :
  fst (calculate_trend_score clock h e t s) = Some r ->
  combined_score r =
    fadd (fadd (fmul (Fin (5 # 10)) (price_trend_score r))
               (fmul (Fin (3 # 10)) (volume_trend_score r)))
         (fmul (Fin (2 # 10)) (earnings_trend_score r)).
Proof.
  intros H.
  destruct (calculate_trend_score_some _ _ _ _ _ _ H)
    as (df & p & v & er & c & d & _ & _ & Ht & ->).
  simpl. apply (trend_scores_combined _ _ _ _ _ _ _ Ht).
Qed.

Lemma combined_score_is_weighted_sum_witness :
  exists r,
    fst (calculate_trend_score ticks (Some two_days) None "X"%string 0%nat)
    = Some r /\
    combined_score r =
    fadd (fadd (fmul (Fin (5 # 10)) (price_trend_score r))
               (fmul (Fin (3 # 10)) (volume_trend_score r)))
         (fmul (Fin (2 # 10)) (earnings_trend_score r)).
Proof.
  eexists. split; [reflexivity |].
  apply (combined_score_is_weighted_sum ticks (Some two_days) None
           "X"%string 0%nat).
  reflexivity.
Defined.

(** ** The clock *)

Lemma support_resistance_undated clock1 clock2 s1 s2 df ticker window n :
  option_map undated_sr
    (fst (calculate_support_resistance clock1 df ticker window n s1)) =
  option_map undated_sr
    (fst (calculate_support_resistance clock2 df ticker window n s2)).
Proof.
  unfold calculate_support_resistance.
  destruct (support_resistance_levels df window n)
    as [[[[[high low] ma_df] res] sup] |]; reflexivity.
Qed.

Lemma trend_score_undated clock1 clock2 s1 s2 h e ticker :
  option_map undated_ts (fst (calculate_trend_score clock1 h e ticker s1)) =
  option_map undated_ts (fst (calculate_trend_score clock2 h e ticker s2)).
Proof.
  unfold calculate_trend_score.
  destruct h as [df |]; [| reflexivity].
  destruct (empty df); [reflexivity |].
  destruct (trend_scores df e) as [[[[[p v] er] c] d] |]; reflexivity.
Qed.

(** C1, amended: two calls of calculate_support_resistance, of
    calculate_trend_score or of analyze_stock on identical inputs agree on
    every field of their results but the [date] stamp, whatever the clock
    reads at either call. *)
Theorem outputs_agree_up_to_date corr clock1 clock2 s1 s2
    df ticker window num_levels h e :
  option_map undated_sr
    (fst (calculate_support_resistance clock1 df ticker window num_levels s1))
  = option_map undated_sr
    (fst (calculate_support_resistance clock2 df ticker window num_levels s2))
  /\ option_map undated_ts (fst (calculate_trend_score clock1 h e ticker s1))
     = option_map undated_ts (fst (calculate_trend_score clock2 h e ticker s2))
  /\ option_map undated_bundle (fst (analyze_stock corr clock1 ticker h e s1))
     = option_map undated_bundle
         (fst (analyze_stock corr clock2 ticker h e s2)).
Proof.
  split; [apply support_resistance_undated |].
  split; [apply trend_score_undated |].
  unfold analyze_stock.
  destruct h as [hist |]; [| reflexivity].
  destruct (empty hist); [reflexivity |].
  pose proof (support_resistance_undated clock1 clock2 s1 s2 hist ticker 252 2)
    as Hsr.
  destruct (calculate_support_resistance clock1 hist ticker 252 2 s1)
    as [sr1 t1].
  destruct (calculate_support_resistance clock2 hist ticker 252 2 s2)
    as [sr2 t2].
  pose proof (trend_score_undated clock1 clock2 t1 t2 (Some hist) e ticker)
    as Hts.
  destruct (calculate_trend_score clock1 (Some hist) e ticker t1)
    as [ts1 u1].
  destruct (calculate_trend_score clock2 (Some hist) e ticker t2)
    as [ts2 u2].
  simpl in *. unfold undated_bundle. simpl.
  rewrite Hsr, Hts. reflexivity.
Qed.

(** C1 as stated fails: a second call of calculate_trend_score on the same
    arguments, made after the first one read the clock, returns another
    result. *)
Lemma second_call_differs :
  fst (calculate_trend_score ticks (Some two_days) None "X"%string 0%nat) <>
  fst (calculate_trend_score ticks (Some two_days) None "X"%string
         (snd (calculate_trend_score ticks (Some two_days) None "X"%string
                 0%nat))).
Proof. vm_compute. intros H. discriminate H. Qed.

(** ** Empty series and partial bundles *)

Lemma support_resistance_empty clock cols ticker window n s :
  fst (calculate_support_resistance clock (mkFrame cols []) ticker window n s)
  = None.
Proof.
  unfold calculate_support_resistance, support_resistance_levels, getitem,
    rolling.
  simpl rows.
  destruct (has_col "High" _); [| reflexivity].
  destruct (window <? 0); reflexivity.
Qed.

Lemma earnings_guard_redundant corr h e ticker :
  match e with
  | Some ef =>
      if negb (empty ef)
      then analyze_price_action_after_earnings corr h e ticker
      else None
  | None => None
  end = analyze_price_action_after_earnings corr h e ticker.
Proof.
  destruct e as [ef |]; [| reflexivity].
  unfold analyze_price_action_after_earnings.
  destruct (empty ef); reflexivity.
Qed.

Lemma empty_no_columns {R : Type} (rws : list R) :
  empty (mkFrame [] rws) = true.
Proof. unfold empty. simpl. destruct rws; reflexivity. Qed.

(** C2, amended: a price series is empty when it has no row or no column;
    on an empty price series calculate_support_resistance and
    calculate_trend_score return None and analyze_stock returns None as a
    whole; on a series with a row and a column analyze_stock always returns
    a bundle, and each sub-result of the bundle is what its component
    returned, None included. *)
Theorem empty_series_and_carried_results corr clock ticker e
    window num_levels s :
  (forall cols,
     fst (calculate_support_resistance clock (mkFrame cols []) ticker window
            num_levels s) = None
     /\ fst (calculate_trend_score clock (Some (mkFrame cols [])) e ticker s)
        = None
     /\ fst (analyze_stock corr clock ticker (Some (mkFrame cols [])) e s)
        = None)
  /\ (forall rws,
        fst (calculate_support_resistance clock (mkFrame [] rws) ticker window
               num_levels s) = None
        /\ fst (calculate_trend_score clock (Some (mkFrame [] rws)) e ticker s)
           = None
        /\ fst (analyze_stock corr clock ticker (Some (mkFrame [] rws)) e s)
           = None)
  /\ forall col cols r rs,
       let df := mkFrame (col :: cols) (r :: rs) in
       let sr := calculate_support_resistance clock df ticker 252 2 s in
       let ts := calculate_trend_score clock (Some df) e ticker (snd sr) in
       fst (analyze_stock corr clock ticker (Some df) e s) =
       Some (mkBundle ticker (fst sr) (fst ts)
               (analyze_price_action_after_earnings corr (Some df) e ticker)).
Proof.
  split; [| split].
  - intros cols. split; [apply support_resistance_empty |].
    split; reflexivity.
  - intros rws. split; [reflexivity |].
    unfold calculate_trend_score, analyze_stock.
    rewrite empty_no_columns. split; reflexivity.
  - intros col cols r rs df sr ts. unfold analyze_stock.
    change (empty df) with false. cbv iota.
    fold sr. destruct sr as [sr1 s1] eqn:Esr.
    change (snd (sr1, s1)) with s1 in ts.
    fold ts. destruct ts as [ts1 s2] eqn:Ets.
    rewrite earnings_guard_redundant. reflexivity.
Qed.

(** A bundle that carries an absent sub-result: the earnings list lacks the
    5-day column, so earnings_analysis is None next to the two other
    results. *)
Example bundle_with_absent_earnings_analysis :
  exists b sr ts,
    fst (analyze_stock no_corr ticks "X"%string (Some two_days)
           (Some only_1d) 0%nat) = Some b
    /\ support_resistance b = Some sr
    /\ trend_scores_of b = Some ts
    /\ earnings_analysis b = None.
Proof. do 3 eexists. repeat split; reflexivity. Qed.

(** C2 as stated fails: for the empty series analyze_stock returns no
    bundle at all. *)
Lemma no_bundle_for_empty_series :
  ~ (exists b,
       fst (analyze_stock no_corr ticks "X"%string (Some no_prices) None 0%nat)
       = Some b
       /\ support_resistance b = None
       /\ trend_scores_of b = None
       /\ earnings_analysis b = None).
Proof. intros (b & H & _). vm_compute in H. discriminate H. Qed.

(** ** Rolling windows *)

Lemma iloc_last_map_seq {A : Type} (f : nat -> A) (n : nat) :
  iloc (-1) (map f (seq 0 (S n))) = Some (f n).
Proof.
  unfold iloc. rewrite length_map, length_seq.
  change (-1 <? 0) with true. cbv iota.
  destruct (Z.ltb_spec (-1 + Z.of_nat (S n)) 0); [lia |].
  destruct (Z.leb_spec (Z.of_nat (S n)) (-1 + Z.of_nat (S n))); [lia |].
  simpl orb. cbv iota.
  replace (Z.to_nat (-1 + Z.of_nat (S n))) with n by lia.
  rewrite nth_error_map, nth_error_nth' with (d := O)
    by (rewrite length_seq; lia).
  rewrite seq_nth by lia. reflexivity.
Qed.

Lemma window_at_last (k : nat) (col : list float64) :
  (k <= length col)%nat ->
  window_at k (length col - 1) col = trailing k col.
Proof.
  intros Hk. unfold window_at, trailing.
  destruct col as [| x col].
  - simpl length in *. assert (k = O) as -> by lia. reflexivity.
  - replace (S (length (x :: col) - 1) - k)%nat
      with (length (x :: col) - k)%nat by (simpl length; lia).
    apply firstn_all2. rewrite length_skipn. lia.
Qed.

(** The value [rolling(window).agg().iloc[-1]] reads. *)
Lemma rolling_last agg (w : Z) (col : list float64) :
  0 <= w -> col <> [] ->
  exists l,
    rolling agg w col = Some l /\
    iloc (-1) l =
      Some (if (length col <? Z.to_nat w)%nat
               || negb (forallb finiteb
                          (window_at (Z.to_nat w) (length col - 1) col))
            then NaN
            else agg (window_at (Z.to_nat w) (length col - 1) col)).
Proof.
  intros Hw Hc. unfold rolling.
  destruct (Z.ltb_spec w 0); [lia |].
  eexists. split; [reflexivity |].
  destruct col as [| x col]; [congruence |].
  simpl length. rewrite iloc_last_map_seq.
  replace (S (length col) - 1)%nat with (length col) by lia.
  reflexivity.
Qed.

(** ** Order on values *)

Lemma fle_refl x : isnan x = false -> fle x x.
Proof. destruct x; simpl; intros; try discriminate; auto. apply Qle_refl. Qed.

Lemma fle_trans x y z : fle x y -> fle y z -> fle x z.
Proof.
  destruct x, y, z; simpl; intros; try contradiction; auto.
  eapply Qle_trans; eassumption.
Qed.

Lemma flt_fle x y : flt x y = true -> fle x y.
Proof.
  destruct x as [a | | |], y as [b | | |]; simpl; intros H;
    try discriminate; auto.
  destruct (Qcompare_spec a b); try discriminate.
  apply Qlt_le_weak. assumption.
Qed.

Lemma not_flt_fle x y :
  isnan x = false -> isnan y = false -> flt x y = false -> fle y x.
Proof.
  destruct x as [a | | |], y as [b | | |]; simpl; intros Hx Hy H;
    try discriminate; auto.
  destruct (Qcompare_spec a b) as [E | L | G]; try discriminate.
  - rewrite E. apply Qle_refl.
  - apply Qlt_le_weak. assumption.
Qed.

Lemma fmax_cases x y : fmax x y = x \/ fmax x y = y.
Proof. unfold fmax. destruct (flt x y); auto. Qed.

Lemma fmin_cases x y : fmin x y = x \/ fmin x y = y.
Proof. unfold fmin. destruct (flt y x); auto. Qed.

Lemma fmax_notnan x y :
  isnan x = false -> isnan y = false -> isnan (fmax x y) = false.
Proof. intros. destruct (fmax_cases x y) as [-> | ->]; assumption. Qed.

Lemma fmin_notnan x y :
  isnan x = false -> isnan y = false -> isnan (fmin x y) = false.
Proof. intros. destruct (fmin_cases x y) as [-> | ->]; assumption. Qed.

Lemma fmax_upper x y :
  isnan x = false -> isnan y = false ->
  fle x (fmax x y) /\ fle y (fmax x y).
Proof.
  intros Hx Hy. unfold fmax. destruct (flt x y) eqn:E.
  - split; [apply flt_fle; assumption | apply fle_refl; assumption].
  - split; [apply fle_refl; assumption | apply not_flt_fle; assumption].
Qed.

Lemma fmin_lower x y :
  isnan x = false -> isnan y = false ->
  fle (fmin x y) x /\ fle (fmin x y) y.
Proof.
  intros Hx Hy. unfold fmin. destruct (flt y x) eqn:E.
  - split; [apply flt_fle; assumption | apply fle_refl; assumption].
  - split; [apply fle_refl; assumption | apply not_flt_fle; assumption].
Qed.

Lemma finite_no_nan l : forallb finiteb l = true -> existsb isnan l = false.
Proof.
  induction l as [| x l IH]; simpl; [reflexivity |].
  intros H. apply andb_true_iff in H. destruct H as [Hx Hl].
  rewrite (IH Hl). destruct x; simpl in *; congruence.
Qed.

Lemma no_nan_Forall l :
  existsb isnan l = false <-> Forall (fun x => isnan x = false) l.
Proof.
  induction l as [| x l IH]; simpl.
  - split; auto.
  - rewrite orb_false_iff, IH. split.
    + intros [? ?]. constructor; assumption.
    + intros H. inversion H. auto.
Qed.

Lemma fold_fmax_greatest r : forall x,
  isnan x = false -> Forall (fun y => isnan y = false) r ->
  isnan (fold_left fmax r x) = false
  /\ In (fold_left fmax r x) (x :: r)
  /\ Forall (fun y => fle y (fold_left fmax r x)) (x :: r).
Proof.
  induction r as [| y r IH]; intros x Hx Hr; simpl fold_left.
  - split; [assumption |]. split; [left; reflexivity |].
    constructor; [apply fle_refl; assumption | constructor].
  - inversion Hr as [| ? ? Hy Hr']; subst.
    destruct (IH (fmax x y) (fmax_notnan x y Hx Hy) Hr') as (Hn & Hin & Hall).
    destruct (fmax_upper x y Hx Hy) as [Ux Uy].
    inversion Hall as [| ? ? Hm Hall']; subst.
    split; [assumption |]. split.
    + destruct Hin as [E | Hin]; [| right; right; assumption].
      destruct (fmax_cases x y) as [F | F]; [left | right; left];
        congruence.
    + constructor; [eapply fle_trans; eassumption |].
      constructor; [eapply fle_trans; eassumption | assumption].
Qed.

Lemma fold_fmin_least r : forall x,
  isnan x = false -> Forall (fun y => isnan y = false) r ->
  isnan (fold_left fmin r x) = false
  /\ In (fold_left fmin r x) (x :: r)
  /\ Forall (fun y => fle (fold_left fmin r x) y) (x :: r).
Proof.
  induction r as [| y r IH]; intros x Hx Hr; simpl fold_left.
  - split; [assumption |]. split; [left; reflexivity |].
    constructor; [apply fle_refl; assumption | constructor].
  - inversion Hr as [| ? ? Hy Hr']; subst.
    destruct (IH (fmin x y) (fmin_notnan x y Hx Hy) Hr') as (Hn & Hin & Hall).
    destruct (fmin_lower x y Hx Hy) as [Lx Ly].
    inversion Hall as [| ? ? Hm Hall']; subst.
    split; [assumption |]. split.
    + destruct Hin as [E | Hin]; [| right; right; assumption].
      destruct (fmin_cases x y) as [F | F]; [left | right; left];
        congruence.
    + constructor; [eapply fle_trans; eassumption |].
      constructor; [eapply fle_trans; eassumption | assumption].
Qed.

Lemma max_of_is_maximum l :
  l <> [] -> existsb isnan l = false -> is_maximum (max_of l) l.
Proof.
  intros Hl Hn. apply no_nan_Forall in Hn.
  destruct l as [| x r]; [congruence |].
  inversion Hn; subst.
  destruct (fold_fmax_greatest r x) as (_ & Hin & Hall); try assumption.
  split; assumption.
Qed.

Lemma min_of_is_minimum l :
  l <> [] -> existsb isnan l = false -> is_minimum (min_of l) l.
Proof.
  intros Hl Hn. apply no_nan_Forall in Hn.
  destruct l as [| x r]; [congruence |].
  inversion Hn; subst.
  destruct (fold_fmin_least r x) as (_ & Hin & Hall); try assumption.
  split; assumption.
Qed.

(** ** Support and resistance *)

Lemma base_calculate_moving_averages df windows :
  base (calculate_moving_averages df windows) = df.
Proof.
  unfold calculate_moving_averages.
  destruct (add_moving_averages df windows); reflexivity.
Qed.

(** What a returned result is made of. *)
Lemma calculate_support_resistance_some clock df ticker window n s r :
  fst (calculate_support_resistance clock df ticker window n s) = Some r ->
  exists latest,
    iloc (-1) (rows df) = Some latest
    /\ sr_date r = clock s
    /\ resistance r =
         sort_asc (map (resistance_level (Close latest)
                          (fifty_two_week_high r) n) (range n))
    /\ support r =
         sort_desc (map (support_level (Close latest)
                           (fifty_two_week_low r) n) (range n)).
Proof.
  unfold calculate_support_resistance.
  destruct (support_resistance_levels df window n)
    as [[[[[high low] ma_df] res] sup] |] eqn:E; [| discriminate].
  simpl. intros H. inversion H. subst r. clear H. simpl.
  unfold support_resistance_levels in E.
  rewrite base_calculate_moving_averages in E.
  destruct (getitem "High" High df); [| discriminate].
  destruct (rolling max_of window l); [| discriminate].
  destruct (iloc (-1) l0); [| discriminate].
  destruct (getitem "Low" Low df); [| discriminate].
  destruct (rolling min_of window l1); [| discriminate].
  destruct (iloc (-1) l2); [| discriminate].
  destruct (iloc (-1) (rows df)) as [latest |]; [| discriminate].
  destruct (has_col "Close" df); [| discriminate].
  inversion E. subst. exists latest. repeat split; reflexivity.
Qed.

(** On a non-empty history that carries its High, Low and Close columns a
    result is always returned. *)
Lemma calculate_support_resistance_total clock df ticker window n s :
  rows df <> [] -> 0 <= window ->
  has_col "High" df = true -> has_col "Low" df = true ->
  has_col "Close" df = true ->
  exists r,
    fst (calculate_support_resistance clock df ticker window n s) = Some r
    /\ fifty_two_week_high r = rolling_value max_of window (map High (rows df))
    /\ fifty_two_week_low r = rolling_value min_of window (map Low (rows df)).
Proof.
  intros Hne Hw Hh Hl Hc.
  unfold calculate_support_resistance, support_resistance_levels.
  rewrite base_calculate_moving_averages.
  rewrite (getitem_has _ _ _ Hh), (getitem_has _ _ _ Hl), Hc.
  assert (Hmap : forall f : PriceRow -> float64, map f (rows df) <> []).
  { intros f E. apply map_eq_nil in E. contradiction. }
  destruct (rolling_last max_of window (map High (rows df)) Hw (Hmap High))
    as (lh & -> & ->).
  destruct (rolling_last min_of window (map Low (rows df)) Hw (Hmap Low))
    as (ll & -> & ->).
  destruct (iloc_last_nonempty (rows df) Hne) as [latest ->].
  eexists. split; [reflexivity |]. split; reflexivity.
Qed.

Lemma rolling_value_short agg w col :
  Z.of_nat (length col) < w -> rolling_value agg w col = NaN.
Proof.
  intros H. unfold rolling_value.
  destruct (Nat.ltb_spec (length col) (Z.to_nat w)); [reflexivity | lia].
Qed.

Lemma rolling_value_full agg w col :
  0 <= w <= Z.of_nat (length col) ->
  forallb finiteb (trailing (Z.to_nat w) col) = true ->
  rolling_value agg w col = agg (trailing (Z.to_nat w) col).
Proof.
  intros H Hn. unfold rolling_value.
  rewrite window_at_last by lia.
  destruct (Nat.ltb_spec (length col) (Z.to_nat w)); [lia |].
  rewrite Hn. reflexivity.
Qed.

Lemma trailing_nonempty {A : Type} (k : nat) (l : list A) :
  (1 <= k <= length l)%nat -> trailing k l <> [].
Proof.
  intros H E. apply (f_equal (@length A)) in E.
  unfold trailing in E. rewrite length_skipn in E. simpl in E. lia.
Qed.

(** C3, amended: on a non-empty price series calculate_support_resistance
    returns a result; with fewer than [window] points its
    fifty_two_week_high and fifty_two_week_low are both absent (NaN); with
    at least [window] points, the last [window] highs (lows) all finite
    numbers, they are the maximum of the high column and the minimum of the
    low column over the trailing [window] points. *)
Theorem fifty_two_week_extremes clock df ticker window num_levels s :
  rows df <> [] -> 1 <= window ->
  has_col "High" df = true -> has_col "Low" df = true ->
  has_col "Close" df = true ->
  exists r,
    fst (calculate_support_resistance clock df ticker window num_levels s)
    = Some r
    /\ (len df < window ->
        fifty_two_week_high r = NaN /\ fifty_two_week_low r = NaN)
    /\ (window <= len df ->
        forallb finiteb (trailing (Z.to_nat window) (map High (rows df)))
        = true ->
        is_maximum (fifty_two_week_high r)
                   (trailing (Z.to_nat window) (map High (rows df))))
    /\ (window <= len df ->
        forallb finiteb (trailing (Z.to_nat window) (map Low (rows df)))
        = true ->
        is_minimum (fifty_two_week_low r)
                   (trailing (Z.to_nat window) (map Low (rows df)))).
Proof.
  intros Hne Hw Hh Hl Hc.
  destruct (calculate_support_resistance_total clock df ticker window
              num_levels s Hne ltac:(lia) Hh Hl Hc) as (r & Hr & Ehigh & Elow).
  exists r. split; [assumption |]. unfold len.
  split; [| split].
  - intros Hshort. rewrite Ehigh, Elow.
    split; apply rolling_value_short; rewrite length_map; assumption.
  - intros Hfull Hn. rewrite Ehigh.
    rewrite rolling_value_full by (rewrite ?length_map; auto; lia).
    apply max_of_is_maximum; [| apply finite_no_nan; assumption].
    apply trailing_nonempty. rewrite length_map. lia.
  - intros Hfull Hn. rewrite Elow.
    rewrite rolling_value_full by (rewrite ?length_map; auto; lia).
    apply min_of_is_minimum; [| apply finite_no_nan; assumption].
    apply trailing_nonempty. rewrite length_map. lia.
Qed.

Lemma fifty_two_week_extremes_witness :
  exists r,
    fst (calculate_support_resistance ticks two_days "X"%string 2 2 0%nat)
    = Some r
    /\ is_maximum (fifty_two_week_high r)
                  (trailing (Z.to_nat 2) (map High (rows two_days)))
    /\ is_minimum (fifty_two_week_low r)
                  (trailing (Z.to_nat 2) (map Low (rows two_days))).
Proof.
  destruct (fifty_two_week_extremes ticks two_days "X"%string 2 2 0%nat)
    as (r & Hr & _ & Hmax & Hmin).
  - discriminate.
  - lia.
  - reflexivity.
  - reflexivity.
  - reflexivity.
  - exists r. split; [exact Hr |].
    split; [apply Hmax | apply Hmin];
      first [reflexivity | vm_compute; discriminate].
Defined.

(** C3 as stated fails: one point under the default window of 252 gives an
    absent fifty_two_week_high, not the maximum of the high column. *)
Lemma short_series_has_no_extremes :
  ~ (exists r,
       fst (calculate_support_resistance ticks one_day "X"%string 252 2 0%nat)
       = Some r
       /\ is_maximum (fifty_two_week_high r) (map High (rows one_day))
       /\ is_minimum (fifty_two_week_low r) (map Low (rows one_day))).
Proof.
  intros (r & H & [Hin _] & _).
  vm_compute in H. inversion H. subst r. simpl in Hin.
  destruct Hin as [E | []]. discriminate E.
Qed.

(** ** Sorting *)

Section SortBy.

Variable before : float64 -> float64 -> bool.
Variable le : float64 -> float64 -> Prop.
Variable good : float64 -> Prop.

Hypothesis before_le : forall x y, before x y = true -> le x y.
Hypothesis not_before_le :
  forall x y, good x -> good y -> before x y = false -> le y x.
Hypothesis le_trans : forall x y z, le x y -> le y z -> le x z.

Lemma insert_by_Forall (P : float64 -> Prop) x l :
  Forall P (insert_by before x l) <-> P x /\ Forall P l.
Proof.
  induction l as [| y r IH]; simpl.
  - split; [intros H; inversion H; auto | intros [? ?]; auto].
  - destruct (before y x).
    + split.
      * intros H. inversion H as [| ? ? Hy Hr]; subst.
        apply IH in Hr. destruct Hr. auto.
      * intros [Hx H]. inversion H; subst.
        constructor; [assumption | apply IH; auto].
    + split; [intros H; inversion H; auto | intros [? ?]; auto].
Qed.

Lemma sort_by_Forall (P : float64 -> Prop) l :
  Forall P (sort_by before l) <-> Forall P l.
Proof.
  induction l as [| x l IH]; simpl; [tauto |].
  fold (sort_by before l). rewrite insert_by_Forall, IH.
  split; [intros [? ?]; auto | intros H; inversion H; auto].
Qed.

Lemma insert_by_length x l :
  length (insert_by before x l) = S (length l).
Proof.
  induction l as [| y r IH]; simpl; [reflexivity |].
  destruct (before y x); simpl; [rewrite IH |]; reflexivity.
Qed.

Lemma sort_by_length l : length (sort_by before l) = length l.
Proof.
  induction l as [| x l IH]; simpl; [reflexivity |].
  fold (sort_by before l). rewrite insert_by_length, IH. reflexivity.
Qed.

Lemma insert_by_sorted x l :
  good x -> Forall good l -> StronglySorted le l ->
  StronglySorted le (insert_by before x l).
Proof.
  intros Hx. induction l as [| y r IH]; intros Hg Hs; simpl.
  - constructor; constructor.
  - inversion Hg as [| ? ? Hy Hr]; subst.
    inversion Hs as [| ? ? Hsr Hall]; subst.
    destruct (before y x) eqn:E.
    + constructor; [apply IH; assumption |].
      apply insert_by_Forall. split; [apply before_le; assumption |].
      assumption.
    + assert (Hxy : le x y) by (apply not_before_le; assumption).
      constructor; [assumption |].
      constructor; [assumption |].
      eapply Forall_impl; [| exact Hall].
      intros z Hz. eapply le_trans; eassumption.
Qed.

Lemma sort_by_sorted l :
  Forall good l -> StronglySorted le (sort_by before l).
Proof.
  induction l as [| x l IH]; intros Hg; simpl; [constructor |].
  inversion Hg; subst. fold (sort_by before l).
  apply insert_by_sorted; [assumption | | apply IH; assumption].
  apply sort_by_Forall. assumption.
Qed.

End SortBy.

Lemma sorted_nth_error {A : Type} (R : A -> A -> Prop) l :
  StronglySorted R l ->
  forall i j x y, (i < j)%nat -> nth_error l i = Some x ->
                  nth_error l j = Some y -> R x y.
Proof.
  induction 1 as [| a l Hs IH Hall]; intros i j x y Hij Hi Hj.
  - destruct i; discriminate.
  - destruct j as [| j]; [lia |]. simpl in Hj.
    destruct i as [| i]; simpl in Hi.
    + inversion Hi; subst.
      apply nth_error_In in Hj.
      rewrite Forall_forall in Hall. auto.
    + apply (IH i j); [lia | assumption | assumption].
Qed.

Lemma sort_asc_ascending l :
  Forall (fun x => isnan x = false) l -> ascending (sort_asc l).
Proof.
  intros Hl. unfold ascending.
  apply (sorted_nth_error fle).
  apply (sort_by_sorted flt fle (fun x => isnan x = false)).
  - apply flt_fle.
  - intros x y Hx Hy. apply not_flt_fle; assumption.
  - apply fle_trans.
  - assumption.
Qed.

Lemma sort_desc_descending l :
  Forall (fun x => isnan x = false) l -> descending (sort_desc l).
Proof.
  intros Hl. unfold descending. intros i j x y.
  apply (sorted_nth_error (fun a b => fle b a)).
  apply (sort_by_sorted fgt (fun a b => fle b a) (fun x => isnan x = false)).
  - intros a b. unfold fgt. apply flt_fle.
  - intros a b Ha Hb. unfold fgt. apply not_flt_fle; assumption.
  - intros a b c Hab Hbc. eapply fle_trans; eassumption.
  - assumption.
Qed.

(** ** The levels *)

Lemma In_range i n : In i (range n) -> 0 <= i < n.
Proof.
  unfold range. rewrite in_map_iff. intros (k & <- & Hk).
  apply in_seq in Hk. lia.
Qed.

Lemma length_range n : length (range n) = Z.to_nat n.
Proof. unfold range. rewrite length_map, length_seq. reflexivity. Qed.

Lemma fraction_bounds (i n : Z) :
  0 <= i < n ->
  (0 < inject_Z (i + 1) / inject_Z (n + 1)
   /\ inject_Z (i + 1) / inject_Z (n + 1) < 1)%Q.
Proof.
  intros H.
  assert (Hb : (0 < inject_Z (n + 1))%Q)
    by (change 0%Q with (inject_Z 0); rewrite <- Zlt_Qlt; lia).
  assert (Ha : (0 < inject_Z (i + 1))%Q)
    by (change 0%Q with (inject_Z 0); rewrite <- Zlt_Qlt; lia).
  assert (Hab : (inject_Z (i + 1) < inject_Z (n + 1))%Q)
    by (rewrite <- Zlt_Qlt; lia).
  split.
  - apply Qlt_shift_div_l; [assumption |]. rewrite Qmult_0_l. assumption.
  - apply Qlt_shift_div_r; [assumption |]. rewrite Qmult_1_l. assumption.
Qed.

Lemma resistance_level_finite c h n i :
  resistance_level (Fin c) (Fin h) n i =
  Fin (c + inject_Z (i + 1) / inject_Z (n + 1) * (h + - c))%Q.
Proof. reflexivity. Qed.

Lemma support_level_finite c l n i :
  support_level (Fin c) (Fin l) n i =
  Fin (c + - (inject_Z (i + 1) / inject_Z (n + 1) * (c + - l)))%Q.
Proof. reflexivity. Qed.

Lemma interpolation_between (f lo hi : Q) :
  (0 < f)%Q -> (f < 1)%Q -> (lo <= hi)%Q ->
  (lo <= lo + f * (hi + - lo) /\ lo + f * (hi + - lo) <= hi)%Q.
Proof. intros. split; nra. Qed.

Lemma interpolation_below (f lo hi : Q) :
  (0 < f)%Q -> (f < 1)%Q -> (lo <= hi)%Q ->
  (lo <= hi + - (f * (hi + - lo)) /\ hi + - (f * (hi + - lo)) <= hi)%Q.
Proof. intros. split; nra. Qed.

Lemma finite_notnan l :
  Forall is_finite l -> Forall (fun x => isnan x = false) l.
Proof.
  apply Forall_impl. intros [q | | |]; simpl; intros H;
    reflexivity || contradiction.
Qed.

Lemma resistance_levels_finite c h n :
  Forall is_finite (map (resistance_level (Fin c) (Fin h) n) (range n)).
Proof. apply Forall_map, Forall_forall. intros i _. exact I. Qed.

Lemma support_levels_finite c l n :
  Forall is_finite (map (support_level (Fin c) (Fin l) n) (range n)).
Proof. apply Forall_map, Forall_forall. intros i _. exact I. Qed.

Lemma resistance_levels_between c h n :
  (c <= h)%Q ->
  Forall (between c h)
         (map (resistance_level (Fin c) (Fin h) n) (range n)).
Proof.
  intros Hch. apply Forall_map, Forall_forall. intros i Hi.
  apply In_range in Hi. rewrite resistance_level_finite.
  destruct (fraction_bounds i n Hi) as [H0 H1].
  apply interpolation_between; assumption.
Qed.

Lemma support_levels_between c l n :
  (l <= c)%Q ->
  Forall (between l c)
         (map (support_level (Fin c) (Fin l) n) (range n)).
Proof.
  intros Hlc. apply Forall_map, Forall_forall. intros i Hi.
  apply In_range in Hi. rewrite support_level_finite.
  destruct (fraction_bounds i n Hi) as [H0 H1].
  apply interpolation_below; assumption.
Qed.

Lemma resistance_levels_flat c h n :
  (c == h)%Q ->
  Forall (fun x => feq x (Fin c))
         (map (resistance_level (Fin c) (Fin h) n) (range n)).
Proof.
  intros Hch. apply Forall_map, Forall_forall. intros i _.
  rewrite resistance_level_finite. simpl. rewrite Hch. ring.
Qed.

Lemma support_levels_flat c l n :
  (l == c)%Q ->
  Forall (fun x => feq x (Fin c))
         (map (support_level (Fin c) (Fin l) n) (range n)).
Proof.
  intros Hlc. apply Forall_map, Forall_forall. intros i _.
  rewrite support_level_finite. simpl. rewrite Hlc. ring.
Qed.

(** C7, amended: when calculate_support_resistance returns a result whose
    current close [c] and 52-week bounds [h] and [l] are finite numbers, it
    holds [num_levels] resistance levels in ascending order and
    [num_levels] support levels in descending order; the resistance levels
    lie between [c] and [h], the bounds included, provided [c <= h], and
    the support levels between [l] and [c], the bounds included, provided
    [l <= c]; when the close sits on a bound, the levels on that side all
    equal the close. *)
Theorem levels_ordered_and_bounded clock df ticker window num_levels s r
    c h l :
  fst (calculate_support_resistance clock df ticker window num_levels s)
  = Some r ->
  option_map Close (iloc (-1) (rows df)) = Some (Fin c) ->
  fifty_two_week_high r = Fin h ->
  fifty_two_week_low r = Fin l ->
  (length (resistance r) = Z.to_nat num_levels
   /\ length (support r) = Z.to_nat num_levels)
  /\ (ascending (resistance r) /\ descending (support r))
  /\ ((c <= h)%Q -> Forall (between c h) (resistance r))
  /\ ((l <= c)%Q -> Forall (between l c) (support r))
  /\ ((c == h)%Q -> Forall (fun x => feq x (Fin c)) (resistance r))
  /\ ((l == c)%Q -> Forall (fun x => feq x (Fin c)) (support r)).
Proof.
  intros Hr Hc Hh Hl.
  destruct (calculate_support_resistance_some _ _ _ _ _ _ _ Hr)
    as (latest & Hlast & _ & Eres & Esup).
  rewrite Hlast in Hc. simpl in Hc.
  assert (Hclose : Close latest = Fin c) by congruence.
  rewrite Hclose, Hh in Eres. rewrite Hclose, Hl in Esup.
  rewrite Eres, Esup. unfold sort_asc, sort_desc.
  split; [| split; [| split; [| split; [| split]]]].
  - rewrite !sort_by_length, !length_map, length_range. split; reflexivity.
  - split.
    + apply sort_asc_ascending, finite_notnan, resistance_levels_finite.
    + apply sort_desc_descending, finite_notnan, support_levels_finite.
  - intros H. apply sort_by_Forall, resistance_levels_between. assumption.
  - intros H. apply sort_by_Forall, support_levels_between. assumption.
  - intros H. apply sort_by_Forall, resistance_levels_flat. assumption.
  - intros H. apply sort_by_Forall, support_levels_flat. assumption.
Qed.

Lemma levels_ordered_and_bounded_witness :
  exists r,
    fst (calculate_support_resistance ticks two_days "X"%string 2 3 0%nat)
    = Some r
    /\ (length (resistance r) = Z.to_nat 3
        /\ length (support r) = Z.to_nat 3)
    /\ (ascending (resistance r) /\ descending (support r))
    /\ Forall (between 11 13) (resistance r)
    /\ Forall (between 8 11) (support r).
Proof.
  eexists. split; [reflexivity |].
  destruct (levels_ordered_and_bounded ticks two_days "X"%string 2 3 0%nat
              _ 11 13 8 eq_refl eq_refl eq_refl eq_refl)
    as (Hlen & Hord & Hres & Hsup & _).
  split; [exact Hlen |]. split; [exact Hord |].
  split; [apply Hres | apply Hsup]; unfold Qle; simpl; lia.
Defined.

(** C7 as stated fails: when the last close sits on the 52-week high, the
    resistance levels equal the close instead of lying strictly above
    it. *)
Lemma levels_at_the_high_are_not_above :
  ~ (exists r h,
       fst (calculate_support_resistance ticks at_high "X"%string 1 2 0%nat)
       = Some r
       /\ fifty_two_week_high r = Fin h
       /\ Forall (strictly_between 10 h) (resistance r)).
Proof.
  intros (r & h & H & Hh & Hall).
  vm_compute in H. inversion H. subst r. clear H.
  simpl in Hh. inversion Hh. subst h. clear Hh.
  simpl in Hall. inversion Hall as [| ? ? Hhead _]; subst.
  destruct Hhead as [Hlt _].
  revert Hlt. unfold Qlt. simpl. lia.
Qed.

(** ** Earnings *)

(** C8, amended: on a non-empty earnings list,
    analyze_price_action_after_earnings never fails; when the list carries
    both forward-return columns but no surprise_percent it returns the
    short result (ticker, the two mean changes and the event count, no
    surprise statistics); when it lacks price_1d_change or price_5d_change
    it returns None, whatever else could be computed. *)
Theorem degraded_earnings_analysis corr h e ticker :
  rows e <> [] ->
  (has_col "price_1d_change" e = true ->
   has_col "price_5d_change" e = true ->
   has_col "surprise_percent" e = false ->
   analyze_price_action_after_earnings corr h (Some e) ticker =
   Some (mkEA ticker
              (mean (map price_1d_change (rows e)))
              (mean (map price_5d_change (rows e)))
              None
              (Z.of_nat (length (rows e)))))
  /\ (has_col "price_1d_change" e = false
      \/ has_col "price_5d_change" e = false ->
      analyze_price_action_after_earnings corr h (Some e) ticker = None).
Proof.
  intros Hne. unfold analyze_price_action_after_earnings. split.
  - intros H1 H5 Hs. rewrite (empty_false _ e Hne H1), H1, H5, Hs.
    reflexivity.
  - intros Hmiss. destruct (empty e); [reflexivity |].
    destruct Hmiss as [-> | ->]; [reflexivity |].
    rewrite andb_false_r. reflexivity.
Qed.

Lemma degraded_earnings_analysis_witness :
  (has_col "price_1d_change" no_surprise = true ->
   has_col "price_5d_change" no_surprise = true ->
   has_col "surprise_percent" no_surprise = false ->
   analyze_price_action_after_earnings no_corr (Some two_days)
     (Some no_surprise) "X"%string =
   Some (mkEA "X"%string
              (mean (map price_1d_change (rows no_surprise)))
              (mean (map price_5d_change (rows no_surprise)))
              None
              (Z.of_nat (length (rows no_surprise)))))
  /\ (has_col "price_1d_change" no_surprise = false
      \/ has_col "price_5d_change" no_surprise = false ->
      analyze_price_action_after_earnings no_corr (Some two_days)
        (Some no_surprise) "X"%string = None).
Proof.
  apply (degraded_earnings_analysis no_corr (Some two_days) no_surprise
           "X"%string).
  discriminate.
Defined.

(** C8 as stated fails: an earnings list with the 1-day column only has a
    computable mean 1-day change and event count, and still the result is
    wholly absent. *)
Lemma absent_although_computable :
  has_col "price_1d_change" only_1d = true
  /\ mean (map price_1d_change (rows only_1d)) = Fin (2 # 1)
  /\ ~ (exists r,
          analyze_price_action_after_earnings no_corr (Some two_days)
            (Some only_1d) "X"%string = Some r).
Proof.
  split; [reflexivity |]. split; [reflexivity |].
  intros (r & H). vm_compute in H. discriminate H.
Qed.

Lemma earnings_trend_score_of clock df e ticker s r :
  fst (calculate_trend_score clock (Some df) e ticker s) = Some r ->
  earnings_trend_score r = earnings_trend e.
Proof.
  intros H.
  destruct (calculate_trend_score_some _ _ _ _ _ _ H)
    as (df' & p & v & er & c & d & _ & _ & Ht & ->).
  simpl. unfold trend_scores in Ht.
  destruct (iloc (-1) (rows df')); [| discriminate].
  destruct (getitem "Close" Close df'); [| discriminate].
  destruct (period_returns _ _ _); [| discriminate].
  destruct (weighted_returns _ _); [| discriminate].
  destruct (getitem "Volume" Volume df'); [| discriminate].
  destruct (volume_trend _ _). inversion Ht. reflexivity.
Qed.

Lemma insert_recent_front e l :
  Forall (fun y => announcement_date y <= announcement_date e) l ->
  insert_recent e l = e :: l.
Proof.
  destruct l as [| y r]; [reflexivity |].
  intros H. inversion H; subst. simpl.
  destruct (Z.ltb_spec (announcement_date e) (announcement_date y));
    [lia | reflexivity].
Qed.

Lemma most_recent_first_fixed l :
  recent_first l -> most_recent_first l = l.
Proof.
  induction l as [| e l IH]; [reflexivity |].
  intros [Hall Hrest]. simpl. fold (most_recent_first l).
  rewrite IH by assumption. apply insert_recent_front. assumption.
Qed.

Lemma empty_head {R : Type} (n : nat) (df : Frame R) :
  empty df = false -> empty (head (S n) df) = false.
Proof.
  unfold empty, head. simpl.
  destruct (rows df); [discriminate |]. simpl. auto.
Qed.

(** The earnings score is read from the first 3 rows of the earnings data
    as they are supplied. *)
Lemma earnings_trend_first_rows e :
  earnings_trend e =
  match e with
  | Some ef =>
      if negb (empty ef) && has_col "surprise_percent" ef
      then mean (map surprise_percent (firstn 3 (rows ef)))
      else Fin 0
  | None => Fin 0
  end.
Proof.
  unfold earnings_trend. destruct e as [ef |]; [| reflexivity].
  destruct (negb (empty ef) && has_col "surprise_percent" ef) eqn:G;
    [| reflexivity].
  apply andb_true_iff in G. destruct G as [Hne _].
  apply negb_true_iff in Hne.
  rewrite (empty_head 2 ef Hne). reflexivity.
Qed.

(** What the code computes on every input: the mean of surprise_percent
    over the first 3 rows supplied, which is the mean over the 3 most
    recent events when the events come most recent first. *)
Lemma earnings_score_from_first_rows clock df e ticker s r :
  fst (calculate_trend_score clock (Some df) e ticker s) = Some r ->
  earnings_trend_score r =
    match e with
    | Some ef =>
        if negb (empty ef) && has_col "surprise_percent" ef
        then mean (map surprise_percent (firstn 3 (rows ef)))
        else Fin 0
    | None => Fin 0
    end
  /\ (forall ef,
        e = Some ef -> rows ef <> [] ->
        has_col "surprise_percent" ef = true ->
        recent_first (rows ef) ->
        earnings_trend_score r = mean_of_three_most_recent (rows ef)).
Proof.
  intros H. rewrite (earnings_trend_score_of _ _ _ _ _ _ H).
  split; [apply earnings_trend_first_rows |].
  intros ef -> Hne Hcol Hsorted. rewrite earnings_trend_first_rows.
  rewrite (empty_false _ ef Hne Hcol), Hcol. simpl.
  unfold mean_of_three_most_recent.
  rewrite most_recent_first_fixed by assumption. reflexivity.
Qed.

(** C9, on the failing input: four events supplied oldest first (days 1, 2,
    3, 4), of which only the oldest has a surprise, of 9 percent.  The 3
    most recent events are those of days 4, 3 and 2 and the mean of their
    surprises is 0; calculate_trend_score takes the first 3 rows, the 3
    oldest events, and returns their mean 3.  The same events supplied most
    recent first give the score 0. *)
Theorem earnings_score_of_three_oldest :
  (exists r,
     fst (calculate_trend_score ticks (Some two_days) (Some oldest_first)
            "X"%string 0%nat) = Some r
     /\ earnings_trend_score r =
        mean (map surprise_percent (firstn 3 (rows oldest_first)))
     /\ feq (earnings_trend_score r) (Fin 3))
  /\ map announcement_date (firstn 3 (most_recent_first (rows oldest_first)))
     = [4; 3; 2]
  /\ feq (mean_of_three_most_recent (rows oldest_first)) (Fin 0)
  /\ (exists r,
        fst (calculate_trend_score ticks (Some two_days) (Some newest_first)
               "X"%string 0%nat) = Some r
        /\ feq (earnings_trend_score r) (Fin 0)).
Proof.
  split; [| split; [| split]].
  - eexists. split; [reflexivity |]. split; [reflexivity |].
    vm_compute. reflexivity.
  - reflexivity.
  - vm_compute. reflexivity.
  - eexists. split; [reflexivity |]. vm_compute. reflexivity.
Qed.

(** ** The alignment walk *)

(** With enough fuel the anchor loop ends, on a trading day or past the
    last date its guard admits. *)
Lemma closest_walk_ends hist a : forall fuel c,
  a + 4 - c <= Z.of_nat fuel ->
  exists d,
    closest_walk fuel hist a c = Some d
    /\ c <= d
    /\ (d <= a + 4 \/ d = c)
    /\ (in_index d hist = true \/ a + 3 < d).
Proof.
  induction fuel as [| fuel IH]; intros c Hf; simpl.
  - destruct (in_index c hist) eqn:Hi; simpl.
    + exists c. repeat split; auto; lia.
    + destruct (Z.leb_spec c (a + 3)); [lia |].
      exists c. repeat split; auto; lia.
  - destruct (in_index c hist) eqn:Hi; simpl.
    + exists c. repeat split; auto; lia.
    + destruct (Z.leb_spec c (a + 3)).
      * destruct (IH (c + 1)) as (d & -> & Hcd & Hd & Hin); [lia |].
        exists d. repeat split; auto; lia.
      * exists c. repeat split; auto; lia.
Qed.

(** The anchor loop always ends, and the day it stops on is at most 4
    calendar days after the announcement. *)
Lemma find_closest_ends hist a :
  exists d,
    find_closest hist a = Some d
    /\ a <= d <= a + 4
    /\ (in_index d hist = true \/ d = a + 4).
Proof.
  unfold find_closest.
  destruct (closest_walk_ends hist a 4%nat a) as (d & -> & H1 & H2 & H3);
    [lia |].
  exists d. repeat split; try lia.
  destruct H3; [left; assumption | right; lia].
Qed.

(** With enough fuel the horizon loop ends. *)
Lemma future_walk_ends hist a day : forall fuel f n,
  a + (day + 5) - f <= Z.of_nat fuel ->
  exists f' n', future_walk fuel hist a day f n = Some (f', n').
Proof.
  induction fuel as [| fuel IH]; intros f n Hf; simpl.
  - destruct (Z.ltb_spec n day); simpl; [| eauto].
    destruct (Z.ltb_spec f (a + (day + 5))); [lia | eauto].
  - destruct (Z.ltb_spec n day); simpl; [| eauto].
    destruct (Z.ltb_spec f (a + (day + 5))); [| eauto].
    apply IH. lia.
Qed.

Lemma find_future_ends hist a c day :
  exists f n, find_future hist a c day = Some (f, n).
Proof. unfold find_future. apply future_walk_ends. lia. Qed.

(** C4, on the failing input: the announcement falls on day 0 and the
    first trading days are days 4 and 5.  No date of 0..3 is in the series,
    yet the walk anchors on day 4 and the event is reported. *)
Theorem anchor_four_days_after_announcement :
  let hist_data := serve late_open (-1) 6 in
  (forall d, 0 <= d <= 3 -> in_index d hist_data = false)
  /\ find_closest hist_data 0 = Some 4
  /\ calculate_post_earnings_movement (serve late_open) [0] [1; 5]
     = Some [mkChanges 0 [(1, Fin (1000 # 100))]].
Proof.
  split; [| split; reflexivity].
  intros d Hd.
  assert (E : d = 0 \/ d = 1 \/ d = 2 \/ d = 3) by lia.
  destruct E as [-> | [-> | [-> | ->]]]; reflexivity.
Qed.

(** C5, on the failing input: announcements on days 0 and 100, trading on
    days 0 and 10 only.  The 5-day walk from the anchor 0 stops at its
    bound, day 10, after a single trading day; the date is in the series,
    so a 5-day return is reported, while the 1-day return is absent. *)
Theorem five_day_return_after_one_trading_day :
  let hist_data := serve halted (-1) 106 in
  find_closest hist_data 0 = Some 0
  /\ find_future hist_data 0 0 5 = Some (10, 1)
  /\ trading_days_between hist_data 0 10 = 1%nat
  /\ calculate_post_earnings_movement (serve halted) [0; 100] [1; 5]
     = Some [mkChanges 0 [(5, Fin (1000 # 100))]].
Proof. repeat split; reflexivity. Qed.

(** * Further properties of the code *)

(** ** Moving averages *)

Lemma rolling_some agg w col l :
  rolling agg w col = Some l ->
  0 <= w
  /\ length l = length col
  /\ forall i x, nth_error l i = Some x ->
       x = if (S i <? Z.to_nat w)%nat
              || negb (forallb finiteb (window_at (Z.to_nat w) i col))
           then NaN
           else agg (window_at (Z.to_nat w) i col).
Proof.
  unfold rolling. destruct (Z.ltb_spec w 0) as [Hneg | Hpos];
    [discriminate |].
  intros E0. inversion E0. subst l. clear E0.
  split; [assumption |].
  split; [rewrite length_map, length_seq; reflexivity |].
  intros i x Hi.
  rewrite nth_error_map in Hi.
  destruct (nth_error (seq 0 (length col)) i) as [k |] eqn:E;
    [| discriminate].
  assert (Hlt : (i < length (seq 0 (length col)))%nat)
    by (apply nth_error_Some; congruence).
  rewrite length_seq in Hlt.
  rewrite (nth_error_nth' _ O) in E by (rewrite length_seq; assumption).
  rewrite seq_nth in E by assumption.
  inversion E. subst k. simpl in Hi. inversion Hi. reflexivity.
Qed.

(** *** Assignment to a key *)

Lemma filter_filter_implied {A : Type} (P Q : A -> bool) l :
  (forall x, P x = true -> Q x = true) ->
  filter P (filter Q l) = filter P l.
Proof.
  intros H. induction l as [| x l IH]; simpl; [reflexivity |].
  destruct (Q x) eqn:EQ; simpl.
  - rewrite IH. reflexivity.
  - destruct (P x) eqn:EP; [| assumption].
    rewrite (H x EP) in EQ. discriminate.
Qed.

Lemma filter_filter_and {A : Type} (P Q : A -> bool) l :
  filter P (filter Q l) = filter (fun x => Q x && P x) l.
Proof.
  induction l as [| x l IH]; simpl; [reflexivity |].
  destruct (Q x); simpl; [destruct (P x); rewrite IH |]; auto.
Qed.

Lemma In_assign {V : Type} k (v : V) d k' v' :
  In (k', v') (assign k v d) -> (k' = k /\ v' = v) \/ In (k', v') d.
Proof.
  induction d as [| [k0 v0] d IH]; simpl.
  - intros [E | []]. inversion E. auto.
  - destruct (Z.eqb_spec k0 k) as [-> | Hne]; simpl.
    + intros [E | Hin]; [inversion E |]; auto.
    + intros [E | Hin]; [auto |]. destruct (IH Hin); auto.
Qed.

(** The keys after an assignment. *)
Lemma assign_keys {V : Type} k (v : V) d :
  map fst (assign k v d)
  = if existsb (Z.eqb k) (map fst d) then map fst d else map fst d ++ [k].
Proof.
  induction d as [| [k0 v0] d IH]; simpl; [reflexivity |].
  rewrite (Z.eqb_sym k k0).
  destruct (Z.eqb_spec k0 k) as [-> | Hne]; simpl; [reflexivity |].
  rewrite IH. destruct (existsb (Z.eqb k) (map fst d)); reflexivity.
Qed.

(** The keys a loop of assignments leaves, when it assigns the keys of
    [l] that [keep] admits, in order, to a dictionary that holds the keys
    [ks]: the new keys come after [ks], once each, in the order of their
    first occurrence in [l]. *)
Lemma assigned_keys (keep : Z -> bool) (l : list Z) : forall ks,
  fold_left (fun ks k =>
               if keep k
               then if existsb (Z.eqb k) ks then ks else ks ++ [k]
               else ks) l ks
  = ks ++ filter (fun k => keep k && negb (existsb (Z.eqb k) ks))
                 (distinct l).
Proof.
  induction l as [| k l IH]; intros ks; simpl fold_left.
  - simpl. rewrite app_nil_r. reflexivity.
  - rewrite IH. simpl distinct. simpl filter.
    destruct (keep k) eqn:Hk; simpl andb.
    + destruct (existsb (Z.eqb k) ks) eqn:Hin; simpl negb.
      * f_equal. symmetry. apply filter_filter_implied.
        intros x Hx. apply andb_true_iff in Hx. destruct Hx as [_ Hx].
        destruct (Z.eqb_spec x k) as [-> | Hne]; [| reflexivity].
        rewrite Hin in Hx. discriminate.
      * rewrite <- app_assoc. simpl app. do 2 f_equal.
        rewrite filter_filter_and. apply filter_ext. intros x.
        rewrite existsb_app. simpl existsb. rewrite orb_false_r.
        destruct (keep x), (existsb (Z.eqb x) ks), (x =? k); reflexivity.
    + f_equal. symmetry. apply filter_filter_implied.
      intros x Hx. apply andb_true_iff in Hx. destruct Hx as [Hx _].
      destruct (Z.eqb_spec x k) as [-> | Hne]; [| reflexivity].
      congruence.
Qed.

Lemma filter_all {A : Type} (P : A -> bool) l :
  (forall x, P x = true) -> filter P l = l.
Proof.
  intros H. induction l as [| x l IH]; simpl; [reflexivity |].
  rewrite H, IH. reflexivity.
Qed.

Lemma moving_average_loop_some df windows : forall added cols,
  moving_average_loop df windows added = Some cols ->
  map fst cols
  = fold_left (fun ks w =>
                 if true
                 then if existsb (Z.eqb w) ks then ks else ks ++ [w]
                 else ks) windows (map fst added)
  /\ forall w col, In (w, col) cols ->
       In (w, col) added
       \/ (has_col "Close" df = true
           /\ rolling mean w (map Close (rows df)) = Some col).
Proof.
  induction windows as [| w ws IH]; intros added cols H; simpl in H.
  - inversion H. subst cols. split; [reflexivity | auto].
  - unfold getitem in H.
    destruct (has_col "Close" df) eqn:Hc; [| discriminate].
    destruct (rolling mean w (map Close (rows df))) as [col |] eqn:Hr;
      [| discriminate].
    destruct (IH _ _ H) as [Hkeys Hin].
    split.
    + rewrite Hkeys, assign_keys. reflexivity.
    + intros w' col' Hi. destruct (Hin w' col' Hi) as [Ha | Hnew]; [| auto].
      destruct (In_assign _ _ _ _ _ Ha) as [[-> ->] | Hold]; auto.
Qed.

Lemma add_moving_averages_some df windows cols :
  add_moving_averages df windows = Some cols ->
  map fst cols = distinct windows
  /\ forall w col, In (w, col) cols ->
       has_col "Close" df = true
       /\ rolling mean w (map Close (rows df)) = Some col.
Proof.
  intros H. destruct (moving_average_loop_some _ _ _ _ H) as [Hkeys Hin].
  split.
  - rewrite Hkeys, (assigned_keys (fun _ => true)). simpl app.
    apply filter_all. reflexivity.
  - intros w col Hi. destruct (Hin w col Hi) as [[] | Hnew]. assumption.
Qed.

Lemma moving_average_loop_none df windows : forall added,
  moving_average_loop df windows added = None <->
  windows <> []
  /\ (has_col "Close" df = false \/ exists w, In w windows /\ w < 0).
Proof.
  induction windows as [| w ws IH]; intros added; simpl.
  - split; [discriminate | intros [H _]; congruence].
  - unfold getitem. destruct (has_col "Close" df) eqn:Hc.
    + unfold rolling at 1. destruct (Z.ltb_spec w 0) as [Hw | Hw].
      * split; [| reflexivity]. intros _.
        split; [discriminate |]. right. exists w. auto.
      * rewrite IH. split.
        -- intros [_ [Hf | (w' & Hin & Hneg)]]; [discriminate |].
           split; [discriminate |]. right. exists w'. auto.
        -- intros [_ [Hf | (w' & [E | Hin] & Hneg)]];
             [discriminate | lia |].
           split; [intros E; subst; contradiction |]. right. eauto.
    + split; [| reflexivity]. intros _. split; [discriminate | auto].
Qed.

Lemma add_moving_averages_none df windows :
  add_moving_averages df windows = None <->
  windows <> []
  /\ (has_col "Close" df = false \/ exists w, In w windows /\ w < 0).
Proof. apply moving_average_loop_none. Qed.

(** X1: calculate_moving_averages is all or nothing: it sets one
    [ma_<window>] column per distinct requested window, in the order of
    their first request, unless a window is requested while the Close
    column is missing or one of the windows is negative, in which case it
    sets no column at all; the input frame is handed back unchanged either
    way. *)
Theorem moving_averages_all_or_nothing df windows :
  base (calculate_moving_averages df windows) = df
  /\ ((windows <> []
       /\ (has_col "Close" df = false \/ exists w, In w windows /\ w < 0)) ->
      ma_columns (calculate_moving_averages df windows) = [])
  /\ (~ (windows <> []
         /\ (has_col "Close" df = false \/ exists w, In w windows /\ w < 0)) ->
      map fst (ma_columns (calculate_moving_averages df windows))
      = distinct windows).
Proof.
  split; [apply base_calculate_moving_averages |].
  unfold calculate_moving_averages.
  destruct (add_moving_averages df windows) as [cols |] eqn:E.
  - split.
    + intros H. apply add_moving_averages_none in H. congruence.
    + intros _. simpl. apply (add_moving_averages_some _ _ _ E).
  - split; [reflexivity |].
    intros H. exfalso. apply H. apply add_moving_averages_none. assumption.
Qed.

Lemma moving_averages_all_or_nothing_witness :
  (base (calculate_moving_averages two_days [2; -1]) = two_days
   /\ ma_columns (calculate_moving_averages two_days [2; -1]) = [])
  /\ map fst (ma_columns (calculate_moving_averages two_days [2; 1; 2]))
     = [2; 1].
Proof.
  split.
  - destruct (moving_averages_all_or_nothing two_days [2; -1])
      as (Hbase & Hnone & _).
    split; [exact Hbase |].
    apply Hnone. split; [discriminate |].
    right. exists (-1). split; [simpl; auto | lia].
  - apply (proj2 (proj2 (moving_averages_all_or_nothing two_days [2; 1; 2]))).
    intros [_ [Hclose | (w & Hin & Hneg)]]; [discriminate Hclose |].
    simpl in Hin. lia.
Defined.

Lemma ma_column_of df windows w col :
  In (w, col) (ma_columns (calculate_moving_averages df windows)) ->
  rolling mean w (map Close (rows df)) = Some col.
Proof.
  unfold calculate_moving_averages.
  destruct (add_moving_averages df windows) as [cols |] eqn:E;
    [| intros []].
  simpl. intros Hin.
  apply (proj2 (add_moving_averages_some _ _ _ E) w col Hin).
Qed.

(** X2: Every [ma_<w>] column has one cell per row of the series, and its
    cell at index [i] is absent (NaN) whenever fewer than [w] points end at
    [i]; on a series shorter than [w] the whole column is absent. *)
Theorem moving_average_absent_before_window df windows w col :
  In (w, col) (ma_columns (calculate_moving_averages df windows)) ->
  length col = length (rows df)
  /\ (forall i x, nth_error col i = Some x -> Z.of_nat i + 1 < w -> x = NaN)
  /\ (len df < w -> Forall (fun x => x = NaN) col).
Proof.
  intros Hin. apply ma_column_of in Hin.
  destruct (rolling_some _ _ _ _ Hin) as (Hw & Hlen & Hcell).
  rewrite length_map in Hlen.
  assert (Hearly :
    forall i x, nth_error col i = Some x -> Z.of_nat i + 1 < w -> x = NaN).
  { intros i x Hi Hlt. rewrite (Hcell i x Hi).
    destruct (Nat.ltb_spec (S i) (Z.to_nat w)); [reflexivity | lia]. }
  split; [assumption |]. split; [assumption |].
  intros Hshort. apply Forall_forall. intros x Hx.
  apply In_nth_error in Hx. destruct Hx as [i Hi].
  apply (Hearly i x Hi).
  assert ((i < length col)%nat) by (apply nth_error_Some; congruence).
  unfold len in Hshort. lia.
Qed.

Lemma moving_average_absent_before_window_witness :
  length [NaN; NaN] = length (rows two_days)
  /\ (forall i x, nth_error [NaN; NaN] i = Some x ->
                  Z.of_nat i + 1 < 20 -> x = NaN)
  /\ (len two_days < 20 -> Forall (fun x => x = NaN) [NaN; NaN]).
Proof.
  apply (moving_average_absent_before_window two_days default_windows 20).
  simpl. left. reflexivity.
Defined.

Lemma fsum_from_finite (qs : list Q) : forall acc,
  fold_left fadd (map Fin qs) (Fin acc) = Fin (fold_left Qplus qs acc).
Proof.
  induction qs as [| q qs IH]; intros acc; simpl; [reflexivity |].
  apply IH.
Qed.

Lemma filter_notna_finite (qs : list Q) :
  filter notna (map Fin qs) = map Fin qs.
Proof.
  induction qs as [| q qs IH]; simpl; [reflexivity |].
  rewrite IH. reflexivity.
Qed.

Lemma all_finite (qs : list Q) : forallb finiteb (map Fin qs) = true.
Proof. induction qs as [| q qs IH]; simpl; auto. Qed.

Lemma sgn_positive q : (0 < q)%Q -> sgn q = Gt.
Proof.
  intros H. unfold sgn. apply Qgt_alt. assumption.
Qed.

(** The pandas mean of finitely many finite values is their arithmetic
    mean. *)
Lemma mean_finite (qs : list Q) :
  qs <> [] ->
  mean (map Fin qs)
  = Fin (fold_left Qplus qs 0 / inject_Z (Z.of_nat (length qs)))%Q.
Proof.
  intros Hne. unfold mean. rewrite filter_notna_finite.
  destruct qs as [| q qs]; [congruence |].
  change (map Fin (q :: qs)) with (Fin q :: map Fin qs) at 1.
  cbv iota. unfold fsum. rewrite fsum_from_finite, length_map.
  unfold of_Z, fdiv. rewrite sgn_positive; [reflexivity |].
  change 0%Q with (inject_Z 0). rewrite <- Zlt_Qlt. simpl length. lia.
Qed.

(** X3: Where [w] finite closes end at index [i], the [ma_<w>] cell is their
    arithmetic mean. *)
Theorem moving_average_is_mean_of_window df windows w col i x qs :
  In (w, col) (ma_columns (calculate_moving_averages df windows)) ->
  nth_error col i = Some x ->
  1 <= w <= Z.of_nat i + 1 ->
  window_at (Z.to_nat w) i (map Close (rows df)) = map Fin qs ->
  length qs = Z.to_nat w
  /\ x = Fin (fold_left Qplus qs 0 / inject_Z w)%Q.
Proof.
  intros Hin Hi Hw Hwin. apply ma_column_of in Hin.
  destruct (rolling_some _ _ _ _ Hin) as (_ & Hlen & Hcell).
  assert (Hi' : (i < length col)%nat) by (apply nth_error_Some; congruence).
  rewrite Hlen in Hi'.
  assert (Hq : length qs = Z.to_nat w).
  { rewrite <- (length_map Fin), <- Hwin. unfold window_at.
    rewrite length_firstn, length_skipn. lia. }
  split; [assumption |].
  rewrite (Hcell i x Hi), Hwin, all_finite.
  destruct (Nat.ltb_spec (S i) (Z.to_nat w)); [lia |]. simpl orb. cbv iota.
  rewrite mean_finite by (intros E; subst qs; simpl in Hq; lia).
  rewrite Hq, Z2Nat.id by lia. reflexivity.
Qed.

Lemma moving_average_is_mean_of_window_witness :
  length [10 # 1; 11 # 1]%Q = Z.to_nat 2
  /\ Fin (21 # 2) = Fin (fold_left Qplus [10 # 1; 11 # 1] 0 / inject_Z 2)%Q.
Proof.
  apply (moving_average_is_mean_of_window two_days [2] 2
           [NaN; Fin (21 # 2)] 1%nat).
  - simpl. left. reflexivity.
  - reflexivity.
  - lia.
  - reflexivity.
Defined.

(** ** Support and resistance, continued *)

Lemma rolling_none agg w col : rolling agg w col = None <-> w < 0.
Proof.
  unfold rolling. destruct (Z.ltb_spec w 0); split; intros;
    try reflexivity; try discriminate; lia.
Qed.

Lemma rolling_total agg w col :
  0 <= w -> exists l, rolling agg w col = Some l.
Proof.
  intros Hw. unfold rolling. destruct (Z.ltb_spec w 0); [lia | eauto].
Qed.

Lemma getitem_none {R : Type} name (field : R -> float64) df :
  has_col name df = false -> getitem name field df = None.
Proof. unfold getitem. intros ->. reflexivity. Qed.

Lemma iloc_last_empty {A : Type} : iloc (-1) (@nil A) = None.
Proof. reflexivity. Qed.

Lemma calculate_support_resistance_inputs clock df ticker window n s r :
  fst (calculate_support_resistance clock df ticker window n s) = Some r ->
  rows df <> [] /\ 0 <= window
  /\ has_col "High" df = true /\ has_col "Low" df = true
  /\ has_col "Close" df = true.
Proof.
  intros Hr.
  unfold calculate_support_resistance in Hr.
  destruct (support_resistance_levels df window n)
    as [[[[[high low] ma_df] res] sup] |] eqn:E; [| discriminate].
  clear Hr. unfold support_resistance_levels in E.
  rewrite base_calculate_moving_averages in E.
  unfold getitem in E.
  destruct (has_col "High" df); [| discriminate].
  destruct (rolling max_of window _) eqn:Hroll; [| discriminate].
  destruct (iloc (-1) l); [| discriminate].
  destruct (has_col "Low" df); [| discriminate].
  destruct (rolling min_of window _); [| discriminate].
  destruct (iloc (-1) l0); [| discriminate].
  destruct (iloc (-1) (rows df)) eqn:Hlast; [| discriminate].
  destruct (has_col "Close" df); [| discriminate].
  repeat split; try reflexivity.
  - intros Hnil. rewrite Hnil in Hlast. discriminate.
  - destruct (Z.ltb_spec window 0); [| assumption].
    assert (rolling max_of window (map High (rows df)) = None)
      by (apply rolling_none; assumption).
    congruence.
Qed.

(** X4: calculate_support_resistance returns a result exactly when the
    series is non-empty, carries its High, Low and Close columns and the
    window is not negative; it reads the clock once when it returns a result
    and not at all when it returns None. *)
Theorem support_resistance_returned_iff clock df ticker window num_levels s :
  ((exists r,
      fst (calculate_support_resistance clock df ticker window num_levels s)
      = Some r)
   <-> rows df <> [] /\ 0 <= window
       /\ has_col "High" df = true /\ has_col "Low" df = true
       /\ has_col "Close" df = true)
  /\ snd (calculate_support_resistance clock df ticker window num_levels s)
     = match
         fst (calculate_support_resistance clock df ticker window
                num_levels s)
       with
       | Some _ => S s
       | None => s
       end.
Proof.
  split.
  - split.
    + intros (r & Hr).
      apply (calculate_support_resistance_inputs _ _ _ _ _ _ _ Hr).
    + intros (Hne & Hw & Hh & Hl & Hc).
      destruct (calculate_support_resistance_total clock df ticker window
                  num_levels s Hne Hw Hh Hl Hc) as (r & Hr & _).
      eauto.
  - unfold calculate_support_resistance.
    destruct (support_resistance_levels df window num_levels)
      as [[[[[high low] ma_df] res] sup] |]; reflexivity.
Qed.

Lemma support_resistance_returned_iff_witness :
  (exists r,
     fst (calculate_support_resistance ticks two_days "X"%string 252 2 0%nat)
     = Some r).
Proof.
  apply (proj1 (support_resistance_returned_iff ticks two_days "X"%string
                  252 2 0%nat)).
  repeat split; try reflexivity; try discriminate; lia.
Defined.

(** A list already in order is left as it is by the stable sort. *)
Lemma sort_by_in_order before l :
  StronglySorted (fun x y => before y x = false) l -> sort_by before l = l.
Proof.
  induction 1 as [| x l Hs IH Hall]; [reflexivity |].
  simpl. fold (sort_by before l). rewrite IH.
  destruct l as [| y r]; [reflexivity |].
  inversion Hall as [| ? ? Hy _]; subst.
  simpl. rewrite Hy. reflexivity.
Qed.

Lemma sorted_map_seq {A : Type} (R : A -> A -> Prop) (f : Z -> A) n :
  forall a,
    (forall i j, (a <= i)%nat -> (i < j)%nat -> (j < a + n)%nat ->
                 R (f (Z.of_nat i)) (f (Z.of_nat j))) ->
    StronglySorted R (map f (map Z.of_nat (seq a n))).
Proof.
  induction n as [| n IH]; intros a H; simpl; [constructor |].
  constructor.
  - apply IH. intros i j Hi Hij Hj. apply H; lia.
  - apply Forall_map, Forall_map, Forall_forall. intros j Hj.
    apply in_seq in Hj. apply H; lia.
Qed.

Lemma sorted_map_range {A : Type} (R : A -> A -> Prop) (f : Z -> A) n :
  (forall i j, 0 <= i -> i < j -> j < n -> R (f i) (f j)) ->
  StronglySorted R (map f (range n)).
Proof.
  intros H. unfold range. apply sorted_map_seq.
  intros i j Hi Hij Hj. apply H; lia.
Qed.

Lemma fraction_increasing (i j n : Z) :
  0 <= i -> i < j -> j < n ->
  (inject_Z (i + 1) / inject_Z (n + 1)
   < inject_Z (j + 1) / inject_Z (n + 1))%Q.
Proof.
  intros Hi Hij Hj.
  assert (Hb : (0 < inject_Z (n + 1))%Q)
    by (change 0%Q with (inject_Z 0); rewrite <- Zlt_Qlt; lia).
  unfold Qdiv. apply Qmult_lt_compat_r.
  - apply Qinv_lt_0_compat. assumption.
  - rewrite <- Zlt_Qlt. lia.
Qed.

Lemma not_flt_of_le a b : (a <= b)%Q -> flt (Fin b) (Fin a) = false.
Proof.
  intros H. simpl. destruct (Qcompare_spec b a) as [E | L | G];
    try reflexivity.
  exfalso. apply (Qlt_irrefl b). eapply Qlt_le_trans; eassumption.
Qed.

Lemma nth_error_map_range {A : Type} (f : Z -> A) n k :
  0 <= k < n -> nth_error (map f (range n)) (Z.to_nat k) = Some (f k).
Proof.
  intros Hk. unfold range. rewrite !nth_error_map.
  rewrite (nth_error_nth' _ O) by (rewrite length_seq; lia).
  rewrite seq_nth by lia. simpl. f_equal. f_equal. lia.
Qed.

(** X5: When the close [c] does not exceed the 52-week high [h], the levels
    come out of the sort in the order they were computed: [resistance_k] is
    [c + k/(num_levels+1) x (h - c)]; likewise [support_k] is [c -
    k/(num_levels+1) x (c - l)] when the 52-week low [l] does not exceed
    [c]. *)
Theorem levels_are_the_interpolated_ones clock df ticker window num_levels
    s r c h l k :
  fst (calculate_support_resistance clock df ticker window num_levels s)
  = Some r ->
  option_map Close (iloc (-1) (rows df)) = Some (Fin c) ->
  fifty_two_week_high r = Fin h ->
  fifty_two_week_low r = Fin l ->
  1 <= k <= num_levels ->
  ((c <= h)%Q ->
   nth_error (resistance r) (Z.to_nat (k - 1))
   = Some (Fin (c + inject_Z k / inject_Z (num_levels + 1) * (h + - c))%Q))
  /\ ((l <= c)%Q ->
      nth_error (support r) (Z.to_nat (k - 1))
      = Some (Fin (c + - (inject_Z k / inject_Z (num_levels + 1)
                          * (c + - l)))%Q)).
Proof.
  intros Hr Hc Hh Hl Hk.
  destruct (calculate_support_resistance_some _ _ _ _ _ _ _ Hr)
    as (latest & Hlast & _ & Eres & Esup).
  rewrite Hlast in Hc. simpl in Hc.
  assert (Hclose : Close latest = Fin c) by congruence.
  rewrite Hclose, Hh in Eres. rewrite Hclose, Hl in Esup.
  split.
  - intros Hch. rewrite Eres. unfold sort_asc.
    rewrite sort_by_in_order.
    + rewrite nth_error_map_range by lia.
      rewrite resistance_level_finite.
      replace (k - 1 + 1) with k by lia. reflexivity.
    + apply sorted_map_range. intros i j Hi Hij Hj.
      rewrite !resistance_level_finite. apply not_flt_of_le.
      pose proof (fraction_increasing i j num_levels Hi Hij Hj) as Hf.
      nra.
  - intros Hlc. rewrite Esup. unfold sort_desc.
    rewrite sort_by_in_order.
    + rewrite nth_error_map_range by lia.
      rewrite support_level_finite.
      replace (k - 1 + 1) with k by lia. reflexivity.
    + apply sorted_map_range. intros i j Hi Hij Hj.
      rewrite !support_level_finite. unfold fgt. apply not_flt_of_le.
      pose proof (fraction_increasing i j num_levels Hi Hij Hj) as Hf.
      nra.
Qed.

Lemma levels_are_the_interpolated_ones_witness :
  exists r,
    fst (calculate_support_resistance ticks two_days "X"%string 2 3 0%nat)
    = Some r
    /\ nth_error (resistance r) (Z.to_nat (2 - 1))
       = Some (Fin (11 + inject_Z 2 / inject_Z (3 + 1) * (13 + - (11)))%Q)
    /\ nth_error (support r) (Z.to_nat (2 - 1))
       = Some (Fin (11 + - (inject_Z 2 / inject_Z (3 + 1) * (11 + - (8))))%Q).
Proof.
  eexists. split; [reflexivity |].
  destruct (levels_are_the_interpolated_ones ticks two_days "X"%string
              2 3 0%nat _ 11 13 8 2 eq_refl eq_refl eq_refl eq_refl
              ltac:(lia)) as [Hres Hsup].
  split; [apply Hres | apply Hsup]; unfold Qle; simpl; lia.
Defined.

Lemma default_moving_averages df :
  has_col "Close" df = true ->
  exists c20 c50 c200,
    rolling mean 20 (map Close (rows df)) = Some c20
    /\ rolling mean 50 (map Close (rows df)) = Some c50
    /\ rolling mean 200 (map Close (rows df)) = Some c200
    /\ ma_columns (calculate_moving_averages df default_windows)
       = [(20, c20); (50, c50); (200, c200)].
Proof.
  intros Hc.
  unfold calculate_moving_averages, add_moving_averages, default_windows.
  cbn [moving_average_loop]. rewrite (getitem_has _ _ _ Hc).
  destruct (rolling_total mean 20 (map Close (rows df)) ltac:(lia))
    as [c20 H20].
  destruct (rolling_total mean 50 (map Close (rows df)) ltac:(lia))
    as [c50 H50].
  destruct (rolling_total mean 200 (map Close (rows df)) ltac:(lia))
    as [c200 H200].
  rewrite H20, H50, H200. exists c20, c50, c200.
  repeat split; reflexivity.
Qed.

Lemma latest_ma_value df w col :
  rows df <> [] -> 0 <= w ->
  rolling mean w (map Close (rows df)) = Some col ->
  iloc (-1) col = Some (rolling_value mean w (map Close (rows df))).
Proof.
  intros Hne Hw Hcol.
  assert (Hmap : map Close (rows df) <> [])
    by (intros E; apply map_eq_nil in E; contradiction).
  destruct (rolling_last mean w (map Close (rows df)) Hw Hmap)
    as (l & Hl & Hlast).
  rewrite Hcol in Hl. inversion Hl. subst l. exact Hlast.
Qed.

(** X6: A returned result always carries the three moving averages: each is
    absent (NaN) when the series has fewer points than its window, and the
    mean of the last 20, 50 or 200 closes when it has that many and they
    are all finite numbers. *)
Theorem latest_moving_averages clock df ticker window num_levels s r :
  fst (calculate_support_resistance clock df ticker window num_levels s)
  = Some r ->
  let close := map Close (rows df) in
  exists m20 m50 m200,
    ma_20 r = Some m20 /\ ma_50 r = Some m50 /\ ma_200 r = Some m200
    /\ (len df < 20 -> m20 = NaN)
    /\ (len df < 50 -> m50 = NaN)
    /\ (len df < 200 -> m200 = NaN)
    /\ (20 <= len df -> forallb finiteb (trailing 20 close) = true ->
        m20 = mean (trailing 20 close))
    /\ (50 <= len df -> forallb finiteb (trailing 50 close) = true ->
        m50 = mean (trailing 50 close))
    /\ (200 <= len df -> forallb finiteb (trailing 200 close) = true ->
        m200 = mean (trailing 200 close)).
Proof.
  intros Hr close.
  destruct (calculate_support_resistance_inputs _ _ _ _ _ _ _ Hr)
    as (Hne & _ & _ & _ & Hc).
  destruct (default_moving_averages df Hc)
    as (c20 & c50 & c200 & H20 & H50 & H200 & Hcols).
  unfold calculate_support_resistance in Hr.
  destruct (support_resistance_levels df window num_levels)
    as [[[[[high low] ma_df] res] sup] |] eqn:E; [| discriminate].
  simpl in Hr. inversion Hr. subst r. clear Hr. simpl.
  assert (Hma : ma_df = calculate_moving_averages df default_windows).
  { unfold support_resistance_levels in E.
    rewrite base_calculate_moving_averages in E.
    destruct (getitem "High" High df); [| discriminate].
    destruct (rolling max_of window l); [| discriminate].
    destruct (iloc (-1) l0); [| discriminate].
    destruct (getitem "Low" Low df); [| discriminate].
    destruct (rolling min_of window l1); [| discriminate].
    destruct (iloc (-1) l2); [| discriminate].
    destruct (iloc (-1) (rows df)); [| discriminate].
    destruct (has_col "Close" df); [| discriminate].
    inversion E. reflexivity. }
  subst ma_df. unfold latest_get_ma. rewrite Hcols. simpl.
  rewrite (latest_ma_value df 20 c20 Hne ltac:(lia) H20).
  rewrite (latest_ma_value df 50 c50 Hne ltac:(lia) H50).
  rewrite (latest_ma_value df 200 c200 Hne ltac:(lia) H200).
  do 3 eexists. split; [reflexivity |]. split; [reflexivity |].
  split; [reflexivity |]. unfold len, close.
  repeat split; intros;
    try (apply rolling_value_short; rewrite length_map; assumption);
    apply rolling_value_full;
    try (rewrite length_map; lia); assumption.
Qed.

Lemma latest_moving_averages_witness :
  exists r m20 m50,
    fst (calculate_support_resistance ticks twenty_days "X"%string 2 3 0%nat)
    = Some r
    /\ ma_20 r = Some m20 /\ ma_50 r = Some m50
    /\ m20 = mean (trailing 20 (map Close (rows twenty_days)))
    /\ m50 = NaN.
Proof.
  pose proof (latest_moving_averages ticks twenty_days "X"%string 2 3 0%nat)
    as H.
  destruct (fst (calculate_support_resistance ticks twenty_days "X"%string
                   2 3 0%nat)) as [r |] eqn:E;
    [| vm_compute in E; discriminate E].
  destruct (H r eq_refl)
    as (m20 & m50 & m200 & H20 & H50 & H200 & _ & S50 & _ & F20 & _).
  exists r, m20, m50. split; [reflexivity |].
  split; [assumption |]. split; [assumption |]. split.
  - apply F20; [vm_compute; discriminate | reflexivity].
  - apply S50. vm_compute. reflexivity.
Defined.

Lemma levels_of_nan_bound (c : float64) n :
  sort_asc (map (resistance_level c NaN n) (range n))
  = map (fun _ => NaN) (range n)
  /\ sort_desc (map (support_level c NaN n) (range n))
     = map (fun _ => NaN) (range n).
Proof.
  assert (Hres : forall i, resistance_level c NaN n i = NaN)
    by (intros i; unfold resistance_level; destruct c; reflexivity).
  assert (Hsup : forall i, support_level c NaN n i = NaN)
    by (intros i; unfold support_level; destruct c; reflexivity).
  split.
  - rewrite (map_ext _ (fun _ => NaN) Hres). unfold sort_asc.
    apply sort_by_in_order.
    unfold range. apply sorted_map_seq. reflexivity.
  - rewrite (map_ext _ (fun _ => NaN) Hsup). unfold sort_desc.
    apply sort_by_in_order.
    unfold range. apply sorted_map_seq. reflexivity.
Qed.

(** X7: analyze_stock asks for the bands with the default window of 252: on
    a history of fewer than 252 rows its bundle carries a support/resistance
    result whose 52-week bounds and four levels are all absent (NaN). *)
Theorem short_history_gives_absent_levels corr clock ticker df e s :
  rows df <> [] -> len df < 252 ->
  has_col "High" df = true -> has_col "Low" df = true ->
  has_col "Close" df = true ->
  exists b sr,
    fst (analyze_stock corr clock ticker (Some df) e s) = Some b
    /\ support_resistance b = Some sr
    /\ fifty_two_week_high sr = NaN /\ fifty_two_week_low sr = NaN
    /\ resistance sr = [NaN; NaN] /\ support sr = [NaN; NaN].
Proof.
  intros Hne Hshort Hh Hl Hc.
  destruct (calculate_support_resistance_total clock df ticker 252 2 s
              Hne ltac:(lia) Hh Hl Hc) as (sr & Hsr & Ehigh & Elow).
  rewrite rolling_value_short in Ehigh
    by (rewrite length_map; exact Hshort).
  rewrite rolling_value_short in Elow
    by (rewrite length_map; exact Hshort).
  destruct (calculate_support_resistance_some _ _ _ _ _ _ _ Hsr)
    as (latest & _ & _ & Eres & Esup).
  rewrite Ehigh in Eres. rewrite Elow in Esup.
  rewrite (proj1 (levels_of_nan_bound (Close latest) 2)) in Eres.
  rewrite (proj2 (levels_of_nan_bound (Close latest) 2)) in Esup.
  unfold analyze_stock. rewrite (empty_false _ df Hne Hc).
  destruct (calculate_support_resistance clock df ticker 252 2 s)
    as [sr' s1] eqn:Ecall.
  simpl in Hsr. subst sr'.
  destruct (calculate_trend_score clock (Some df) e ticker s1) as [ts s2].
  simpl. do 2 eexists. split; [reflexivity |]. simpl.
  repeat split; assumption.
Qed.

Lemma short_history_gives_absent_levels_witness :
  exists b sr,
    fst (analyze_stock no_corr ticks "X"%string (Some two_days) None 0%nat)
    = Some b
    /\ support_resistance b = Some sr
    /\ fifty_two_week_high sr = NaN /\ fifty_two_week_low sr = NaN
    /\ resistance sr = [NaN; NaN] /\ support sr = [NaN; NaN].
Proof.
  apply (short_history_gives_absent_levels no_corr ticks "X"%string two_days
           None 0%nat).
  - discriminate.
  - unfold len. simpl. lia.
  - reflexivity.
  - reflexivity.
  - reflexivity.
Defined.

(** ** The trend score, continued *)

Lemma trend_scores_inputs df e x :
  trend_scores df e = Some x ->
  rows df <> [] /\ has_col "Close" df = true /\ has_col "Volume" df = true.
Proof.
  unfold trend_scores, getitem. intros H.
  destruct (iloc (-1) (rows df)) eqn:Hlast; [| discriminate].
  destruct (has_col "Close" df); [| discriminate].
  destruct (period_returns _ _ _); [| discriminate].
  destruct (weighted_returns _ _); [| discriminate].
  destruct (has_col "Volume" df); [| discriminate].
  repeat split. intros Hnil. rewrite Hnil in Hlast. discriminate.
Qed.

(** What a returned trend score is made of. *)
Lemma calculate_trend_score_parts clock h e t s r :
  fst (calculate_trend_score clock h e t s) = Some r ->
  exists df,
    h = Some df /\ rows df <> []
    /\ has_col "Close" df = true /\ has_col "Volume" df = true
    /\ volume_trend_score r =
       fst (volume_trend (recent_volume (map Volume (rows df)))
                         (baseline_volume (map Volume (rows df))))
    /\ earnings_trend_score r = earnings_trend e.
Proof.
  intros H.
  destruct (calculate_trend_score_some _ _ _ _ _ _ H)
    as (df & p & v & er & c & d & -> & _ & Ht & ->).
  destruct (trend_scores_inputs _ _ _ Ht) as (Hne & Hc & Hv).
  destruct (trend_scores_total df e Hne Hc Hv) as (p' & c' & Ht').
  rewrite Ht in Ht'. inversion Ht'. subst.
  exists df. repeat split; assumption || reflexivity.
Qed.

(** X8: calculate_trend_score returns a result exactly when a non-empty
    history with its Close and Volume columns is supplied. *)
Theorem trend_score_returned_iff clock h e t s :
  (exists r, fst (calculate_trend_score clock h e t s) = Some r)
  <-> exists df,
        h = Some df /\ rows df <> []
        /\ has_col "Close" df = true /\ has_col "Volume" df = true.
Proof.
  split.
  - intros (r & Hr).
    destruct (calculate_trend_score_parts _ _ _ _ _ _ Hr)
      as (df & Hh & Hne & Hc & Hv & _).
    exists df. auto.
  - intros (df & -> & Hne & Hc & Hv).
    destruct (trend_scores_total df e Hne Hc Hv) as (p & c & Ht).
    unfold calculate_trend_score. rewrite (empty_false _ df Hne Hc), Ht.
    simpl. eauto.
Qed.

Lemma trend_score_returned_iff_witness :
  exists r,
    fst (calculate_trend_score ticks (Some two_days) None "X"%string 0%nat)
    = Some r.
Proof.
  apply (proj2 (trend_score_returned_iff ticks (Some two_days) None
                  "X"%string 0%nat)).
  exists two_days. repeat split; try reflexivity. discriminate.
Defined.

Lemma iloc_map {A B : Type} (f : A -> B) i l :
  iloc i (map f l) = option_map f (iloc i l).
Proof.
  unfold iloc. rewrite length_map.
  destruct ((_ <? 0) || (_ <=? _)); [reflexivity |].
  apply nth_error_map.
Qed.

Lemma iloc_last_app {A : Type} (l : list A) x :
  iloc (-1) (l ++ [x]) = Some x.
Proof.
  unfold iloc. rewrite length_app. simpl length.
  change (-1 <? 0) with true. cbv iota.
  destruct (Z.ltb_spec (-1 + Z.of_nat (length l + 1)) 0); [lia |].
  destruct (Z.leb_spec (Z.of_nat (length l + 1))
              (-1 + Z.of_nat (length l + 1))); [lia |].
  simpl orb. cbv iota.
  replace (Z.to_nat (-1 + Z.of_nat (length l + 1))) with (length l) by lia.
  rewrite nth_error_app2 by lia.
  replace (length l - length l)%nat with O by lia. reflexivity.
Qed.

(** The return over [days] points on a series of positive closes. *)
Lemma period_return_positive_closes (qs : list Q) (l : Q) days :
  Forall (fun q => (0 < q)%Q) qs -> 0 <= days ->
  exists rho,
    period_return (map Fin qs) (Fin l) days = Some (Fin rho)
    /\ ((Z.of_nat (length qs) <= days /\ rho = 0%Q)
        \/ (days < Z.of_nat (length qs)
            /\ exists p,
                 nth_error qs (Z.to_nat (Z.of_nat (length qs) - days - 1))
                 = Some p
                 /\ rho = ((l + - p) / p)%Q)).
Proof.
  intros Hpos Hd. unfold period_return. rewrite length_map.
  destruct (Z.gtb_spec (Z.of_nat (length qs)) days) as [Hn | Hn].
  - destruct (Z.ltb_spec days (Z.of_nat (length qs))); [| lia].
    rewrite iloc_map. unfold iloc.
    destruct (Z.ltb_spec (- days - 1) 0); [| lia].
    destruct (Z.ltb_spec (- days - 1 + Z.of_nat (length qs)) 0); [lia |].
    destruct (Z.leb_spec (Z.of_nat (length qs))
                (- days - 1 + Z.of_nat (length qs))); [lia |].
    simpl orb. cbv iota.
    replace (- days - 1 + Z.of_nat (length qs))
      with (Z.of_nat (length qs) - days - 1) by lia.
    destruct (nth_error qs (Z.to_nat (Z.of_nat (length qs) - days - 1)))
      as [p |] eqn:E.
    + assert (Hp : (0 < p)%Q).
      { rewrite Forall_forall in Hpos. apply Hpos.
        eapply nth_error_In. eassumption. }
      simpl. rewrite (sgn_positive p Hp).
      eexists. split; [reflexivity |]. right. split; [lia |].
      exists p. split; reflexivity.
    + apply nth_error_None in E. lia.
  - exists 0%Q. split; [reflexivity |]. left. split; [lia | reflexivity].
Qed.

(** The price score on a series of positive closes, as a rational. *)
Lemma price_score_positive_closes clock df e t s r (qs : list Q) (l : Q) :
  fst (calculate_trend_score clock (Some df) e t s) = Some r ->
  map Close (rows df) = map Fin (qs ++ [l]) ->
  Forall (fun q => (0 < q)%Q) (qs ++ [l]) ->
  exists r1 r2 r3 r4,
    period_return (map Fin (qs ++ [l])) (Fin l) 1 = Some (Fin r1)
    /\ period_return (map Fin (qs ++ [l])) (Fin l) 5 = Some (Fin r2)
    /\ period_return (map Fin (qs ++ [l])) (Fin l) 20 = Some (Fin r3)
    /\ period_return (map Fin (qs ++ [l])) (Fin l) 60 = Some (Fin r4)
    /\ price_trend_score r =
       Fin ((0 + r1 * (3 # 10) + r2 * (3 # 10) + r3 * (2 # 10)
             + r4 * (2 # 10)) * 100)%Q.
Proof.
  intros Hr Hclose Hpos.
  destruct (calculate_trend_score_some _ _ _ _ _ _ Hr)
    as (df' & p & v & er & c & d & Hdf & _ & Ht & ->).
  inversion Hdf. subst df'. clear Hdf. simpl.
  unfold trend_scores in Ht.
  destruct (iloc (-1) (rows df)) as [latest |] eqn:Hlast; [| discriminate].
  assert (Hl : Close latest = Fin l).
  { pose proof (iloc_map Close (-1) (rows df)) as Him.
    rewrite Hclose, map_app, Hlast in Him. simpl map in Him.
    rewrite iloc_last_app in Him. simpl in Him. congruence. }
  unfold getitem in Ht.
  destruct (has_col "Close" df); [| discriminate].
  rewrite Hclose, Hl in Ht.
  destruct (period_return_positive_closes (qs ++ [l]) l 1 Hpos ltac:(lia))
    as (r1 & H1 & _).
  destruct (period_return_positive_closes (qs ++ [l]) l 5 Hpos ltac:(lia))
    as (r2 & H2 & _).
  destruct (period_return_positive_closes (qs ++ [l]) l 20 Hpos ltac:(lia))
    as (r3 & H3 & _).
  destruct (period_return_positive_closes (qs ++ [l]) l 60 Hpos ltac:(lia))
    as (r4 & H4 & _).
  exists r1, r2, r3, r4.
  unfold periods in Ht. simpl in Ht. rewrite H1, H2, H3, H4 in Ht.
  simpl in Ht.
  destruct (has_col "Volume" df); [| discriminate].
  destruct (volume_trend _ _). inversion Ht.
  repeat split; assumption || reflexivity.
Qed.

Lemma return_sign (qs : list Q) (l : Q) days rho :
  Forall (fun q => (0 < q)%Q /\ (q < l)%Q) qs -> (0 < l)%Q -> 1 <= days ->
  period_return (map Fin (qs ++ [l])) (Fin l) days = Some (Fin rho) ->
  (0 <= rho)%Q
  /\ (days < Z.of_nat (length (qs ++ [l])) -> (0 < rho)%Q).
Proof.
  intros Hq Hl Hd Hret.
  assert (Hpos : Forall (fun q => (0 < q)%Q) (qs ++ [l])).
  { apply Forall_app. split.
    - eapply Forall_impl; [| exact Hq]. intros q [H _]. exact H.
    - constructor; [assumption | constructor]. }
  destruct (period_return_positive_closes (qs ++ [l]) l days Hpos
              ltac:(lia)) as (rho' & Hret' & Hcase).
  rewrite Hret in Hret'. inversion Hret'. subst rho'. clear Hret'.
  destruct Hcase as [[Hshort ->] | (Hlong & p & Hp & ->)].
  - split; [apply Qle_refl | lia].
  - rewrite length_app in *. simpl length in *.
    rewrite nth_error_app1 in Hp by lia.
    apply nth_error_In in Hp. rewrite Forall_forall in Hq.
    destruct (Hq p Hp) as [Hp0 Hpl].
    assert (Hrho : (0 < (l + - p) / p)%Q).
    { apply Qlt_shift_div_l; [assumption |]. rewrite Qmult_0_l. lra. }
    split; [apply Qlt_le_weak |]; auto.
Qed.

(** X9: When every close is positive and the latest close is above each
    earlier one, the price score is a positive number. *)
Theorem rising_close_gives_positive_price_score clock df e t s r
    (earlier : list Q) (latest : Q) :
  fst (calculate_trend_score clock (Some df) e t s) = Some r ->
  map Close (rows df) = map Fin (earlier ++ [latest]) ->
  earlier <> [] ->
  Forall (fun q => (0 < q)%Q /\ (q < latest)%Q) earlier ->
  exists p, price_trend_score r = Fin p /\ (0 < p)%Q.
Proof.
  intros Hr Hclose Hne Hq.
  assert (Hl : (0 < latest)%Q).
  { destruct earlier as [| q qs]; [congruence |].
    inversion Hq as [| ? ? [H0 H1] _]; subst. lra. }
  assert (Hpos : Forall (fun q => (0 < q)%Q) (earlier ++ [latest])).
  { apply Forall_app. split.
    - eapply Forall_impl; [| exact Hq]. intros q [H _]. exact H.
    - constructor; [assumption | constructor]. }
  destruct (price_score_positive_closes _ _ _ _ _ _ _ _ Hr Hclose Hpos)
    as (r1 & r2 & r3 & r4 & H1 & H2 & H3 & H4 & ->).
  destruct (return_sign earlier latest 1 r1 Hq Hl ltac:(lia) H1) as [_ P1].
  destruct (return_sign earlier latest 5 r2 Hq Hl ltac:(lia) H2) as [P2 _].
  destruct (return_sign earlier latest 20 r3 Hq Hl ltac:(lia) H3) as [P3 _].
  destruct (return_sign earlier latest 60 r4 Hq Hl ltac:(lia) H4) as [P4 _].
  assert (P1' : (0 < r1)%Q).
  { apply P1. rewrite length_app. simpl length.
    destruct earlier; [congruence | simpl length; lia]. }
  eexists. split; [reflexivity |]. lra.
Qed.

Lemma rising_close_gives_positive_price_score_witness :
  exists r,
    fst (calculate_trend_score ticks (Some two_days) None "X"%string 0%nat)
    = Some r
    /\ exists p, price_trend_score r = Fin p /\ (0 < p)%Q.
Proof.
  eexists. split; [reflexivity |].
  apply (rising_close_gives_positive_price_score ticks two_days None
           "X"%string 0%nat _ [10 # 1]%Q (11 # 1)%Q).
  - reflexivity.
  - reflexivity.
  - discriminate.
  - constructor; [| constructor]. split; reflexivity.
Defined.

(** X10: When all closes equal one positive price, the price score is zero. *)
Theorem flat_close_gives_zero_price_score clock df e t s r
    (qs : list Q) (c : Q) :
  fst (calculate_trend_score clock (Some df) e t s) = Some r ->
  map Close (rows df) = map Fin qs ->
  (0 < c)%Q -> Forall (fun q => (q == c)%Q) qs ->
  exists p, price_trend_score r = Fin p /\ (p == 0)%Q.
Proof.
  intros Hr Hclose Hc Hq.
  destruct (calculate_trend_score_parts _ _ _ _ _ _ Hr)
    as (df' & Hdf & Hne & _).
  inversion Hdf. subst df'. clear Hdf.
  destruct (exists_last (l := qs)) as (front & l & Eqs).
  { intros E. subst qs. destruct (rows df); [congruence | discriminate]. }
  subst qs.
  assert (Hpos : Forall (fun q => (0 < q)%Q) (front ++ [l])).
  { eapply Forall_impl; [| exact Hq]. intros q E. simpl in E.
    rewrite E. assumption. }
  assert (Hl : (l == c)%Q).
  { rewrite Forall_forall in Hq. apply Hq. apply in_or_app. right.
    left. reflexivity. }
  destruct (price_score_positive_closes _ _ _ _ _ _ _ _ Hr Hclose Hpos)
    as (r1 & r2 & r3 & r4 & H1 & H2 & H3 & H4 & ->).
  assert (Hzero : forall days rho, 0 <= days ->
            period_return (map Fin (front ++ [l])) (Fin l) days
            = Some (Fin rho) -> (rho == 0)%Q).
  { intros days rho Hd Hret.
    destruct (period_return_positive_closes (front ++ [l]) l days Hpos Hd)
      as (rho' & Hret' & Hcase).
    rewrite Hret in Hret'. inversion Hret'. subst rho'.
    destruct Hcase as [[_ ->] | (_ & p & Hp & ->)]; [reflexivity |].
    apply nth_error_In in Hp. rewrite Forall_forall in Hq.
    pose proof (Hq p Hp) as Hpc. simpl in Hpc.
    rewrite Hpc, Hl. unfold Qdiv. ring. }
  eexists. split; [reflexivity |].
  rewrite (Hzero 1 r1 ltac:(lia) H1), (Hzero 5 r2 ltac:(lia) H2),
    (Hzero 20 r3 ltac:(lia) H3), (Hzero 60 r4 ltac:(lia) H4).
  reflexivity.
Qed.

Lemma flat_close_gives_zero_price_score_witness :
  exists r,
    fst (calculate_trend_score ticks (Some flat_week) None "X"%string 0%nat)
    = Some r
    /\ exists p, price_trend_score r = Fin p /\ (p == 0)%Q.
Proof.
  eexists. split; [reflexivity |].
  apply (flat_close_gives_zero_price_score ticks flat_week None "X"%string
           0%nat _ [10 # 1; 10 # 1; 10 # 1; 10 # 1; 10 # 1; 10 # 1]%Q
           (10 # 1)%Q).
  - reflexivity.
  - reflexivity.
  - reflexivity.
  - repeat (constructor; [reflexivity |]). constructor.
Defined.

(** ** The volume score *)

Lemma slice_from_last_five {A : Type} (l : list A) :
  slice_from (-5) l = trailing 5 l.
Proof.
  unfold slice_from, trailing, clip. change (-5 <? 0) with true. cbv iota.
  f_equal. lia.
Qed.

Lemma volume_ratio_sign (rv bv : Q) :
  (0 < bv)%Q ->
  ((0 < (rv / bv + - (1)) * 100)%Q <-> (bv < rv)%Q)
  /\ (((rv / bv + - (1)) * 100 < 0)%Q <-> (rv < bv)%Q).
Proof.
  intros Hb.
  assert (Hx : (rv / bv * bv == rv)%Q)
    by (field; intros E; rewrite E in Hb; apply (Qlt_irrefl 0); exact Hb).
  set (x := (rv / bv)%Q) in *.
  split; split; intros H; nra.
Qed.

(** X11: With a positive baseline mean [bv] and a recent mean [rv] of the
    volume, the volume score is [(rv / bv - 1) x 100]: positive exactly when
    the mean volume of the last 5 points exceeds the baseline, and negative
    exactly when it falls short of it. *)
Theorem volume_score_compares_recent_with_baseline clock df e t s r
    (rv bv : Q) :
  fst (calculate_trend_score clock (Some df) e t s) = Some r ->
  mean (trailing 5 (map Volume (rows df))) = Fin rv ->
  mean (baseline_window (map Volume (rows df))) = Fin bv ->
  (0 < bv)%Q ->
  volume_trend_score r = Fin ((rv / bv + - (1)) * 100)%Q
  /\ ((0 < (rv / bv + - (1)) * 100)%Q <-> (bv < rv)%Q)
  /\ (((rv / bv + - (1)) * 100 < 0)%Q <-> (rv < bv)%Q).
Proof.
  intros Hr Hrecent Hbase Hb.
  destruct (calculate_trend_score_parts _ _ _ _ _ _ Hr)
    as (df' & Hdf & _ & _ & _ & Hvol & _).
  inversion Hdf. subst df'. clear Hdf.
  split; [| apply volume_ratio_sign; assumption].
  rewrite Hvol. unfold recent_volume.
  rewrite slice_from_last_five, baseline_volume_window, Hrecent, Hbase.
  unfold volume_trend, fgt, flt.
  destruct (Qcompare_spec 0 bv) as [E | L | G].
  - rewrite <- E in Hb. exfalso. apply (Qlt_irrefl 0). exact Hb.
  - simpl. rewrite (sgn_positive bv Hb). reflexivity.
  - exfalso. apply (Qlt_irrefl 0). eapply Qlt_trans; eassumption.
Qed.

Lemma volume_score_compares_recent_with_baseline_witness :
  exists r,
    fst (calculate_trend_score ticks (Some two_days) None "X"%string 0%nat)
    = Some r
    /\ volume_trend_score r = Fin (((12 # 2) / (12 # 2) + - (1)) * 100)%Q
    /\ ((0 < ((12 # 2) / (12 # 2) + - (1)) * 100)%Q <-> (12 # 2 < 12 # 2)%Q)
    /\ ((((12 # 2) / (12 # 2) + - (1)) * 100 < 0)%Q
        <-> (12 # 2 < 12 # 2)%Q).
Proof.
  eexists. split; [reflexivity |].
  apply (volume_score_compares_recent_with_baseline ticks two_days None
           "X"%string 0%nat _ (12 # 2) (12 # 2)).
  - reflexivity.
  - reflexivity.
  - reflexivity.
  - reflexivity.
Defined.

Lemma trailing_all {A : Type} (n : nat) (l : list A) :
  (length l <= n)%nat -> trailing n l = l.
Proof.
  intros H. unfold trailing.
  replace (length l - n)%nat with O by lia. reflexivity.
Qed.

(** X12: On a series of at most 5 points with finite volumes the recent
    window and the baseline window are both the whole series, and the volume
    score is zero. *)
Theorem few_points_give_zero_volume_score clock df e t s r (qs : list Q) :
  fst (calculate_trend_score clock (Some df) e t s) = Some r ->
  len df <= 5 ->
  map Volume (rows df) = map Fin qs ->
  feq (volume_trend_score r) (Fin 0).
Proof.
  intros Hr Hlen Hvols.
  destruct (calculate_trend_score_parts _ _ _ _ _ _ Hr)
    as (df' & Hdf & Hne & _ & _ & Hvol & _).
  inversion Hdf. subst df'. clear Hdf.
  assert (Hl : (length (map Volume (rows df)) <= 5)%nat)
    by (rewrite length_map; unfold len in Hlen; lia).
  rewrite Hvol. unfold recent_volume.
  rewrite slice_from_last_five, (trailing_all 5 _ Hl).
  rewrite baseline_volume_window. unfold baseline_window.
  destruct (Nat.ltb_spec 30 (length (map Volume (rows df)))); [lia |].
  rewrite Hvols.
  assert (Hq : qs <> []).
  { intros E. subst qs. destruct (rows df); [congruence | discriminate]. }
  rewrite (mean_finite qs Hq).
  set (m := (fold_left Qplus qs 0 / inject_Z (Z.of_nat (length qs)))%Q).
  unfold volume_trend, fgt, flt.
  destruct (Qcompare_spec 0 m) as [E | L | G]; simpl; try reflexivity.
  rewrite (sgn_positive m L). simpl.
  assert (Hx : (m / m == 1)%Q).
  { unfold Qdiv. apply Qmult_inv_r. intros E. rewrite E in L.
    apply (Qlt_irrefl 0). exact L. }
  rewrite Hx. reflexivity.
Qed.

Lemma few_points_give_zero_volume_score_witness :
  exists r,
    fst (calculate_trend_score ticks (Some two_days) None "X"%string 0%nat)
    = Some r
    /\ feq (volume_trend_score r) (Fin 0).
Proof.
  eexists. split; [reflexivity |].
  apply (few_points_give_zero_volume_score ticks two_days None "X"%string
           0%nat _ [5 # 1; 7 # 1]%Q).
  - reflexivity.
  - unfold len. simpl. lia.
  - reflexivity.
Defined.

(** ** The earnings analysis, continued *)

(** X14: analyze_price_action_after_earnings returns a result exactly when
    the earnings list is present, non-empty and carries both forward-return
    columns; the result counts every event of the list, and it holds the
    surprise statistics exactly when the list carries surprise_percent. *)
Theorem earnings_analysis_returned_iff corr h e ticker :
  ((exists r, analyze_price_action_after_earnings corr h e ticker = Some r)
   <-> exists ef,
         e = Some ef /\ rows ef <> []
         /\ has_col "price_1d_change" ef = true
         /\ has_col "price_5d_change" ef = true)
  /\ forall ef r,
       e = Some ef ->
       analyze_price_action_after_earnings corr h e ticker = Some r ->
       earnings_count r = Z.of_nat (length (rows ef))
       /\ (surprise_stats r <> None
           <-> has_col "surprise_percent" ef = true).
Proof.
  unfold analyze_price_action_after_earnings.
  destruct e as [ef |].
  - split.
    + split.
      * intros (r & H). exists ef.
        destruct (empty ef) eqn:He; [discriminate |].
        destruct (has_col "price_1d_change" ef) eqn:H1; [| discriminate].
        destruct (has_col "price_5d_change" ef) eqn:H5; [| discriminate].
        repeat split. apply empty_rows. assumption.
      * intros (ef' & E & Hne & H1 & H5). inversion E. subst ef'.
        rewrite (empty_false _ ef Hne H1), H1, H5. simpl.
        destruct (has_col "surprise_percent" ef); eauto.
    + intros ef' r E H. inversion E. subst ef'.
      destruct (empty ef); [discriminate |].
      destruct (has_col "price_1d_change" ef && has_col "price_5d_change" ef);
        [| discriminate].
      unfold len in H.
      destruct (has_col "surprise_percent" ef); inversion H; simpl;
        (split; [reflexivity |]); split; congruence.
  - split; [| intros ? ? ?; discriminate].
    split; [intros (r & H); discriminate |].
    intros (ef & E & _). discriminate.
Qed.

Lemma earnings_analysis_returned_iff_witness :
  exists r,
    analyze_price_action_after_earnings no_corr (Some two_days)
      (Some no_surprise) "X"%string = Some r.
Proof.
  apply (proj2 (proj1 (earnings_analysis_returned_iff no_corr
                         (Some two_days) (Some no_surprise) "X"%string))).
  exists no_surprise. repeat split; try reflexivity. discriminate.
Defined.

Lemma filter_nil_iff {A : Type} (P : A -> bool) l :
  filter P l = [] <-> Forall (fun x => P x = false) l.
Proof.
  induction l as [| x l IH]; simpl.
  - split; auto.
  - destruct (P x) eqn:E.
    + split; [discriminate |]. intros H. inversion H. congruence.
    + rewrite IH. split; [intros H; constructor; assumption |].
      intros H. inversion H. assumption.
Qed.

Lemma mean_if_any_none field (P : EarningsRow -> bool) e :
  columns e <> [] ->
  (mean_if_any field (select P e) = None
   <-> Forall (fun row => P row = false) (rows e)).
Proof.
  intros Hc. unfold mean_if_any, select, empty. simpl rows. simpl columns.
  rewrite <- filter_nil_iff.
  destruct (columns e); [congruence |].
  destruct (filter P (rows e)); simpl; split; congruence.
Qed.

Lemma analysed_earnings_not_empty corr h e ticker r :
  analyze_price_action_after_earnings corr h (Some e) ticker = Some r ->
  columns e <> [].
Proof.
  unfold analyze_price_action_after_earnings.
  destruct (empty e) eqn:He; [discriminate |].
  intros _. apply empty_columns. assumption.
Qed.

Lemma mean_if_any_select_twice field (P Q : EarningsRow -> bool) e :
  (forall x, P x = true -> Q x = true) ->
  mean_if_any field (select P (select Q e)) = mean_if_any field (select P e).
Proof.
  intros H. unfold mean_if_any, select, empty. simpl rows.
  rewrite (filter_filter_implied P Q (rows e) H). reflexivity.
Qed.

(** The long form of the earnings analysis. *)
Lemma surprise_stats_of corr h e ticker r st :
  analyze_price_action_after_earnings corr h (Some e) ticker = Some r ->
  surprise_stats r = Some st ->
  st = mkStats
         (mean_if_any price_1d_change
            (select (fun row => fgt (surprise_percent row) (Fin 0)) e))
         (mean_if_any price_5d_change
            (select (fun row => fgt (surprise_percent row) (Fin 0)) e))
         (mean_if_any price_1d_change
            (select (fun row => flt (surprise_percent row) (Fin 0)) e))
         (mean_if_any price_5d_change
            (select (fun row => flt (surprise_percent row) (Fin 0)) e))
         (corr_if_many corr price_1d_change e)
         (corr_if_many corr price_5d_change e).
Proof.
  unfold analyze_price_action_after_earnings.
  destruct (empty e); [discriminate |].
  destruct (has_col "price_1d_change" e && has_col "price_5d_change" e);
    [| discriminate].
  destruct (has_col "surprise_percent" e); intros H; inversion H; subst r;
    simpl; intros Hst; congruence.
Qed.

(** X15: The split averages of the earnings analysis: the average after
    positive (negative) surprises is absent exactly when no event has a
    surprise above (below) zero; the correlation is absent exactly when
    there is at most one event; and the events whose surprise is zero or
    missing belong to neither group, so the four split averages are the same
    with and without them. *)
Theorem split_averages_ignore_zero_surprises corr h e ticker r st :
  analyze_price_action_after_earnings corr h (Some e) ticker = Some r ->
  surprise_stats r = Some st ->
  (avg_1d_after_positive_surprise st = None
   <-> Forall (fun row => fgt (surprise_percent row) (Fin 0) = false)
              (rows e))
  /\ (avg_1d_after_negative_surprise st = None
      <-> Forall (fun row => flt (surprise_percent row) (Fin 0) = false)
                 (rows e))
  /\ (surprise_1d_correlation st = None <-> len e <= 1)
  /\ forall r' st',
       analyze_price_action_after_earnings corr h
         (Some (select (fun row => fgt (surprise_percent row) (Fin 0)
                                   || flt (surprise_percent row) (Fin 0)) e))
         ticker = Some r' ->
       surprise_stats r' = Some st' ->
       avg_1d_after_positive_surprise st' = avg_1d_after_positive_surprise st
       /\ avg_5d_after_positive_surprise st'
          = avg_5d_after_positive_surprise st
       /\ avg_1d_after_negative_surprise st'
          = avg_1d_after_negative_surprise st
       /\ avg_5d_after_negative_surprise st'
          = avg_5d_after_negative_surprise st.
Proof.
  intros Hr Hst.
  pose proof (analysed_earnings_not_empty _ _ _ _ _ Hr) as Hcols.
  rewrite (surprise_stats_of _ _ _ _ _ _ Hr Hst).
  split; [simpl; apply mean_if_any_none; assumption |].
  split; [simpl; apply mean_if_any_none; assumption |].
  split.
  - simpl. unfold corr_if_many. destruct (Z.gtb_spec (len e) 1); split;
      intros; try discriminate; try reflexivity; lia.
  - intros r' st' Hr' Hst'.
    rewrite (surprise_stats_of _ _ _ _ _ _ Hr' Hst'). simpl.
    repeat split; apply mean_if_any_select_twice; intros x Hx;
      rewrite Hx; auto using orb_true_r.
Qed.

Lemma split_averages_ignore_zero_surprises_witness :
  exists r st,
    analyze_price_action_after_earnings no_corr (Some two_days)
      (Some mixed_surprises) "X"%string = Some r
    /\ surprise_stats r = Some st
    /\ (avg_1d_after_positive_surprise st = None
        <-> Forall (fun row => fgt (surprise_percent row) (Fin 0) = false)
                   (rows mixed_surprises))
    /\ (surprise_1d_correlation st = None <-> len mixed_surprises <= 1).
Proof.
  do 2 eexists. split; [reflexivity |]. split; [reflexivity |].
  destruct (split_averages_ignore_zero_surprises no_corr (Some two_days)
              mixed_surprises "X"%string _ _ eq_refl eq_refl)
    as (Hpos & _ & Hcorr & _).
  split; assumption.
Defined.

(** ** The alignment walk, continued *)

Lemma closest_walk_first hist a : forall fuel c,
  a + 4 - c <= Z.of_nat fuel ->
  exists d,
    closest_walk fuel hist a c = Some d
    /\ c <= d
    /\ (d <= a + 4 \/ d = c)
    /\ (forall d', c <= d' < d -> in_index d' hist = false)
    /\ (in_index d hist = false -> a + 3 < d).
Proof.
  induction fuel as [| fuel IH]; intros c Hf; simpl.
  - destruct (in_index c hist) eqn:Hi; simpl.
    + exists c. repeat split; auto; try lia; try congruence.
    + destruct (Z.leb_spec c (a + 3)); [lia |].
      exists c. repeat split; auto; lia.
  - destruct (in_index c hist) eqn:Hi; simpl.
    + exists c. repeat split; auto; try lia; try congruence.
    + destruct (Z.leb_spec c (a + 3)).
      * destruct (IH (c + 1)) as (d & -> & Hcd & Hd & Hskip & Hout); [lia |].
        exists d. repeat split; auto; try lia.
        intros d' Hd'. destruct (Z.eq_dec d' c) as [-> | Hne];
          [assumption | apply Hskip; lia].
      * exists c. repeat split; auto; lia.
Qed.

(** X16: The anchor loop always ends, within 4 calendar days of the
    announcement; no date it passed over is a trading day, so when it stops
    on a trading day this is the first one at or after the announcement; it
    stops on a date outside the series only at [a + 4]. *)
Theorem anchor_is_first_trading_day hist a :
  exists d,
    find_closest hist a = Some d
    /\ a <= d <= a + 4
    /\ (forall d', a <= d' < d -> in_index d' hist = false)
    /\ (in_index d hist = false -> d = a + 4).
Proof.
  unfold find_closest.
  destruct (closest_walk_first hist a 4%nat a)
    as (d & -> & H1 & H2 & H3 & H4); [lia |].
  exists d. repeat split; auto; try lia.
  intros Hout. specialize (H4 Hout). lia.
Qed.

Lemma anchor_is_first_trading_day_witness :
  exists d,
    find_closest (serve late_open (-1) 6) 0 = Some d
    /\ 0 <= d <= 0 + 4
    /\ (forall d', 0 <= d' < d ->
                   in_index d' (serve late_open (-1) 6) = false)
    /\ (in_index d (serve late_open (-1) 6) = false -> d = 0 + 4).
Proof.
  apply (anchor_is_first_trading_day (serve late_open (-1) 6) 0).
Defined.

Lemma in_index_loc_close hist d :
  has_col "Close" hist = true -> in_index d hist = true ->
  exists c, loc_close d hist = Some c.
Proof.
  intros Hc Hin. unfold loc_close, in_index in *. rewrite Hc.
  apply existsb_exists in Hin. destruct Hin as (row & Hrow & Hdate).
  destruct (find (fun r => Date r =? d) (rows hist)) eqn:E; simpl; eauto.
  pose proof (find_none _ _ E row Hrow) as Hn. simpl in Hn. congruence.
Qed.

Lemma horizon_loop_total hist a c days :
  has_col "Close" hist = true -> in_index c hist = true ->
  forall price_changes,
    exists entries, horizon_loop hist a c days price_changes = Some entries.
Proof.
  intros Hc Hin. induction days as [| d days IH]; intros price_changes;
    simpl; [eauto |].
  destruct (find_future_ends hist a c d) as (f & n & ->). simpl.
  destruct (in_index f hist) eqn:Hf; [| apply IH].
  unfold percent_change.
  destruct (in_index_loc_close hist f Hc Hf) as (cf & ->).
  destruct (in_index_loc_close hist c Hc Hin) as (cc & ->).
  apply IH.
Qed.

Lemma horizon_changes_total hist a c days :
  has_col "Close" hist = true -> in_index c hist = true ->
  exists entries, horizon_changes hist a c days = Some entries.
Proof. intros Hc Hin. apply horizon_loop_total; assumption. Qed.

Lemma event_changes_some_iff hist days a :
  has_col "Close" hist = true ->
  (exists ev, event_changes hist days a = Some ev)
  <-> exists d, a <= d <= a + 4 /\ in_index d hist = true.
Proof.
  intros Hc. unfold event_changes, find_closest.
  destruct (closest_walk_first hist a 4%nat a)
    as (d & -> & Hrange & Hbound & Hskip & Hout); [lia |].
  destruct (in_index d hist) eqn:Hin; simpl.
  - destruct (horizon_changes_total hist a d days Hc Hin) as (entries & ->).
    split; [intros _; exists d; split; [lia | assumption] | eauto].
  - split; [intros (ev & H); discriminate |].
    intros (d' & Hd' & Hin'). specialize (Hout eq_refl).
    assert (d = a + 4) by lia. subst d.
    destruct (Z.eq_dec d' (a + 4)) as [-> | Hne]; [congruence |].
    rewrite Hskip in Hin' by lia. discriminate.
Qed.

Lemma event_changes_date hist days a ev :
  event_changes hist days a = Some ev -> pc_announcement_date ev = a.
Proof.
  unfold event_changes.
  destruct (find_closest hist a); [| discriminate].
  destruct (negb (in_index z hist)); [discriminate |].
  destruct (horizon_changes hist a z days); [| discriminate].
  intros H. inversion H. reflexivity.
Qed.

(** X17: An earnings event is kept exactly when one of the calendar days [a
    .. a + 4] is a trading day of the history (the history carrying its
    Close column); a kept event is recorded under its own announcement date. *)
Theorem event_kept_iff hist days a :
  has_col "Close" hist = true ->
  ((exists ev, event_changes hist days a = Some ev)
   <-> exists d, a <= d <= a + 4 /\ in_index d hist = true)
  /\ forall ev, event_changes hist days a = Some ev ->
                pc_announcement_date ev = a.
Proof.
  intros Hc. split.
  - apply event_changes_some_iff. assumption.
  - apply event_changes_date.
Qed.

Lemma event_kept_iff_witness :
  exists ev, event_changes (serve late_open (-1) 6) [1; 5] 0 = Some ev.
Proof.
  apply (proj2 (proj1 (event_kept_iff (serve late_open (-1) 6) [1; 5] 0
                         eq_refl))).
  exists 4. split; [lia | reflexivity].
Defined.

Lemma trading_days_none hist c : trading_days_between hist c c = 0%nat.
Proof.
  unfold trading_days_between. rewrite Z.sub_diag. reflexivity.
Qed.

Lemma trading_days_step hist c f :
  c <= f ->
  trading_days_between hist c (f + 1)
  = (trading_days_between hist c f
     + if in_index (f + 1) hist then 1 else 0)%nat.
Proof.
  intros Hcf. unfold trading_days_between.
  replace (Z.to_nat (f + 1 - c)) with (S (Z.to_nat (f - c))) by lia.
  rewrite seq_S, map_app, filter_app, length_app. simpl.
  replace (c + 1 + Z.of_nat (Z.to_nat (f - c))) with (f + 1) by lia.
  destruct (in_index (f + 1) hist); reflexivity.
Qed.

Lemma trading_days_mono hist c f (k : nat) :
  c <= f ->
  (trading_days_between hist c f
   <= trading_days_between hist c (f + Z.of_nat k))%nat.
Proof.
  intros Hcf. induction k as [| k IH].
  - replace (f + Z.of_nat 0) with f by lia. lia.
  - replace (f + Z.of_nat (S k)) with (f + Z.of_nat k + 1) by lia.
    rewrite trading_days_step by lia. lia.
Qed.

Lemma trading_days_le hist c f g :
  c <= f <= g ->
  (trading_days_between hist c f <= trading_days_between hist c g)%nat.
Proof.
  intros H. replace g with (f + Z.of_nat (Z.to_nat (g - f))) by lia.
  apply trading_days_mono. lia.
Qed.

Lemma trading_days_lt hist c f g :
  c <= f < g -> in_index g hist = true ->
  (trading_days_between hist c f < trading_days_between hist c g)%nat.
Proof.
  intros H Hin.
  pose proof (trading_days_le hist c f (g - 1) ltac:(lia)) as Hle.
  pose proof (trading_days_step hist c (g - 1) ltac:(lia)) as Hstep.
  replace (g - 1 + 1) with g in Hstep by lia.
  rewrite Hin in Hstep. lia.
Qed.

(** The invariant of the horizon loop. *)
Lemma future_walk_counts hist a c day : forall fuel f0 n0,
  a + (day + 5) - f0 <= Z.of_nat fuel ->
  c <= f0 ->
  n0 = Z.of_nat (trading_days_between hist c f0) ->
  exists f n,
    future_walk fuel hist a day f0 n0 = Some (f, n)
    /\ f0 <= f
    /\ n = Z.of_nat (trading_days_between hist c f)
    /\ (n0 <= day -> n <= day)
    /\ (f <= a + (day + 5) \/ f = f0)
    /\ (n < day -> a + (day + 5) <= f)
    /\ (day <= n0 -> f = f0)
    /\ (n0 < day -> n = day -> in_index f hist = true).
Proof.
  induction fuel as [| fuel IH]; intros f0 n0 Hfuel Hc Hn0; simpl.
  - destruct (Z.ltb_spec n0 day) as [Hlt | Hge]; simpl.
    + destruct (Z.ltb_spec f0 (a + (day + 5))); [lia |].
      exists f0, n0. repeat split; auto; lia.
    + exists f0, n0. repeat split; auto; lia.
  - destruct (Z.ltb_spec n0 day) as [Hlt | Hge]; simpl.
    + destruct (Z.ltb_spec f0 (a + (day + 5))) as [Hb | Hb].
      * pose proof (trading_days_step hist c f0 Hc) as Hstep.
        destruct (IH (f0 + 1)
                     (if in_index (f0 + 1) hist then n0 + 1 else n0))
          as (f & n & -> & Hf & Hn & Hle & Hbound & Hshort & Hstop & Hlast).
        -- lia.
        -- lia.
        -- rewrite Hstep. destruct (in_index (f0 + 1) hist); lia.
        -- exists f, n. split; [reflexivity |].
           split; [lia |]. split; [assumption |].
           split; [intros _; apply Hle;
                   destruct (in_index (f0 + 1) hist); lia |].
           split; [left; lia |].
           split; [assumption |].
           split; [lia |].
           intros _ Hday.
           destruct (in_index (f0 + 1) hist) eqn:Hin.
           ++ destruct (Z.eq_dec (n0 + 1) day) as [E | Hne].
              ** rewrite (Hstop ltac:(lia)). assumption.
              ** apply Hlast; [lia | assumption].
           ++ apply Hlast; assumption.
      * exists f0, n0. repeat split; auto; lia.
    + exists f0, n0. repeat split; auto; lia.
Qed.

Lemma find_future_counts hist a c day :
  1 <= day ->
  exists f n,
    find_future hist a c day = Some (f, n)
    /\ c <= f
    /\ n = Z.of_nat (trading_days_between hist c f)
    /\ n <= day
    /\ (n = day -> in_index f hist = true /\ f <= a + (day + 5))
    /\ (n < day -> a + (day + 5) <= f).
Proof.
  intros Hday. unfold find_future.
  destruct (future_walk_counts hist a c day
              (Z.to_nat (a + (day + 5) - c)) c 0)
    as (f & n & -> & Hf & Hn & Hle & Hbound & Hshort & _ & Hlast).
  - lia.
  - lia.
  - rewrite trading_days_none. reflexivity.
  - exists f, n.
    split; [reflexivity |]. split; [assumption |]. split; [assumption |].
    split; [apply Hle; lia |]. split; [| assumption].
    intros E. split; [apply Hlast; lia |].
    destruct Hbound as [Hb | Hb]; [assumption |].
    subst f. rewrite trading_days_none in Hn. lia.
Qed.


(** X18: The horizon loop over [day >= 1] trading days always ends; the
    number it has counted is the number of trading days after the anchor up
    to the date it stopped on, and never exceeds [day]; when it has counted
    [day] of them, the date it stopped on is a trading day no later than [a
    + day + 5], that is the [day]-th trading day after the anchor; when it
    has counted fewer, it has reached the bound [a + day + 5]. *)
Theorem horizon_walk_counts_trading_days hist a c day :
  1 <= day ->
  exists f n,
    find_future hist a c day = Some (f, n)
    /\ c <= f
    /\ n = Z.of_nat (trading_days_between hist c f)
    /\ n <= day
    /\ (n = day -> in_index f hist = true /\ f <= a + (day + 5))
    /\ (n < day -> a + (day + 5) <= f).
Proof. apply find_future_counts. Qed.

Lemma horizon_walk_counts_trading_days_witness :
  exists f n,
    find_future (serve halted (-1) 106) 0 0 1 = Some (f, n)
    /\ 0 <= f
    /\ n = Z.of_nat (trading_days_between (serve halted (-1) 106) 0 f)
    /\ n <= 1
    /\ (n = 1 -> in_index f (serve halted (-1) 106) = true /\ f <= 0 + (1 + 5))
    /\ (n < 1 -> 0 + (1 + 5) <= f).
Proof.
  apply (horizon_walk_counts_trading_days (serve halted (-1) 106) 0 0 1).
  lia.
Defined.

(** X19: When the [day]-th trading day after the anchor lies within the
    bound of [day + 5] calendar days past the announcement, the event's
    entry for that horizon is the change from the anchor's close to the
    close of that day, in percent of the anchor's close. *)
Theorem forward_return_to_nth_trading_day hist a c day g
    (anchor_close future_close : float64) :
  1 <= day ->
  c < g <= a + (day + 5) ->
  in_index g hist = true ->
  Z.of_nat (trading_days_between hist c g) = day ->
  loc_close c hist = Some anchor_close ->
  loc_close g hist = Some future_close ->
  find_future hist a c day = Some (g, day)
  /\ horizon_changes hist a c [day]
     = Some [(day,
              fmul (fdiv (fsub future_close anchor_close) anchor_close)
                   (Fin 100))].
Proof.
  intros Hday Hg Hin Hcount Hca Hcg.
  destruct (find_future_counts hist a c day Hday)
    as (f & n & Hwalk & Hcf & Hn & Hle & Hfull & Hshort).
  assert (En : n = day).
  { destruct (Z.eq_dec n day) as [E | Hne]; [assumption |].
    assert (Hb : a + (day + 5) <= f) by (apply Hshort; lia).
    pose proof (trading_days_le hist c g f ltac:(lia)). lia. }
  destruct (Hfull En) as [Hinf Hfb].
  assert (Ef : f = g).
  { destruct (Z.lt_trichotomy f g) as [L | [E | G]]; [| assumption |].
    - pose proof (trading_days_lt hist c f g ltac:(lia) Hin). lia.
    - pose proof (trading_days_lt hist c g f ltac:(lia) Hinf). lia. }
  rewrite Ef, En in Hwalk. split; [assumption |].
  unfold horizon_changes. simpl. rewrite Hwalk. simpl. rewrite Hin.
  unfold percent_change. rewrite Hcg, Hca. reflexivity.
Qed.

Lemma forward_return_to_nth_trading_day_witness :
  find_future (serve late_open (-1) 6) 0 4 1 = Some (5, 1)
  /\ horizon_changes (serve late_open (-1) 6) 0 4 [1]
     = Some [(1, fmul (fdiv (fsub (Fin 110) (Fin 100)) (Fin 100))
                      (Fin 100))].
Proof.
  apply (forward_return_to_nth_trading_day (serve late_open (-1) 6) 0 4 1 5
           (Fin 100) (Fin 110)).
  - lia.
  - lia.
  - reflexivity.
  - reflexivity.
  - reflexivity.
  - reflexivity.
Defined.

Lemma horizon_loop_keys hist a c days : forall price_changes entries,
  horizon_loop hist a c days price_changes = Some entries ->
  map fst entries
  = fold_left
      (fun ks day =>
         if match find_future hist a c day with
            | Some found => in_index (fst found) hist
            | None => false
            end
         then if existsb (Z.eqb day) ks then ks else ks ++ [day]
         else ks)
      days (map fst price_changes).
Proof.
  induction days as [| day days IH]; intros price_changes entries H;
    simpl in H.
  - inversion H. reflexivity.
  - destruct (find_future hist a c day) as [found |] eqn:Hf;
      [| discriminate].
    simpl fold_left. rewrite Hf.
    destruct (in_index (fst found) hist).
    + destruct (percent_change hist c (fst found)); [| discriminate].
      rewrite (IH _ _ H), assign_keys. reflexivity.
    + apply (IH _ _ H).
Qed.

Lemma horizon_changes_keys hist a c days entries :
  horizon_changes hist a c days = Some entries ->
  exists keep : Z -> bool, map fst entries = filter keep (distinct days).
Proof.
  intros H.
  rewrite (horizon_loop_keys _ _ _ _ _ _ H).
  rewrite (assigned_keys
             (fun day => match find_future hist a c day with
                         | Some found => in_index (fst found) hist
                         | None => false
                         end)).
  eexists. reflexivity.
Qed.

Lemma kept_events_dates hist days dates :
  map pc_announcement_date
      (flat_map (fun a => match event_changes hist days a with
                          | Some e => [e]
                          | None => []
                          end) dates)
  = filter (fun a => match event_changes hist days a with
                     | Some _ => true
                     | None => false
                     end) dates.
Proof.
  induction dates as [| a dates IH]; simpl; [reflexivity |].
  destruct (event_changes hist days a) as [ev |] eqn:E; simpl.
  - rewrite IH. f_equal. apply (event_changes_date _ _ _ _ E).
  - assumption.
Qed.

(** X20: The table calculate_post_earnings_movement returns is never empty;
    its rows are announcement dates of the input, each at most as often as
    supplied and in the order supplied, and the horizon entries of every row
    are horizons of [days], each at most once, in the order of their first
    occurrence in [days]. With no horizon, no announcement date or an empty
    history nothing is returned. *)
Theorem movement_table_shape history dates days :
  (forall results,
     calculate_post_earnings_movement history dates days = Some results ->
     results <> []
     /\ (exists keep : Z -> bool,
           map pc_announcement_date results = filter keep dates)
     /\ Forall (fun ev => exists keep : Z -> bool,
                            map fst (changes ev)
                            = filter keep (distinct days))
               results)
  /\ (days = [] \/ dates = [] ->
      calculate_post_earnings_movement history dates days = None)
  /\ ((forall start_date end_date, rows (history start_date end_date) = []) ->
      calculate_post_earnings_movement history dates days = None).
Proof.
  unfold calculate_post_earnings_movement.
  split; [| split].
  - intros results H.
    destruct days as [| d ds]; [discriminate |].
    destruct dates as [| a dates]; [discriminate |].
    set (hist := history _ _) in H.
    destruct (empty hist); [discriminate |].
    set (res := flat_map _ (a :: dates)) in H.
    assert (Hres : res = results)
      by (destruct res; [discriminate | congruence]).
    split; [destruct res; [discriminate | congruence] |].
    rewrite <- Hres. split.
    + eexists. apply kept_events_dates.
    + apply Forall_forall. intros ev Hev.
      apply in_flat_map in Hev. destruct Hev as (a' & _ & Hev).
      destruct (event_changes hist (d :: ds) a') as [ev' |] eqn:E;
        [| contradiction].
      destruct Hev as [<- | []].
      unfold event_changes in E.
      destruct (find_closest hist a') as [c |]; [| discriminate].
      destruct (negb (in_index c hist)); [discriminate |].
      destruct (horizon_changes hist a' c (d :: ds)) as [entries |] eqn:Hh;
        [| discriminate].
      inversion E. simpl.
      apply (horizon_changes_keys _ _ _ _ _ Hh).
  - intros [-> | ->]; [reflexivity |]. destruct days; reflexivity.
  - intros Hempty.
    destruct days as [| d ds]; [reflexivity |].
    destruct dates as [| a dates]; [reflexivity |].
    rewrite empty_no_rows by apply Hempty. reflexivity.
Qed.

Lemma movement_table_shape_witness :
  [mkChanges 0 [(5, Fin (1000 # 100))]] <> []
  /\ (exists keep : Z -> bool,
        map pc_announcement_date [mkChanges 0 [(5, Fin (1000 # 100))]]
        = filter keep [0; 100])
  /\ Forall (fun ev => exists keep : Z -> bool,
                         map fst (changes ev)
                         = filter keep (distinct [5; 1; 5]))
            [mkChanges 0 [(5, Fin (1000 # 100))]].
Proof.
  apply (proj1 (movement_table_shape (serve halted) [0; 100] [5; 1; 5])).
  reflexivity.
Defined.

(** ** The ticker lists *)

Lemma replace_removes old new s :
  old <> new -> ~ In old (list_ascii_of_string (replace old new s)).
Proof.
  intros Hne. induction s as [| c s IH]; simpl; [tauto |].
  intros [E | Hin]; [| contradiction].
  destruct (Ascii.eqb_spec c old) as [-> | Hc]; congruence.
Qed.

Lemma replace_length old new s :
  String.length (replace old new s) = String.length s.
Proof. induction s as [| c s IH]; simpl; congruence. Qed.

Lemma replace_without old new s :
  ~ In old (list_ascii_of_string s) -> replace old new s = s.
Proof.
  induction s as [| c s IH]; simpl; [reflexivity |].
  intros H. destruct (Ascii.eqb_spec c old) as [-> | Hc].
  - exfalso. apply H. left. reflexivity.
  - rewrite IH; [reflexivity |]. intros Hin. apply H. right. assumption.
Qed.

(** X21: get_sp500_tickers returns one ticker per fetched symbol, in order
    and of the same length, none of which holds a dot; a symbol without a
    dot is returned as it is; when the page cannot be read the list is
    empty. *)
Theorem sp500_tickers_have_no_dot read_html :
  Forall (fun t => ~ In "."%char (list_ascii_of_string t))
         (get_sp500_tickers read_html)
  /\ (forall symbols,
        read_html sp500_url = Some symbols ->
        length (get_sp500_tickers read_html) = length symbols
        /\ forall i s,
             nth_error symbols i = Some s ->
             exists t,
               nth_error (get_sp500_tickers read_html) i = Some t
               /\ String.length t = String.length s
               /\ (~ In "."%char (list_ascii_of_string s) -> t = s))
  /\ (read_html sp500_url = None -> get_sp500_tickers read_html = []).
Proof.
  unfold get_sp500_tickers.
  destruct (read_html sp500_url) as [symbols |].
  - split; [| split; [| discriminate]].
    + apply Forall_map, Forall_forall. intros s _.
      apply replace_removes. discriminate.
    + intros symbols' E. inversion E. subst symbols'.
      split; [apply length_map |].
      intros i s Hi. rewrite nth_error_map, Hi. simpl.
      eexists. split; [reflexivity |].
      split; [apply replace_length | apply replace_without].
  - split; [constructor |]. split; [discriminate | reflexivity].
Qed.

Lemma sp500_tickers_have_no_dot_witness :
  length (get_sp500_tickers (fun _ => Some ["BRK.B"; "AAPL"]%string))
  = length ["BRK.B"; "AAPL"]%string
  /\ forall i s,
       nth_error ["BRK.B"; "AAPL"]%string i = Some s ->
       exists t,
         nth_error (get_sp500_tickers
                      (fun _ => Some ["BRK.B"; "AAPL"]%string)) i = Some t
         /\ String.length t = String.length s
         /\ (~ In "."%char (list_ascii_of_string s) -> t = s).
Proof.
  apply (proj1 (proj2 (sp500_tickers_have_no_dot
                         (fun _ => Some ["BRK.B"; "AAPL"]%string)))).
  reflexivity.
Defined.

Lemma In_fromkeys x l : In x (fromkeys l) <-> In x l.
Proof.
  induction l as [| y l IH]; simpl; [tauto |].
  rewrite filter_In, IH.
  destruct (String.eqb_spec y x) as [-> | Hne]; simpl.
  - split; [intros [? | [? ?]]; auto | auto].
  - split; [intros [? | [? ?]]; auto |].
    intros [? | ?]; auto.
Qed.

Lemma NoDup_fromkeys l : NoDup (fromkeys l).
Proof.
  induction l as [| y l IH]; simpl; constructor.
  - rewrite filter_In. intros [_ H]. rewrite String.eqb_refl in H.
    discriminate.
  - apply NoDup_filter. assumption.
Qed.

Lemma slice_prefix {A : Type} (limit : Z) (l : list A) :
  0 <= limit -> slice 0 limit l = firstn (Z.to_nat limit) l.
Proof.
  intros H. unfold slice, clip.
  destruct (Z.ltb_spec limit 0); [lia |].
  change (0 <? 0) with false. cbv iota.
  replace (Z.to_nat (Z.max 0 (Z.min (Z.of_nat (length l)) 0))) with O
    by lia.
  simpl skipn.
  replace (Z.max 0 (Z.min (Z.of_nat (length l)) limit)
           - Z.max 0 (Z.min (Z.of_nat (length l)) 0))
    with (Z.min (Z.of_nat (length l)) limit) by lia.
  destruct (Z.le_ge_cases (Z.of_nat (length l)) limit).
  - rewrite Z.min_l by lia. rewrite Nat2Z.id.
    rewrite !firstn_all2 by lia. reflexivity.
  - rewrite Z.min_r by lia. reflexivity.
Qed.

Lemma slice_sublist {A : Type} (start stop : Z) (l : list A) :
  exists before after, l = before ++ slice start stop l ++ after.
Proof.
  unfold slice.
  set (a := Z.to_nat (clip (Z.of_nat (length l)) start)).
  set (n := Z.to_nat _).
  exists (firstn a l), (skipn n (skipn a l)).
  rewrite (firstn_skipn n (skipn a l)), (firstn_skipn a l). reflexivity.
Qed.

Lemma extend_all_In read_html urls all_tickers t :
  extend_all read_html urls = Some all_tickers ->
  In t all_tickers ->
  exists url symbols,
    In url urls /\ read_html url = Some symbols /\ In t symbols.
Proof.
  revert all_tickers. induction urls as [| url urls IH];
    intros all_tickers H Hin; simpl in H.
  - inversion H. subst. contradiction.
  - destruct (read_html url) as [symbols |] eqn:E; [| discriminate].
    destruct (extend_all read_html urls) as [rest |]; [| discriminate].
    inversion H. subst all_tickers.
    apply in_app_or in Hin. destruct Hin as [Hin | Hin].
    + exists url, symbols. simpl. auto.
    + destruct (IH rest eq_refl Hin) as (url' & symbols' & H1 & H2 & H3).
      exists url', symbols'. simpl. auto.
Qed.

Lemma extend_all_complete read_html urls all_tickers url symbols t :
  extend_all read_html urls = Some all_tickers ->
  In url urls -> read_html url = Some symbols -> In t symbols ->
  In t all_tickers.
Proof.
  revert all_tickers. induction urls as [| u urls IH];
    intros all_tickers H Hurl Hread Hin; simpl in *; [contradiction |].
  destruct (read_html u) as [s |] eqn:E; [| discriminate].
  destruct (extend_all read_html urls) as [rest |]; [| discriminate].
  inversion H. subst all_tickers. apply in_or_app.
  destruct Hurl as [-> | Hurl].
  - left. congruence.
  - right. apply (IH rest eq_refl Hurl Hread Hin).
Qed.

Lemma extend_all_none read_html urls url :
  In url urls -> read_html url = None -> extend_all read_html urls = None.
Proof.
  induction urls as [| u urls IH]; intros Hin Hnone; simpl in *;
    [contradiction |].
  destruct Hin as [-> | Hin].
  - rewrite Hnone. reflexivity.
  - destruct (read_html u); [| reflexivity].
    rewrite (IH Hin Hnone). reflexivity.
Qed.

(** X22: get_trending_tickers returns distinct tickers, each read from one
    of the two pages; for a limit that is not negative it returns at most
    [limit] of them, and every ticker of the two pages when they hold no
    more than [limit] distinct ones; when either page cannot be read it
    returns the empty list. *)
Theorem trending_tickers_distinct_and_limited read_html limit :
  NoDup (get_trending_tickers read_html limit)
  /\ (forall t,
        In t (get_trending_tickers read_html limit) ->
        exists url symbols,
          In url trending_urls
          /\ read_html url = Some symbols /\ In t symbols)
  /\ (0 <= limit ->
      Z.of_nat (length (get_trending_tickers read_html limit)) <= limit)
  /\ (forall all_tickers,
        extend_all read_html trending_urls = Some all_tickers ->
        Z.of_nat (length (fromkeys all_tickers)) <= limit ->
        forall url symbols t,
          In url trending_urls -> read_html url = Some symbols ->
          In t symbols -> In t (get_trending_tickers read_html limit))
  /\ (forall url,
        In url trending_urls -> read_html url = None ->
        get_trending_tickers read_html limit = []).
Proof.
  unfold get_trending_tickers.
  destruct (extend_all read_html trending_urls) as [all_tickers |] eqn:E.
  - destruct (slice_sublist 0 limit (fromkeys all_tickers))
      as (before & after & Hsub).
    pose proof (NoDup_fromkeys all_tickers) as Hnd.
    split; [| split; [| split; [| split]]].
    + rewrite Hsub in Hnd.
      apply NoDup_app_remove_l in Hnd. apply NoDup_app_remove_r in Hnd.
      assumption.
    + intros t Hin. apply (extend_all_In read_html trending_urls _ t E).
      apply In_fromkeys. rewrite Hsub.
      apply in_or_app. right. apply in_or_app. left. assumption.
    + intros Hl. rewrite slice_prefix by assumption.
      rewrite length_firstn. lia.
    + intros all' E' Hlen url symbols t Hurl Hread Hin.
      inversion E'. subst all'.
      rewrite slice_prefix by lia. rewrite firstn_all2 by lia.
      apply In_fromkeys.
      apply (extend_all_complete _ _ _ _ _ _ E Hurl Hread Hin).
    + intros url Hurl Hnone.
      rewrite (extend_all_none _ _ _ Hurl Hnone) in E. discriminate.
  - split; [constructor |]. split; [intros t [] |].
    split; [simpl; lia |]. split; [discriminate | reflexivity].
Qed.

Lemma trending_tickers_distinct_and_limited_witness :
  Z.of_nat (length (get_trending_tickers
                      (fun _ => Some ["AAPL"; "TSLA"; "AAPL"]%string) 1))
  <= 1.
Proof.
  apply (proj1 (proj2 (proj2 (trending_tickers_distinct_and_limited
                                (fun _ => Some ["AAPL"; "TSLA"; "AAPL"]%string)
                                1)))).
  lia.
Defined.

(** ** The earnings table *)

Lemma has_col_rename_index name (df : Frame EarningsRow) :
  name <> "announcement_date"%string -> name <> "index"%string ->
  has_col name (rename_index df) = has_col name df.
Proof.
  intros Ha Hi. unfold has_col, rename_index. simpl columns.
  induction (columns df) as [| c cols IH]; simpl; [reflexivity |].
  rewrite IH. f_equal.
  destruct (String.eqb_spec c "index") as [-> | Hc].
  - apply String.eqb_neq in Ha, Hi. rewrite Ha, Hi. reflexivity.
  - reflexivity.
Qed.

Lemma has_col_add_ticker name (df : Frame EarningsRow) :
  name <> "ticker"%string ->
  has_col name (add_ticker df) = has_col name df.
Proof.
  intros Ht. unfold add_ticker.
  destruct (has_col "ticker" df); [reflexivity |].
  unfold has_col. simpl columns. rewrite existsb_app. simpl.
  apply String.eqb_neq in Ht. rewrite Ht. simpl.
  rewrite orb_false_r. reflexivity.
Qed.

Lemma has_ticker_add_ticker (df : Frame EarningsRow) :
  has_col "ticker" (add_ticker df) = true.
Proof.
  unfold add_ticker. destruct (has_col "ticker" df) eqn:E; [assumption |].
  unfold has_col. simpl columns. rewrite existsb_app. simpl.
  apply orb_true_r.
Qed.

Lemma rows_add_ticker (df : Frame EarningsRow) :
  rows (add_ticker df) = rows df.
Proof. unfold add_ticker. destruct (has_col "ticker" df); reflexivity. Qed.

Lemma has_index_rename_index (df : Frame EarningsRow) :
  has_col "index" (rename_index df) = false.
Proof.
  unfold has_col, rename_index. simpl columns.
  induction (columns df) as [| c cols IH]; [reflexivity |].
  cbn [map existsb]. rewrite IH, orb_false_r.
  destruct (String.eqb_spec c "index") as [-> | Hc]; [reflexivity |].
  apply String.eqb_neq. congruence.
Qed.

(** The naming of a provider table. *)
Lemma named_table dates :
  has_col "index" (table dates) = false
  /\ has_col "announcement_date" (table dates) = false
  /\ forall name, index_name dates = Some name ->
                  ~ In name number_columns.
Proof.
  pose proof (named dates) as H. unfold well_named in H.
  apply andb_true_iff in H. destruct H as [H Hname].
  apply andb_true_iff in H. destruct H as [Hi Ha].
  apply negb_true_iff in Hi, Ha.
  split; [assumption |]. split; [assumption |].
  intros name E Hin. rewrite E in Hname. apply negb_true_iff in Hname.
  assert (Hex : existsb (String.eqb name) number_columns = true)
    by (apply existsb_exists; exists name; split;
        [assumption | apply String.eqb_refl]).
  congruence.
Qed.

(** The index of a provider table is never renamed "level_0". *)
Lemma index_column_named dates :
  index_column dates
  = match index_name dates with
    | Some name => name
    | None => "index"%string
    end.
Proof.
  unfold index_column. destruct (named_table dates) as (-> & _).
  reflexivity.
Qed.

Lemma reset_index_some dates indexed :
  reset_index dates = Some indexed ->
  rows indexed = rows (table dates)
  /\ forall c, has_col c indexed
               = String.eqb c (index_column dates) || has_col c (table dates).
Proof.
  unfold reset_index.
  destruct (has_col (index_column dates) (table dates)); [discriminate |].
  intros H. inversion H. split; reflexivity.
Qed.

(** What get_earnings_data returns, when it returns a table. *)
Lemma get_earnings_data_some history dates df :
  get_earnings_data history (Some dates) = Some df ->
  exists indexed,
    reset_index dates = Some indexed
    /\ df = add_ticker (rename_index indexed)
    /\ rows df = rows (table dates)
    /\ has_col "announcement_date" df = true
    /\ calculate_post_earnings_movement history
         (map announcement_date (rows df)) [1; 5] = None.
Proof.
  unfold get_earnings_data.
  destruct (empty (table dates)) eqn:He; [discriminate |].
  destruct (reset_index dates) as [indexed |] eqn:Hi; [| discriminate].
  destruct (has_col "announcement_date" _) eqn:Ha; [| discriminate].
  destruct (calculate_post_earnings_movement _ _ _) eqn:Hm;
    [discriminate |].
  intros H. inversion H. subst df. exists indexed.
  repeat split; try assumption.
  rewrite rows_add_ticker. apply (reset_index_some _ _ Hi).
Qed.

Lemma fetched_column history dates df c :
  get_earnings_data history (Some dates) = Some df ->
  c <> "ticker"%string -> c <> "announcement_date"%string ->
  has_col c (table dates) = false -> index_name dates <> Some c ->
  has_col c df = false.
Proof.
  intros H Ht Ha Hcol Hname.
  destruct (get_earnings_data_some _ _ _ H)
    as (indexed & Hi & -> & _ & _ & _).
  rewrite has_col_add_ticker by assumption.
  destruct (String.eqb_spec c "index") as [-> | Hx];
    [apply has_index_rename_index |].
  rewrite has_col_rename_index by assumption.
  rewrite (proj2 (reset_index_some _ _ Hi) c), Hcol, orb_false_r.
  apply String.eqb_neq. rewrite index_column_named.
  destruct (index_name dates) as [name |]; congruence.
Qed.

Lemma no_analysis_without_column corr clock ticker h df s b :
  has_col "price_1d_change" df = false
  \/ has_col "price_5d_change" df = false ->
  fst (analyze_stock corr clock ticker h (Some df) s) = Some b ->
  earnings_analysis b = None.
Proof.
  intros Hmiss Hb. unfold analyze_stock in Hb.
  destruct h as [hist |]; [| discriminate].
  destruct (empty hist); [discriminate |].
  destruct (calculate_support_resistance clock hist ticker 252 2 s)
    as [sr s1].
  destruct (calculate_trend_score clock (Some hist) _ ticker s1) as [ts s2].
  simpl in Hb. inversion Hb. simpl.
  destruct (negb (empty _)); [| reflexivity].
  unfold analyze_price_action_after_earnings.
  destruct (empty _); [reflexivity |].
  destruct Hmiss as [-> | ->]; [reflexivity |].
  rewrite andb_false_r. reflexivity.
Qed.

(** X23: On a provider table whose data columns are not called "index" or
    "announcement_date" and whose index is not called like a number column,
    the table get_earnings_data returns holds the rows of the provider's
    table and its ticker and announcement_date columns; it is returned only
    when calculate_post_earnings_movement gave nothing, and besides ticker
    and announcement_date it has no column that is neither a data column
    nor the index of the provider's table, so never a forward-return column
    of its own.  Unless the provider itself supplies both price_1d_change
    and price_5d_change, the earnings_analysis of a bundle that
    analyze_stock builds from this table is therefore always None. *)
Theorem fetched_earnings_have_no_analysis history dates df :
  get_earnings_data history (Some dates) = Some df ->
  rows df = rows (table dates)
  /\ has_col "announcement_date" df = true
  /\ has_col "ticker" df = true
  /\ calculate_post_earnings_movement history
       (map announcement_date (rows df)) [1; 5] = None
  /\ (forall c,
        c <> "ticker"%string -> c <> "announcement_date"%string ->
        has_col c (table dates) = false -> index_name dates <> Some c ->
        has_col c df = false)
  /\ (has_col "price_1d_change" (table dates) = false
      \/ has_col "price_5d_change" (table dates) = false ->
      forall corr clock ticker h s b,
        fst (analyze_stock corr clock ticker h (Some df) s) = Some b ->
        earnings_analysis b = None).
Proof.
  intros H.
  destruct (get_earnings_data_some _ _ _ H)
    as (indexed & Hi & Hdf & Hrows & Ha & Hm).
  split; [assumption |]. split; [assumption |].
  split; [rewrite Hdf; apply has_ticker_add_ticker |].
  split; [assumption |].
  split; [intros c; apply (fetched_column _ _ _ c H) |].
  intros Hmiss corr clock ticker h s b Hb.
  destruct (named_table dates) as (_ & _ & Hname).
  eapply no_analysis_without_column; [| exact Hb].
  destruct Hmiss as [Hc | Hc]; [left | right];
    apply (fetched_column _ _ _ _ H); try assumption; try discriminate;
    intros E; apply (Hname _ E); simpl; auto.
Qed.

Lemma fetched_earnings_have_no_analysis_witness :
  exists df,
    get_earnings_data (serve []) (Some unaligned_dates) = Some df
    /\ rows df = rows (table unaligned_dates)
    /\ has_col "announcement_date" df = true
    /\ has_col "ticker" df = true
    /\ calculate_post_earnings_movement (serve [])
         (map announcement_date (rows df)) [1; 5] = None
    /\ has_col "level_0" df = false
    /\ forall corr clock ticker h s b,
         fst (analyze_stock corr clock ticker h (Some df) s) = Some b ->
         earnings_analysis b = None.
Proof.
  eexists. split; [reflexivity |].
  destruct (fetched_earnings_have_no_analysis (serve [])
              unaligned_dates _ eq_refl)
    as (Hrows & Ha & Ht & Hm & Hcols & Hnone).
  split; [assumption |]. split; [assumption |]. split; [assumption |].
  split; [assumption |]. split.
  - apply Hcols; discriminate || reflexivity.
  - apply Hnone. left. reflexivity.
Defined.

Lemma kept_event_gives_table history a0 rest d ds :
  let hist :=
    history (list_min a0 rest - 1)
            (list_max a0 rest + (list_max d ds + 1)) in
  has_col "Close" hist = true ->
  (exists a day, In a (a0 :: rest) /\ a <= day <= a + 4
                 /\ in_index day hist = true) ->
  exists results,
    calculate_post_earnings_movement history (a0 :: rest) (d :: ds)
    = Some results.
Proof.
  intros hist Hc (a & day & Hin & Hday & Hidx).
  unfold calculate_post_earnings_movement. fold hist.
  assert (Hne : empty hist = false).
  { apply (empty_false _ hist) with (2 := Hc). unfold in_index in Hidx.
    destruct (rows hist); [discriminate | discriminate]. }
  rewrite Hne.
  assert (Hev : exists ev, event_changes hist (d :: ds) a = Some ev)
    by (apply event_changes_some_iff; eauto).
  destruct Hev as (ev & Hev).
  set (results := flat_map _ (a0 :: rest)).
  assert (Hres : In ev results).
  { unfold results. apply in_flat_map. exists a. split; [assumption |].
    rewrite Hev. left. reflexivity. }
  destruct results; [contradiction | eauto].
Qed.

(** X24: On a provider table whose data columns are not called "index" or
    "announcement_date" and whose index is not called like a number column,
    get_earnings_data returns nothing as soon as one announcement date has
    a trading day among the 5 calendar days from it on in the history
    fetched for the alignment: the table of forward returns is then a
    DataFrame, whose truth value [if price_changes:] cannot take. *)
Theorem earnings_lost_when_an_event_aligns history dates a0 rest :
  map announcement_date (rows (table dates)) = a0 :: rest ->
  let hist := history (list_min a0 rest - 1) (list_max a0 rest + (5 + 1)) in
  has_col "Close" hist = true ->
  (exists a day, In a (a0 :: rest) /\ a <= day <= a + 4
                 /\ in_index day hist = true) ->
  get_earnings_data history (Some dates) = None.
Proof.
  intros Hdates hist Hc Hex. unfold get_earnings_data.
  destruct (empty (table dates)); [reflexivity |].
  destruct (reset_index dates) as [indexed |] eqn:Hi; [| reflexivity].
  destruct (has_col "announcement_date" _); [| reflexivity].
  rewrite rows_add_ticker. simpl rows.
  rewrite (proj1 (reset_index_some _ _ Hi)), Hdates.
  destruct (kept_event_gives_table history a0 rest 1 [5] Hc Hex)
    as (results & ->).
  reflexivity.
Qed.

Lemma earnings_lost_when_an_event_aligns_witness :
  get_earnings_data (serve halted) (Some unaligned_dates) = None.
Proof.
  apply (earnings_lost_when_an_event_aligns (serve halted)
           unaligned_dates 0 [100]).
  - reflexivity.
  - reflexivity.
  - exists 0, 0. split; [simpl; auto |]. split; [lia | reflexivity].
Defined.

(** ** The collector *)

Lemma firstn_plus {A : Type} (a b : nat) : forall l : list A,
  firstn (a + b) l = firstn a l ++ firstn b (skipn a l).
Proof.
  induction a as [| a IH]; intros l; [reflexivity |].
  destruct l as [| x l]; simpl.
  - rewrite firstn_nil. reflexivity.
  - rewrite IH. reflexivity.
Qed.

Lemma slice_chunk {A : Type} (l : list A) (k : nat) :
  (10 * k <= length l)%nat ->
  slice (batch_size * Z.of_nat k) (batch_size * Z.of_nat k + batch_size) l
  = firstn 10 (skipn (10 * k) l).
Proof.
  intros Hk. unfold slice, clip, batch_size.
  destruct (Z.ltb_spec (10 * Z.of_nat k) 0); [lia |].
  destruct (Z.ltb_spec (10 * Z.of_nat k + 10) 0); [lia |].
  replace (Z.to_nat (Z.max 0 (Z.min (Z.of_nat (length l))
                                    (10 * Z.of_nat k))))
    with (10 * k)%nat by lia.
  destruct (Nat.le_gt_cases (10 * k + 10) (length l)) as [Hfull | Hpart].
  - f_equal. lia.
  - rewrite !firstn_all2; [reflexivity | |]; rewrite length_skipn; lia.
Qed.

Lemma concat_chunks {A : Type} (l : list A) (m : nat) :
  concat (map (fun k => firstn 10 (skipn (10 * k) l)) (seq 0 m))
  = firstn (10 * m) l.
Proof.
  induction m as [| m IH]; [reflexivity |].
  rewrite seq_S, map_app, concat_app, IH.
  replace (10 * S m)%nat with (10 * m + 10)%nat by lia.
  rewrite firstn_plus. cbn [map concat Nat.add].
  rewrite app_nil_r. reflexivity.
Qed.

Lemma batch_count (n : nat) :
  let m := Z.to_nat ((Z.of_nat n - 0 + batch_size - 1) / batch_size) in
  (n <= 10 * m)%nat /\ (10 * m < n + 10)%nat
  /\ Z.of_nat m = (Z.of_nat n + batch_size - 1) / batch_size.
Proof.
  intros m. unfold batch_size in *.
  pose proof (Z.div_mod (Z.of_nat n - 0 + 10 - 1) 10 ltac:(lia)) as Hdm.
  pose proof (Z.mod_pos_bound (Z.of_nat n - 0 + 10 - 1) 10 ltac:(lia))
    as Hmod.
  assert (Hq : 0 <= (Z.of_nat n - 0 + 10 - 1) / 10)
    by (apply Z.div_pos; lia).
  replace (Z.of_nat n + 10 - 1) with (Z.of_nat n - 0 + 10 - 1) by lia.
  unfold m. lia.
Qed.

Lemma batches_chunks (tickers : list string) :
  batches tickers
  = map (fun k => firstn 10 (skipn (10 * k) tickers))
        (seq 0 (Z.to_nat ((Z.of_nat (length tickers) - 0 + batch_size - 1)
                          / batch_size))).
Proof.
  unfold batches, range_step. rewrite map_map.
  apply map_ext_in. intros k Hk. apply in_seq in Hk.
  destruct (batch_count (length tickers)) as (_ & Hm & _).
  replace (0 + batch_size * Z.of_nat k) with (batch_size * Z.of_nat k)
    by lia.
  apply slice_chunk. lia.
Qed.

Lemma batches_concat (tickers : list string) :
  concat (batches tickers) = tickers.
Proof.
  destruct (batch_count (length tickers)) as (Hlow & _ & _).
  rewrite batches_chunks, concat_chunks. apply firstn_all2. lia.
Qed.

(** X25: The loop of collect_data cuts the ticker list into consecutive
    batches that together are the list itself: every ticker is handed to
    fetch_batch_tickers exactly once, in order. There are [(len + 9) // 10]
    batches, the total written to the log; each holds between 1 and 10
    tickers, every batch but the last holds 10, and the batch at offset [10
    k] is logged as batch [k + 1]. *)
Theorem batches_partition (tickers : list string) :
  concat (batches tickers) = tickers
  /\ Z.of_nat (length (batches tickers)) = batch_total tickers
  /\ forall k b,
       nth_error (batches tickers) k = Some b ->
       (1 <= length b <= 10)%nat
       /\ ((S k < length (batches tickers))%nat -> length b = 10%nat)
       /\ batch_number (batch_size * Z.of_nat k) = Z.of_nat k + 1.
Proof.
  destruct (batch_count (length tickers)) as (Hlow & Hup & Htotal).
  split; [apply batches_concat |].
  rewrite batches_chunks.
  set (m := Z.to_nat _) in *.
  split.
  - rewrite length_map, length_seq. exact Htotal.
  - intros k b Hk. rewrite length_map, length_seq.
    rewrite nth_error_map in Hk.
    destruct (nth_error (seq 0 m) k) as [j |] eqn:Ej; [| discriminate].
    assert (Hkm : (k < length (seq 0 m))%nat)
      by (apply nth_error_Some; congruence).
    rewrite length_seq in Hkm.
    rewrite (nth_error_nth' _ O) in Ej by (rewrite length_seq; lia).
    rewrite seq_nth in Ej by lia. inversion Ej. subst j.
    cbn [option_map] in Hk.
    assert (Hb : b = firstn 10 (skipn (10 * k) tickers)) by congruence.
    rewrite Hb, length_firstn, length_skipn.
    split; [lia |]. split; [lia |].
    unfold batch_number, batch_size.
    rewrite Z.mul_comm, Z.div_mul by lia. reflexivity.
Qed.

Lemma batches_partition_witness :
  (1 <= length ["K"; "L"]%string <= 10)%nat
  /\ ((2 < length (batches tickers_12))%nat
      -> length ["K"; "L"]%string = 10%nat)
  /\ batch_number (batch_size * Z.of_nat 1) = Z.of_nat 1 + 1.
Proof.
  apply (proj2 (proj2 (batches_partition tickers_12)) 1%nat).
  reflexivity.
Defined.

Lemma count_batch_bounds (Data : Type)
    (process_ticker_data truthy : Data -> bool)
    (batch_results : list (string * Data)) : forall count,
  count <= count_batch Data process_ticker_data truthy count batch_results
        <= count + Z.of_nat (length batch_results).
Proof.
  unfold count_batch.
  induction batch_results as [| e entries IH]; intros count; simpl;
    [lia |].
  specialize (IH (if truthy (snd e) && process_ticker_data (snd e)
                  then count + 1 else count)).
  destruct (truthy (snd e) && process_ticker_data (snd e)); lia.
Qed.

Lemma count_batches_bounds (Data : Type)
    (fetch_batch_tickers : list string -> list (string * Data))
    (process_ticker_data truthy : Data -> bool)
    (bs : list (list string)) :
  (forall b, (length (fetch_batch_tickers b) <= length b)%nat) ->
  forall count,
    count
    <= fold_left
         (fun successful_count batch_tickers =>
            count_batch Data process_ticker_data truthy successful_count
              (fetch_batch_tickers batch_tickers))
         bs count
    <= count + Z.of_nat (length (concat bs)).
Proof.
  intros Hfetch. induction bs as [| b bs IH]; intros count; simpl;
    [lia |].
  pose proof (count_batch_bounds Data process_ticker_data truthy
                (fetch_batch_tickers b) count) as Hb.
  specialize (IH (count_batch Data process_ticker_data truthy count
                    (fetch_batch_tickers b))).
  rewrite length_app. specialize (Hfetch b). lia.
Qed.

(** X26: The count collect_data returns lies between 0 and the number of
    tickers, provided fetch_batch_tickers answers with at most one record
    per ticker of a batch (it keys its results by ticker). *)
Theorem successes_bounded_by_tickers (Data : Type)
    (fetch_batch_tickers : list string -> list (string * Data))
    (process_ticker_data truthy : Data -> bool) (tickers : list string) :
  (forall b, (length (fetch_batch_tickers b) <= length b)%nat) ->
  0 <= count_successes Data fetch_batch_tickers process_ticker_data truthy
         tickers
    <= Z.of_nat (length tickers).
Proof.
  intros Hfetch. unfold count_successes.
  pose proof (count_batches_bounds Data fetch_batch_tickers
                process_ticker_data truthy (batches tickers) Hfetch 0) as H.
  rewrite (batches_concat tickers) in H. lia.
Qed.

Lemma successes_bounded_by_tickers_witness :
  0 <= count_successes bool (map (fun t => (t, true))) (fun d => d)
         (fun d => d) tickers_12
    <= Z.of_nat (length tickers_12).
Proof.
  apply (successes_bounded_by_tickers bool (map (fun t => (t, true)))
           (fun d => d) (fun d => d) tickers_12).
  intros b. rewrite length_map. lia.
Defined.

(** X27: scheduled_collection collects when the market-hours switch is off
    or when the clock reads a weekday (Monday is 0) at a time from 9:30
    included to 16:00 excluded, and at no other time; when it collects, it
    refreshes the 50 top trending tickers if the database already holds
    [stock_count] stocks, and otherwise collects the S&P 500 list first and
    100 trending tickers after it. *)
Theorem collection_runs_in_market_hours market_hours_only
    weekday hour minute current_count stock_count :
  0 <= weekday <= 6 -> 0 <= hour <= 23 -> 0 <= minute <= 59 ->
  let calls :=
    scheduled_collection market_hours_only weekday hour minute
      current_count stock_count in
  (calls <> []
   <-> market_hours_only = false
       \/ (weekday <= 4 /\ 570 <= 60 * hour + minute < 960))
  /\ (calls <> [] ->
      (stock_count <= current_count -> calls = [CollectTrending 50])
      /\ (current_count < stock_count ->
          calls = [CollectSP500; CollectTrending 100])).
Proof.
  intros Hw Hh Hm calls. unfold calls, scheduled_collection,
    outside_market_hours.
  destruct market_hours_only;
    destruct (Z.geb_spec weekday 5); destruct (Z.ltb_spec hour 9);
    destruct (Z.eqb_spec hour 9); destruct (Z.ltb_spec minute 30);
    destruct (Z.geb_spec hour 16);
    destruct (Z.geb_spec current_count stock_count); cbn [andb orb];
    (split;
     [ split;
       [ intros Hcalls;
         first [ exfalso; apply Hcalls; reflexivity
               | left; reflexivity
               | right; lia ]
       | intros [Hoff | Hopen]; first [ discriminate | exfalso; lia ] ]
     | intros Hcalls;
       first [ exfalso; apply Hcalls; reflexivity
             | split; intros; first [ reflexivity | exfalso; lia ] ] ]).
Qed.

Lemma collection_runs_in_market_hours_witness :
  scheduled_collection true 2 9 30 10 500 <> []
  <-> true = false \/ (2 <= 4 /\ 570 <= 60 * 9 + 30 < 960).
Proof.
  apply (proj1 (collection_runs_in_market_hours true 2 9 30 10 500
                  ltac:(lia) ltac:(lia) ltac:(lia))).
Defined.

(** X28: The limit of collect_data keeps a prefix of the ticker list: for a
    positive limit the first [limit] tickers, or all of them when there are
    fewer; no limit, or a limit of 0, keeps the whole list. *)
Theorem limit_keeps_a_prefix (limit : option Z) (tickers : list string) :
  (exists dropped, tickers = apply_limit limit tickers ++ dropped)
  /\ (forall n, limit = Some n -> 0 < n ->
        apply_limit limit tickers = firstn (Z.to_nat n) tickers
        /\ Z.of_nat (length (apply_limit limit tickers))
           = Z.min n (Z.of_nat (length tickers)))
  /\ (limit = None \/ limit = Some 0 -> apply_limit limit tickers = tickers).
Proof.
  split; [| split].
  - unfold apply_limit. destruct limit as [n |]; [| exists []; symmetry;
      apply app_nil_r].
    destruct (negb (n =? 0) && (Z.of_nat (length tickers) >? n));
      [| exists []; symmetry; apply app_nil_r].
    unfold slice, clip. change (0 <? 0) with false. cbv iota.
    replace (Z.to_nat (Z.max 0 (Z.min (Z.of_nat (length tickers)) 0)))
      with O by lia.
    simpl skipn. eexists. symmetry. apply firstn_skipn.
  - intros n -> Hn. unfold apply_limit.
    destruct (Z.eqb_spec n 0); [lia |]. simpl negb. simpl andb.
    destruct (Z.gtb_spec (Z.of_nat (length tickers)) n).
    + rewrite slice_prefix by lia. split; [reflexivity |].
      rewrite length_firstn. lia.
    + rewrite firstn_all2 by lia. split; [reflexivity | lia].
  - intros [-> | ->]; reflexivity.
Qed.

Lemma limit_keeps_a_prefix_witness :
  apply_limit (Some 3) tickers_12 = firstn (Z.to_nat 3) tickers_12
  /\ Z.of_nat (length (apply_limit (Some 3) tickers_12))
     = Z.min 3 (Z.of_nat (length tickers_12)).
Proof.
  apply (proj1 (proj2 (limit_keeps_a_prefix (Some 3) tickers_12)) 3
           eq_refl).
  lia.
Defined.
